(** * The authentication slice of react-native-gluestack, embedded in Rocq

    The development follows [src/docs/auth2.md]: the provider abstraction
    ([base-provider.ts], [credentials-provider.ts], [google-provider.ts]),
    the provider registry ([providers/index.ts]), the secure storage service
    ([services/secureStorage.ts]) and the Redux slice with its five
    asynchronous thunks ([store/slices/auth-slice.ts]).

    Asynchronous functions are written in a small free monad [Thunk] whose
    effects are the calls the slice makes on shared state: the storage
    service, [getState], [dispatch] and [Date.now].  A thunk can be run to
    completion ([run]) or one effect at a time ([step]), which gives the
    interleavings of the cooperative scheduler.

    After the slice come its callers, the authentication context
    ([auth/AuthContext.tsx]) and the sign-in screen, and the token service
    of the second part of the document ([authService]). *)

From Stdlib Require Import ZArith String List Bool Ascii DecimalString.
From stdpp Require Import gmap strings.
Import ListNotations.

Local Open Scope string_scope.
Local Open Scope Z_scope.

(** ** JavaScript values the slice relies on *)

(** What a [catch (error: any)] clause can receive: an [Error] object, whose
    [message] is a string, or a bare string (what [unwrap()] throws for an
    action rejected with [rejectWithValue]), whose [message] is undefined. *)
Inductive JsError : Type :=
| Error (message : string)
| ThrownValue (payload : string).

Definition message (e : JsError) : option string :=
  match e with
  | Error m => Some m
  | ThrownValue _ => None
  end.

(** A settled promise. *)
Inductive Promise (A : Type) : Type :=
| resolves (a : A)
| rejects (e : JsError).
Arguments resolves {A} a.
Arguments rejects {A} e.

(** Truthiness of a [string | null | undefined]: only a non-empty string
    passes an [if (x)] or survives [x || d]. *)
Definition truthy (x : option string) : option string :=
  match x with
  | Some s => if String.eqb s "" then None else Some s
  | None => None
  end.

(** [x || d] at type string. *)
Definition or_default (x : option string) (d : string) : string :=
  match truthy x with
  | Some s => s
  | None => d
  end.

(** ** base-provider.ts *)

Record AuthProviderConfig : Type := mkConfig {
  config_id : string;
  config_name : string;
  config_enabled : bool }.

Record AuthCredentials : Type := mkCredentials {
  cred_email : option string;
  cred_password : option string;
  cred_token : option string }.

(** The [[key: string]: any] index signature of [AuthUser] is kept for the
    one extra attribute the slice reads, [user.expiresAt]. *)
Record AuthUser : Type := mkUser {
  user_id : string;
  user_email : string;
  user_name : option string;
  user_picture : option string;
  user_expiresAt : option Z }.

Record AuthSession : Type := mkSession {
  user : AuthUser;
  accessToken : string;
  refreshToken : option string;
  expiresAt : option Z }.

Record AuthResponse : Type := mkResponse {
  success : bool;
  response_session : option AuthSession;
  response_error : option string }.

(** [BaseAuthProvider]: [signUp] and [refreshSession] are optional members. *)
Record BaseAuthProvider : Type := mkProvider {
  provider_id : string;
  provider_name : string;
  enabled : bool;
  provider_signIn : AuthCredentials -> Promise AuthResponse;
  provider_signUp : option (AuthCredentials -> Promise AuthResponse);
  provider_signOut : Promise bool;
  provider_refreshSession : option (string -> Promise AuthResponse) }.

(** ** providers/index.ts: the registry, a [Map] in insertion order *)

Definition AuthProviderRegistry : Type := list (string * BaseAuthProvider).

Fixpoint Map_set (key : string) (p : BaseAuthProvider)
    (providers : AuthProviderRegistry) : AuthProviderRegistry :=
  match providers with
  | [] => [(key, p)]
  | (k, q) :: rest =>
      if String.eqb k key then (k, p) :: rest else (k, q) :: Map_set key p rest
  end.

Fixpoint Map_get (key : string) (providers : AuthProviderRegistry)
    : option BaseAuthProvider :=
  match providers with
  | [] => None
  | (k, q) :: rest => if String.eqb k key then Some q else Map_get key rest
  end.

Definition registerProvider (provider : BaseAuthProvider)
    (providers : AuthProviderRegistry) : AuthProviderRegistry :=
  if negb (enabled provider) then providers
  else Map_set (provider_id provider) provider providers.

Definition getProvider (providers : AuthProviderRegistry) (providerId : string)
    : option BaseAuthProvider :=
  Map_get providerId providers.

Definition getAllProviders (providers : AuthProviderRegistry)
    : list BaseAuthProvider :=
  map snd providers.

(** ** auth-slice.ts: state, actions and reducers *)

Definition ACCESS_TOKEN_KEY : string := "auth_access_token".
Definition REFRESH_TOKEN_KEY : string := "auth_refresh_token".
Definition USER_KEY : string := "auth_user".
Definition PROVIDER_ID_KEY : string := "auth_provider_id".

Record AuthState : Type := mkAuthState {
  isAuthenticated : bool;
  isLoading : bool;
  session : option AuthSession;
  providerId : option string;
  error : option string }.

Definition initialState : AuthState :=
  {| isAuthenticated := false;
     isLoading := false;
     session := None;
     providerId := None;
     error := None |}.

(** The five thunks made by [createAsyncThunk]. *)
Inductive ThunkName : Type :=
| T_signIn | T_signUp | T_signOut | T_refreshSession | T_checkAuth.

(** What a payload creator returns on success: [{ session, providerId }],
    or [true] for [signOut]. *)
Inductive Payload : Type :=
| SessionPayload (s : AuthSession) (pid : string)
| TruePayload.

Definition payload_session (p : Payload) : option AuthSession :=
  match p with
  | SessionPayload s _ => Some s
  | TruePayload => None
  end.

Definition payload_providerId (p : Payload) : option string :=
  match p with
  | SessionPayload _ pid => Some pid
  | TruePayload => None
  end.

(** Redux actions of the slice.  A rejected action carries the value given to
    [rejectWithValue], if any. *)
Inductive Action : Type :=
| clearError
| pending (t : ThunkName)
| fulfilled (t : ThunkName) (payload : Payload)
| rejected (t : ThunkName) (payload : option string).

Definition authReducer (state : AuthState) (action : Action) : AuthState :=
  match action with
  | clearError =>
      {| isAuthenticated := isAuthenticated state;
         isLoading := isLoading state;
         session := session state;
         providerId := providerId state;
         error := None |}
  (* Sign In, Sign Up *)
  | pending T_signIn | pending T_signUp =>
      {| isAuthenticated := isAuthenticated state;
         isLoading := true;
         session := session state;
         providerId := providerId state;
         error := None |}
  | rejected T_signIn payload | rejected T_signUp payload =>
      {| isAuthenticated := isAuthenticated state;
         isLoading := false;
         session := session state;
         providerId := providerId state;
         error := payload |}
  (* Sign Out *)
  | fulfilled T_signOut _ =>
      {| isAuthenticated := false;
         isLoading := false;
         session := None;
         providerId := None;
         error := error state |}
  (* Sign Out, Check Auth, Refresh Session *)
  | pending _ =>
      {| isAuthenticated := isAuthenticated state;
         isLoading := true;
         session := session state;
         providerId := providerId state;
         error := error state |}
  | fulfilled _ payload =>
      {| isAuthenticated := true;
         isLoading := false;
         session := payload_session payload;
         providerId := payload_providerId payload;
         error := error state |}
  | rejected _ _ =>
      {| isAuthenticated := false;
         isLoading := false;
         session := None;
         providerId := None;
         error := error state |}
  end.

(** ** services/secureStorage.ts: the stores behind the service *)

(** The three methods of [StorageService]. *)
Inductive StorageCall : Type :=
| getItem_call (key : string)
| setItem_call (key value : string)
| removeItem_call (key : string).

(** [localStorage] on the web; [SecureStore] and, as its fallback,
    [AsyncStorage] on a device. *)
Inductive Backend : Type := localStorage | SecureStore | AsyncStorage.

Record Backends : Type := mkBackends {
  localStorage_items : gmap string string;
  SecureStore_items : gmap string string;
  AsyncStorage_items : gmap string string }.

Definition items (b : Backend) (bs : Backends) : gmap string string :=
  match b with
  | localStorage => localStorage_items bs
  | SecureStore => SecureStore_items bs
  | AsyncStorage => AsyncStorage_items bs
  end.

Definition with_items (b : Backend) (m : gmap string string) (bs : Backends)
    : Backends :=
  match b with
  | localStorage =>
      {| localStorage_items := m;
         SecureStore_items := SecureStore_items bs;
         AsyncStorage_items := AsyncStorage_items bs |}
  | SecureStore =>
      {| localStorage_items := localStorage_items bs;
         SecureStore_items := m;
         AsyncStorage_items := AsyncStorage_items bs |}
  | AsyncStorage =>
      {| localStorage_items := localStorage_items bs;
         SecureStore_items := SecureStore_items bs;
         AsyncStorage_items := m |}
  end.

(** ** The asynchronous runtime: store, storage and clock *)

Inductive Event : Type :=
| Called (b : Backend) (c : StorageCall) (ok : bool)
| Dispatched (a : Action).

(** The process: the Redux state, [Platform.OS], the stores, the outcome of
    the calls on the stores to come ([Some m]: the call rejects with
    [Error m] and leaves its store as it is; an exhausted list: no further
    failure), the clock, and a record of what was done, oldest first. *)
Record World : Type := mkWorld {
  auth : AuthState;
  Platform_OS : string;
  stores : Backends;
  faults : list (option string);
  now : Z;
  log : list Event }.

Inductive Thunk (A : Type) : Type :=
| Ret (a : A)
| Throw (e : JsError)
| Storage (c : StorageCall) (k : option string -> Thunk A) (h : JsError -> Thunk A)
| GetState (k : AuthState -> Thunk A)
| Dispatch (a : Action) (k : Thunk A)
| DateNow (k : Z -> Thunk A).
Arguments Ret {A} a.
Arguments Throw {A} e.
Arguments Storage {A} c k h.
Arguments GetState {A} k.
Arguments Dispatch {A} a k.
Arguments DateNow {A} k.

Fixpoint bind {A B : Type} (m : Thunk A) (f : A -> Thunk B) : Thunk B :=
  match m with
  | Ret a => f a
  | Throw e => Throw e
  | Storage c k h => Storage c (fun v => bind (k v) f) (fun e => bind (h e) f)
  | GetState k => GetState (fun s => bind (k s) f)
  | Dispatch a k => Dispatch a (bind k f)
  | DateNow k => DateNow (fun t => bind (k t) f)
  end.

(** [try { m } catch (error) { handler }] *)
Fixpoint try_catch {A : Type} (m : Thunk A) (handler : JsError -> Thunk A) : Thunk A :=
  match m with
  | Ret a => Ret a
  | Throw e => handler e
  | Storage c k h =>
      Storage c (fun v => try_catch (k v) handler) (fun e => try_catch (h e) handler)
  | GetState k => GetState (fun s => try_catch (k s) handler)
  | Dispatch a k => Dispatch a (try_catch k handler)
  | DateNow k => DateNow (fun t => try_catch (k t) handler)
  end.

Declare Scope thunk_scope.
Delimit Scope thunk_scope with thunk.
Notation "x <- m ;; k" := (bind m (fun x => k))
  (at level 100, m at next level, right associativity) : thunk_scope.
Notation "m ;; k" := (bind m (fun _ => k))
  (at level 100, right associativity) : thunk_scope.
Notation "'try' m 'catch' e => h" := (try_catch m (fun e => h))
  (at level 100, m at level 200, e name, h at level 200) : thunk_scope.
Local Open Scope thunk_scope.

Definition getItem (key : string) : Thunk (option string) :=
  Storage (getItem_call key) Ret Throw.
Definition setItem (key value : string) : Thunk unit :=
  Storage (setItem_call key value) (fun _ => Ret tt) Throw.
Definition removeItem (key : string) : Thunk unit :=
  Storage (removeItem_call key) (fun _ => Ret tt) Throw.
Definition getState : Thunk AuthState := GetState Ret.
Definition dispatch (a : Action) : Thunk unit := Dispatch a (Ret tt).
Definition Date_now : Thunk Z := DateNow Ret.

Definition await {A : Type} (p : Promise A) : Thunk A :=
  match p with
  | resolves a => Ret a
  | rejects e => Throw e
  end.

(** What a call does to a store when it goes through. *)
Definition apply_call (c : StorageCall) (st : gmap string string)
    : option string * gmap string string :=
  match c with
  | getItem_call key => (st !! key, st)
  | setItem_call key value => (None, <[key := value]> st)
  | removeItem_call key => (None, delete key st)
  end.

(** One call on one store: it consumes the next entry of [faults]. *)
Definition backend_call (b : Backend) (c : StorageCall) (w : World)
    : (JsError + option string) * World :=
  match faults w with
  | Some m :: fs =>
      (inl (Error m),
       {| auth := auth w; Platform_OS := Platform_OS w; stores := stores w;
          faults := fs; now := now w;
          log := log w ++ [Called b c false] |})
  | fs =>
      let '(r, st) := apply_call c (items b (stores w)) in
      (inr r,
       {| auth := auth w; Platform_OS := Platform_OS w;
          stores := with_items b st (stores w);
          faults := tl fs; now := now w;
          log := log w ++ [Called b c true] |})
  end.

(** Web implementation using localStorage. *)
Definition webStorage (c : StorageCall) (w : World)
    : (JsError + option string) * World :=
  backend_call localStorage c w.

(** Native implementation using SecureStore with fallback to AsyncStorage. *)
Definition nativeStorage (c : StorageCall) (w : World)
    : (JsError + option string) * World :=
  match backend_call SecureStore c w with
  | (inr v, w') => (inr v, w')
  | (inl _, w') =>
      (* Fall back to AsyncStorage if SecureStore fails *)
      backend_call AsyncStorage c w'
  end.

(** Choose appropriate implementation based on platform. *)
Definition secureStorage (c : StorageCall) (w : World)
    : (JsError + option string) * World :=
  if String.eqb (Platform_OS w) "web" then webStorage c w else nativeStorage c w.

(** The store the service turns to first, and its content. *)
Definition primary (os : string) : Backend :=
  if String.eqb os "web" then localStorage else SecureStore.

Definition storage (w : World) : gmap string string :=
  items (primary (Platform_OS w)) (stores w).

Definition dispatch_action (a : Action) (w : World) : World :=
  {| auth := authReducer (auth w) a; Platform_OS := Platform_OS w;
     stores := stores w; faults := faults w;
     now := now w; log := log w ++ [Dispatched a] |}.

(** Running a thunk to completion. *)
Fixpoint run {A : Type} (p : Thunk A) (w : World) : (JsError + A) * World :=
  match p with
  | Ret a => (inr a, w)
  | Throw e => (inl e, w)
  | Storage c k h =>
      match secureStorage c w with
      | (inr v, w') => run (k v) w'
      | (inl e, w') => run (h e) w'
      end
  | GetState k => run (k (auth w)) w
  | Dispatch a k => run k (dispatch_action a w)
  | DateNow k => run (k (now w)) w
  end.

(** Running a thunk up to and including its next effect. *)
Definition step {A : Type} (p : Thunk A) (w : World) : Thunk A * World :=
  match p with
  | Ret a => (Ret a, w)
  | Throw e => (Throw e, w)
  | Storage c k h =>
      match secureStorage c w with
      | (inr v, w') => (k v, w')
      | (inl e, w') => (h e, w')
      end
  | GetState k => (k (auth w), w)
  | Dispatch a k => (k, dispatch_action a w)
  | DateNow k => (k (now w), w)
  end.

(** ** createAsyncThunk *)

(** What a payload creator hands back: a value, or [rejectWithValue(v)]. *)
Inductive PayloadResult : Type :=
| returns (p : Payload)
| rejectWithValue (v : string).

(** [createAsyncThunk(type, payloadCreator)]: dispatch [pending], run the
    payload creator, dispatch and return [fulfilled] or [rejected].  An
    exception that escapes the payload creator gives a [rejected] action
    without payload.  There is no [condition] option: every call is admitted. *)
Definition createAsyncThunk (t : ThunkName) (payloadCreator : Thunk PayloadResult)
    : Thunk Action :=
  dispatch (pending t) ;;
  finalAction <-
    (try (r <- payloadCreator ;;
          Ret (match r with
               | returns p => fulfilled t p
               | rejectWithValue v => rejected t (Some v)
               end))
     catch _err => Ret (rejected t None)) ;;
  dispatch finalAction ;;
  Ret finalAction.

(** [.unwrap()] on the promise of a dispatched thunk: the payload of a
    fulfilled action; the [rejectWithValue] payload, thrown as it is, for a
    rejected one (the serialized error when there is no payload). *)
Definition unwrap (a : Action) : Thunk Payload :=
  match a with
  | fulfilled _ p => Ret p
  | rejected _ (Some v) => Throw (ThrownValue v)
  | _ => Throw (Error "Rejected")
  end.

(** [!response.success || !response.session] is false exactly when this is
    [Some]. *)
Definition successful_session (response : AuthResponse) : option AuthSession :=
  if success response then response_session response else None.

(** Truthiness of a [number | undefined]. *)
Definition truthy_number (n : option Z) : bool :=
  match n with
  | Some z => negb (z =? 0)
  | None => false
  end.

(** Helper for token decoding/validation. *)
Definition isTokenExpired (expiresAt : option Z) : Thunk bool :=
  if negb (truthy_number expiresAt) then Ret false
  else
    t <- Date_now ;;
    Ret (match expiresAt with Some e => t >? e | None => false end).

(** ** auth-slice.ts: the thunks *)

Section AuthSlice.

(** The singleton registry the slice imports, and the host's JSON codec
    for the user record ([JSON_parse] is [None] where [JSON.parse] throws). *)
Variable authProviderRegistry : AuthProviderRegistry.
Variable JSON_stringify : AuthUser -> string.
Variable JSON_parse : string -> option AuthUser.

(** Save auth data in secure storage. *)
Definition save_tokens_and_user (sess : AuthSession) : Thunk unit :=
  setItem ACCESS_TOKEN_KEY (accessToken sess) ;;
  match truthy (refreshToken sess) with
  | Some rt => setItem REFRESH_TOKEN_KEY rt
  | None => Ret tt
  end ;;
  setItem USER_KEY (JSON_stringify (user sess)).

Definition signIn (providerId : string) (credentials : AuthCredentials)
    : Thunk Action :=
  createAsyncThunk T_signIn
    (try
       match getProvider authProviderRegistry providerId with
       | None => Throw (Error ("Provider " +:+ providerId +:+ " not found"))
       | Some provider =>
           response <- await (provider_signIn provider credentials) ;;
           match successful_session response with
           | None =>
               Throw (Error (or_default (response_error response) "Sign in failed"))
           | Some sess =>
               save_tokens_and_user sess ;;
               setItem PROVIDER_ID_KEY providerId ;;
               Ret (returns (SessionPayload sess providerId))
           end
       end
     catch err =>
       Ret (rejectWithValue (or_default (message err) "Authentication failed"))).

Definition signUp (providerId : string) (credentials : AuthCredentials)
    : Thunk Action :=
  createAsyncThunk T_signUp
    (try
       match getProvider authProviderRegistry providerId with
       | Some {| provider_signUp := Some provider_signUp |} =>
           response <- await (provider_signUp credentials) ;;
           match successful_session response with
           | None =>
               Throw (Error (or_default (response_error response) "Sign up failed"))
           | Some sess =>
               save_tokens_and_user sess ;;
               setItem PROVIDER_ID_KEY providerId ;;
               Ret (returns (SessionPayload sess providerId))
           end
       | _ =>
           Throw (Error ("Provider " +:+ providerId +:+ " does not support sign up"))
       end
     catch err =>
       Ret (rejectWithValue (or_default (message err) "Registration failed"))).

Definition signOut : Thunk Action :=
  createAsyncThunk T_signOut
    (try
       state <- getState ;;
       match truthy (providerId state) with
       | Some pid =>
           match getProvider authProviderRegistry pid with
           | Some provider => _ <- await (provider_signOut provider) ;; Ret tt
           | None => Ret tt
           end
       | None => Ret tt
       end ;;
       (* Clear secure storage *)
       removeItem ACCESS_TOKEN_KEY ;;
       removeItem REFRESH_TOKEN_KEY ;;
       removeItem USER_KEY ;;
       removeItem PROVIDER_ID_KEY ;;
       Ret (returns TruePayload)
     catch err =>
       Ret (rejectWithValue (or_default (message err) "Sign out failed"))).

Definition refreshSession : Thunk Action :=
  createAsyncThunk T_refreshSession
    (try
       state <- getState ;;
       stored_refreshToken <- getItem REFRESH_TOKEN_KEY ;;
       match truthy (providerId state), truthy stored_refreshToken with
       | Some pid, Some rt =>
           match getProvider authProviderRegistry pid with
           | Some {| provider_refreshSession := Some provider_refreshSession |} =>
               result <- await (provider_refreshSession rt) ;;
               match successful_session result with
               | None =>
                   Throw (Error (or_default (response_error result)
                                            "Session refresh failed"))
               | Some sess =>
                   (* Update storage with new tokens *)
                   save_tokens_and_user sess ;;
                   Ret (returns (SessionPayload sess pid))
               end
           | _ =>
               Throw (Error ("Provider " +:+ pid +:+
                             " does not support session refresh"))
           end
       | _, _ => Throw (Error "No active session found")
       end
     catch err =>
       Ret (rejectWithValue (or_default (message err) "Token refresh failed"))).

(** The [try] block of [checkAuth]. *)
Definition checkAuth_try : Thunk PayloadResult :=
  (* Check if we have tokens in storage *)
  stored_accessToken <- getItem ACCESS_TOKEN_KEY ;;
  stored_refreshToken <- getItem REFRESH_TOKEN_KEY ;;
  userInfo <- getItem USER_KEY ;;
  stored_providerId <- getItem PROVIDER_ID_KEY ;;
  match truthy stored_accessToken, truthy userInfo, truthy stored_providerId with
  | Some at_, Some info, Some pid =>
      (* Parse user info *)
      match JSON_parse info with
      | None => Throw (Error "JSON Parse error")
      | Some u =>
          let sess := {| user := u;
                         accessToken := at_;
                         refreshToken := truthy stored_refreshToken;
                         expiresAt := None |} in
          (* If session has expiration info and is expired, try refresh *)
          expired <- (if truthy_number (user_expiresAt (user sess))
                      then isTokenExpired (user_expiresAt (user sess))
                      else Ret false) ;;
          if expired then
            match truthy stored_refreshToken with
            | Some _ =>
                (* Refresh the token *)
                a <- refreshSession ;;
                p <- unwrap a ;;
                Ret (returns p)
            | None => Throw (Error "Session expired")
            end
          else Ret (returns (SessionPayload sess pid))
      end
  | _, _, _ => Throw (Error "No active session found")
  end.

Definition checkAuth : Thunk Action :=
  createAsyncThunk T_checkAuth
    (try checkAuth_try
     catch err =>
       (* Clear storage on auth check failure *)
       removeItem ACCESS_TOKEN_KEY ;;
       removeItem REFRESH_TOKEN_KEY ;;
       removeItem USER_KEY ;;
       removeItem PROVIDER_ID_KEY ;;
       Ret (rejectWithValue (or_default (message err) "Authentication check failed"))).

End AuthSlice.

(** ** credentials-provider.ts and google-provider.ts *)

(** The request bodies the providers post, and what [api.post] answers:
    [response.data], shaped like a session, or a failure carrying
    [error.response?.data?.message]. *)
Inductive ApiBody : Type :=
| credentials_body (credentials : AuthCredentials)
| idToken_body (idToken provider : string)
| refresh_body (refreshToken : string) (provider : option string).

Inductive ApiReply : Type :=
| api_data (data : AuthSession)
| api_failure (message : option string).

Record CredentialsProviderConfig : Type := mkCredentialsConfig {
  credentials_base : AuthProviderConfig;
  signInUrl : string;
  signUpUrl : string;
  validateCredentials : option (AuthCredentials -> bool) }.

Record GoogleProviderConfig : Type := mkGoogleConfig {
  google_base : AuthProviderConfig;
  clientId : string;
  serverAuthUrl : option string }.

Definition session_response (data : AuthSession) : AuthResponse :=
  {| success := true;
     response_session :=
       Some {| user := user data;
               accessToken := accessToken data;
               refreshToken := refreshToken data;
               expiresAt := expiresAt data |};
     response_error := None |}.

Definition failure_response (msg : string) : AuthResponse :=
  {| success := false; response_session := None; response_error := Some msg |}.

Section Providers.

Variable api_post : string -> ApiBody -> ApiReply.

Definition post_for_session (url : string) (body : ApiBody) (fallback : string)
    : Promise AuthResponse :=
  match api_post url body with
  | api_data data => resolves (session_response data)
  | api_failure msg => resolves (failure_response (or_default msg fallback))
  end.

Definition invalid_format (config : CredentialsProviderConfig)
    (credentials : AuthCredentials) : bool :=
  match validateCredentials config with
  | Some validate => negb (validate credentials)
  | None => false
  end.

Definition CredentialsProvider (config : CredentialsProviderConfig)
    : BaseAuthProvider :=
  {| provider_id := config_id (credentials_base config);
     provider_name := config_name (credentials_base config);
     enabled := config_enabled (credentials_base config);
     provider_signIn := fun credentials =>
       if invalid_format config credentials
       then resolves (failure_response "Invalid credentials format")
       else post_for_session (signInUrl config) (credentials_body credentials)
                             "Failed to sign in";
     provider_signUp := Some (fun credentials =>
       if invalid_format config credentials
       then resolves (failure_response "Invalid credentials format")
       else post_for_session (signUpUrl config) (credentials_body credentials)
                             "Failed to sign up");
     (* No server-side session to invalidate for credentials *)
     provider_signOut := resolves true;
     provider_refreshSession := Some (fun refreshToken =>
       post_for_session "/auth/refresh" (refresh_body refreshToken None)
                        "Failed to refresh session") |}.

(** [GoogleProvider] defines no [signUp]. *)
Definition GoogleProvider (config : GoogleProviderConfig) : BaseAuthProvider :=
  {| provider_id := config_id (google_base config);
     provider_name := config_name (google_base config);
     enabled := config_enabled (google_base config);
     provider_signIn := fun credentials =>
       match truthy (cred_token credentials) with
       | Some token =>
           match truthy (serverAuthUrl config) with
           | Some url =>
               post_for_session url (idToken_body token "google")
                                "Failed to sign in with Google"
           | None =>
               (* Client-side handling *)
               resolves
                 {| success := true;
                    response_session :=
                      Some {| user := {| user_id := "google-user-id";
                                         user_email := "example@gmail.com";
                                         user_name := Some "Google User";
                                         user_picture :=
                                           Some "https://example.com/avatar.jpg";
                                         user_expiresAt := None |};
                              accessToken := token;
                              refreshToken := None;
                              expiresAt := None |};
                    response_error := None |}
           end
       | None => resolves (failure_response "No authentication token provided")
       end;
     provider_signUp := None;
     provider_signOut := resolves true;
     provider_refreshSession := Some (fun refreshToken =>
       post_for_session "/auth/refresh" (refresh_body refreshToken (Some "google"))
                        "Failed to refresh session") |}.

End Providers.

(** ** A JSON codec for the user record

    [JSON.stringify] and [JSON.parse] belong to the host; the slice is
    parametric in them.  This codec writes and reads the user record as a
    flat JSON object, and instantiates the parameters in closed examples. *)
Module JSON.

Definition dquote : ascii := "034"%char.
Definition backslash : ascii := "092"%char.

Inductive value : Type :=
| JString (s : string)
| JNumber (z : Z).

Fixpoint escape (s : string) : string :=
  match s with
  | EmptyString => EmptyString
  | String c rest =>
      if (Ascii.eqb c dquote || Ascii.eqb c backslash)%bool
      then String backslash (String c (escape rest))
      else String c (escape rest)
  end.

Definition quote (s : string) : string :=
  String dquote (escape s) +:+ String dquote EmptyString.

Definition number (z : Z) : string := NilZero.string_of_int (Z.to_int z).

Definition field (key : string) (v : string) : string :=
  quote key +:+ ":" +:+ v.

Definition optional_field (key : string) (v : option string) : string :=
  match v with
  | Some s => "," +:+ field key s
  | None => ""
  end.

Definition stringify (u : AuthUser) : string :=
  "{" +:+ field "id" (quote (user_id u))
      +:+ "," +:+ field "email" (quote (user_email u))
      +:+ optional_field "name" (option_map quote (user_name u))
      +:+ optional_field "picture" (option_map quote (user_picture u))
      +:+ optional_field "expiresAt" (option_map number (user_expiresAt u))
      +:+ "}".

(** Reads a string literal after its opening quote: the text and the rest. *)
Fixpoint read_string (s : string) : option (string * string) :=
  match s with
  | EmptyString => None
  | String c rest =>
      if Ascii.eqb c dquote then Some (EmptyString, rest)
      else if Ascii.eqb c backslash then
        match rest with
        | String c' rest' =>
            if (Ascii.eqb c' dquote || Ascii.eqb c' backslash)%bool
            then match read_string rest' with
                 | Some (text, tail) => Some (String c' text, tail)
                 | None => None
                 end
            else None
        | EmptyString => None
        end
      else match read_string rest with
           | Some (text, tail) => Some (String c text, tail)
           | None => None
           end
  end.

Definition is_number_char (c : ascii) : bool :=
  (Ascii.eqb c "-" || ((48 <=? Z.of_nat (nat_of_ascii c)) && (Z.of_nat (nat_of_ascii c) <=? 57)))%bool.

Fixpoint read_number_chars (s : string) : string * string :=
  match s with
  | String c rest =>
      if is_number_char c
      then let '(digits, tail) := read_number_chars rest in (String c digits, tail)
      else (EmptyString, s)
  | EmptyString => (EmptyString, EmptyString)
  end.

Definition read_value (s : string) : option (value * string) :=
  match s with
  | String c rest =>
      if Ascii.eqb c dquote then
        match read_string rest with
        | Some (text, tail) => Some (JString text, tail)
        | None => None
        end
      else
        let '(digits, tail) := read_number_chars s in
        match NilZero.int_of_string digits with
        | Some i => Some (JNumber (Z.of_int i), tail)
        | None => None
        end
  | EmptyString => None
  end.

(** Reads [["key":value,...}] after the opening brace. *)
Fixpoint read_fields (fuel : nat) (s : string) : option (list (string * value)) :=
  match fuel with
  | O => None
  | S fuel' =>
      match s with
      | String c rest =>
          if Ascii.eqb c dquote then
            match read_string rest with
            | Some (key, String ":" after_colon) =>
                match read_value after_colon with
                | Some (v, String "," more) =>
                    match read_fields fuel' more with
                    | Some fields => Some ((key, v) :: fields)
                    | None => None
                    end
                | Some (v, String "}" EmptyString) => Some [(key, v)]
                | _ => None
                end
            | _ => None
            end
          else None
      | EmptyString => None
      end
  end.

Fixpoint lookup_field (key : string) (fields : list (string * value)) : option value :=
  match fields with
  | [] => None
  | (k, v) :: rest => if String.eqb k key then Some v else lookup_field key rest
  end.

Definition string_field (key : string) (fields : list (string * value)) : option string :=
  match lookup_field key fields with
  | Some (JString s) => Some s
  | _ => None
  end.

Definition number_field (key : string) (fields : list (string * value)) : option Z :=
  match lookup_field key fields with
  | Some (JNumber z) => Some z
  | _ => None
  end.

(** [None] where [JSON.parse] throws, and where the text is not a user
    record with string [id] and [email]. *)
Definition parse (text : string) : option AuthUser :=
  match text with
  | String "{" body =>
      match read_fields (String.length body) body with
      | Some fields =>
          match string_field "id" fields, string_field "email" fields with
          | Some i, Some e =>
              Some {| user_id := i;
                      user_email := e;
                      user_name := string_field "name" fields;
                      user_picture := string_field "picture" fields;
                      user_expiresAt := number_field "expiresAt" fields |}
          | _, _ => None
          end
      | None => None
      end
  | _ => None
  end.

End JSON.

(** ** Interleaved calls

    Two dispatched thunks share the world; the scheduler resumes one of them
    at a time.  A turn runs the chosen thunk up to its next effect, so every
    order in which the two calls can be resumed between their [await]s is a
    schedule. *)
Inductive Turn : Type := first_call | second_call.

Record Pool : Type := mkPool {
  first : Thunk Action;
  second : Thunk Action;
  world : World }.

Definition pool_step (t : Turn) (pl : Pool) : Pool :=
  match t with
  | first_call =>
      let '(p, w) := step (first pl) (world pl) in
      {| first := p; second := second pl; world := w |}
  | second_call =>
      let '(p, w) := step (second pl) (world pl) in
      {| first := first pl; second := p; world := w |}
  end.

Fixpoint interleave (schedule : list Turn) (pl : Pool) : Pool :=
  match schedule with
  | [] => pl
  | t :: rest => interleave rest (pool_step t pl)
  end.

(** A thunk that, as long as no storage call fails, ends with the action [a]
    whatever it reads. *)
Inductive settles_with (a : Action) : Thunk Action -> Prop :=
| settles_Ret : settles_with a (Ret a)
| settles_Storage c k h :
    (forall v, settles_with a (k v)) -> settles_with a (Storage c k h)
| settles_GetState k :
    (forall s, settles_with a (k s)) -> settles_with a (GetState k)
| settles_Dispatch b k :
    settles_with a k -> settles_with a (Dispatch b k)
| settles_DateNow k :
    (forall t, settles_with a (k t)) -> settles_with a (DateNow k).

(** A thunk whose results all satisfy [P] and whose uncaught exceptions all
    satisfy [Q]. *)
Inductive ends_in {A : Type} (P : A -> Prop) (Q : JsError -> Prop) : Thunk A -> Prop :=
| ends_Ret a : P a -> ends_in P Q (Ret a)
| ends_Throw e : Q e -> ends_in P Q (Throw e)
| ends_Storage c k h :
    (forall v, ends_in P Q (k v)) -> (forall e, ends_in P Q (h e)) ->
    ends_in P Q (Storage c k h)
| ends_GetState k :
    (forall s, ends_in P Q (k s)) -> ends_in P Q (GetState k)
| ends_Dispatch a k :
    ends_in P Q k -> ends_in P Q (Dispatch a k)
| ends_DateNow k :
    (forall t, ends_in P Q (k t)) -> ends_in P Q (DateNow k).

(** A thunk that dispatches no action. *)
Inductive dispatch_free {A : Type} : Thunk A -> Prop :=
| free_Ret a : dispatch_free (Ret a)
| free_Throw e : dispatch_free (Throw e)
| free_Storage c k h :
    (forall v, dispatch_free (k v)) -> (forall e, dispatch_free (h e)) ->
    dispatch_free (Storage c k h)
| free_GetState k :
    (forall s, dispatch_free (k s)) -> dispatch_free (GetState k)
| free_DateNow k :
    (forall t, dispatch_free (k t)) -> dispatch_free (DateNow k).

(** A thunk that makes no call that changes the store. *)
Definition is_read (c : StorageCall) : bool :=
  match c with
  | getItem_call _ => true
  | _ => false
  end.

Inductive write_free {A : Type} : Thunk A -> Prop :=
| nowrite_Ret a : write_free (Ret a)
| nowrite_Throw e : write_free (Throw e)
| nowrite_Storage c k h :
    is_read c = true ->
    (forall v, write_free (k v)) -> (forall e, write_free (h e)) ->
    write_free (Storage c k h)
| nowrite_GetState k :
    (forall s, write_free (k s)) -> write_free (GetState k)
| nowrite_Dispatch a k :
    write_free k -> write_free (Dispatch a k)
| nowrite_DateNow k :
    (forall t, write_free (k t)) -> write_free (DateNow k).

(** A store after the four deletes of [signOut] and of [checkAuth]'s handler. *)
Definition removals (st : gmap string string) : gmap string string :=
  delete PROVIDER_ID_KEY
    (delete USER_KEY (delete REFRESH_TOKEN_KEY (delete ACCESS_TOKEN_KEY st))).

(** The four keys are absent from a store. *)
Definition cleared (st : gmap string string) : Prop :=
  st !! ACCESS_TOKEN_KEY = None /\ st !! REFRESH_TOKEN_KEY = None /\
  st !! USER_KEY = None /\ st !! PROVIDER_ID_KEY = None.

(** UNAUTHENTICATED: no session is exposed. *)
Definition unauthenticated (s : AuthState) : Prop :=
  isAuthenticated s = false /\ session s = None /\ providerId s = None.

(** The events a run added to the record. *)
Definition is_write (e : Event) : bool :=
  match e with
  | Called _ (setItem_call _ _) _ => true
  | _ => false
  end.

(** The storage calls of [save_tokens_and_user], in order. *)
Definition session_writes (JSON_stringify : AuthUser -> string) (sess : AuthSession)
    : list StorageCall :=
  [setItem_call ACCESS_TOKEN_KEY (accessToken sess)] ++
  match truthy (refreshToken sess) with
  | Some rt => [setItem_call REFRESH_TOKEN_KEY rt]
  | None => []
  end ++
  [setItem_call USER_KEY (JSON_stringify (user sess))].

(** The store after the writes of a fulfilled [signIn] or [signUp]. *)
Definition persisted (JSON_stringify : AuthUser -> string) (sess : AuthSession)
    (pid : string) (st : gmap string string) : gmap string string :=
  <[PROVIDER_ID_KEY := pid]>
    (<[USER_KEY := JSON_stringify (user sess)]>
       (match truthy (refreshToken sess) with
        | Some rt => <[REFRESH_TOKEN_KEY := rt]> (<[ACCESS_TOKEN_KEY := accessToken sess]> st)
        | None => <[ACCESS_TOKEN_KEY := accessToken sess]> st
        end)).

(** AUTHENTICATED with a session of a provider, no error pending. *)
Definition authenticated_as (sess : AuthSession) (pid : string) : AuthState :=
  {| isAuthenticated := true;
     isLoading := false;
     session := Some sess;
     providerId := Some pid;
     error := None |}.

(** The expiry test of [checkAuth]: it reads [user.expiresAt]. *)
Definition user_expired (t : Z) (u : AuthUser) : bool :=
  truthy_number (user_expiresAt u) &&
  match user_expiresAt u with
  | Some e => t >? e
  | None => false
  end.

(** The session [checkAuth] rebuilds from what [signIn] stored for [sess], in
    a store that held [before] under [auth_refresh_token]. *)
Definition restored_session (sess : AuthSession) (before : option string)
    : AuthSession :=
  {| user := user sess;
     accessToken := accessToken sess;
     refreshToken :=
       match truthy (refreshToken sess) with
       | Some rt => Some rt
       | None => truthy before
       end;
     expiresAt := None |}.

(** The session the active provider grants [refreshSession], if any. *)
Definition refreshed_session (registry : AuthProviderRegistry)
    (s : AuthState) (stored_refreshToken : option string) : option AuthSession :=
  match truthy (providerId s), truthy stored_refreshToken with
  | Some pid, Some rt =>
      match getProvider registry pid with
      | Some {| provider_refreshSession := Some provider_refreshSession |} =>
          match provider_refreshSession rt with
          | resolves result => successful_session result
          | rejects _ => None
          end
      | _ => None
      end
  | _, _ => None
  end.

(** Why [refreshSession] cannot obtain a new session: no active provider
    id in the state, no refresh token in the store, a provider that is not
    registered or has no [refreshSession], or a provider that refuses. *)
Inductive refresh_unavailable (registry : AuthProviderRegistry) (w : World) : Prop :=
| no_active_provider :
    truthy (providerId (auth w)) = None -> refresh_unavailable registry w
| no_refresh_token :
    truthy (storage w !! REFRESH_TOKEN_KEY) = None -> refresh_unavailable registry w
| provider_not_registered pid :
    truthy (providerId (auth w)) = Some pid ->
    getProvider registry pid = None -> refresh_unavailable registry w
| no_refresh_capability pid p :
    truthy (providerId (auth w)) = Some pid ->
    getProvider registry pid = Some p ->
    provider_refreshSession p = None -> refresh_unavailable registry w
| refresh_refused pid p refresh rt :
    truthy (providerId (auth w)) = Some pid ->
    truthy (storage w !! REFRESH_TOKEN_KEY) = Some rt ->
    getProvider registry pid = Some p ->
    provider_refreshSession p = Some refresh ->
    (forall r, refresh rt = resolves r -> successful_session r = None) ->
    refresh_unavailable registry w.

(** ** auth/AuthContext.tsx and the sign-in screen

    What [AuthProvider] hands to its consumers.  [dispatch] of a thunk
    returns a promise that resolves with the action the thunk settled with;
    the functions of the context await it and return nothing. *)
Section AuthContext.

Variable authProviderRegistry : AuthProviderRegistry.
Variable JSON_stringify : AuthUser -> string.
Variable JSON_parse : string -> option AuthUser.

(** Check authentication status on app load. *)
Definition on_app_load : Thunk unit :=
  _ <- checkAuth authProviderRegistry JSON_stringify JSON_parse ;; Ret tt.


Definition signInWithProvider (providerId : string) (credentials : AuthCredentials)
    : Thunk unit :=
  _ <- signIn authProviderRegistry JSON_stringify providerId credentials ;; Ret tt.

Definition signUpWithProvider (providerId : string) (credentials : AuthCredentials)
    : Thunk unit :=
  _ <- signUp authProviderRegistry JSON_stringify providerId credentials ;; Ret tt.

Definition logout : Thunk unit :=
  _ <- signOut authProviderRegistry ;; Ret tt.

Definition clearAuthError : Thunk unit := dispatch clearError.

Definition availableProviders : list string :=
  map provider_id (getAllProviders authProviderRegistry).

(** [session?.user || null] *)
Definition context_user (state : AuthState) : option AuthUser :=
  option_map user (session state).

(** [handleCredentialsLogin] of [SignInScreen], for the email and password
    typed in. *)
Definition handleCredentialsLogin (email password : string) : Thunk unit :=
  clearAuthError ;;
  signInWithProvider "credentials"
    {| cred_email := Some email; cred_password := Some password;
       cred_token := None |}.

End AuthContext.

(** ** authService.js and its context (the second service of auth2.md)

    This service does not go through [secureStorage]: it calls
    [SecureStore] itself, under the keys ["accessToken"] and
    ["refreshToken"], and lets the errors of [api.post] and of [SecureStore]
    escape.  The backend is taken to answer with both tokens. *)
Module authService.

Record TokenData : Type := mkTokenData {
  data_accessToken : string;
  data_refreshToken : string }.

Inductive RequestBody : Type :=
| login_body (email password : string)
| oauth_body (idToken : string)
| renew_body (refreshToken : string).

(** An asynchronous function: from the process to a result or an exception
    and the process after it. *)
Definition Async (A : Type) : Type := World -> (JsError + A) * World.

Definition resolve {A : Type} (a : A) : Async A := fun w => (inr a, w).

Definition throw {A : Type} (e : JsError) : Async A := fun w => (inl e, w).

Definition andThen {A B : Type} (m : Async A) (f : A -> Async B) : Async B :=
  fun w =>
    match m w with
    | (inr a, w') => f a w'
    | (inl e, w') => (inl e, w')
    end.

Definition awaited {A : Type} (p : JsError + A) : Async A :=
  match p with
  | inr a => resolve a
  | inl e => throw e
  end.

Definition getItemAsync (key : string) : Async (option string) :=
  backend_call SecureStore (getItem_call key).

Definition setItemAsync (key value : string) : Async unit :=
  andThen (backend_call SecureStore (setItem_call key value)) (fun _ => resolve tt).

Definition deleteItemAsync (key : string) : Async unit :=
  andThen (backend_call SecureStore (removeItem_call key)) (fun _ => resolve tt).

Section Service.

(** [api.post] resolves with [response.data] or rejects; [authorize]
    resolves with an id token or rejects. *)
Variable api_post : string -> RequestBody -> JsError + TokenData.
Variable authorize : JsError + string.

Definition store_tokens (data : TokenData) : Async TokenData :=
  andThen (setItemAsync "accessToken" (data_accessToken data)) (fun _ =>
  andThen (setItemAsync "refreshToken" (data_refreshToken data)) (fun _ =>
  resolve data)).

Definition signInWithCredentials (email password : string) : Async TokenData :=
  andThen (awaited (api_post "/auth/login" (login_body email password))) store_tokens.

Definition signInWithGoogle : Async TokenData :=
  andThen (awaited authorize) (fun idToken =>
  andThen (awaited (api_post "/auth/oauth/google" (oauth_body idToken))) store_tokens).

Definition refreshToken : Async TokenData :=
  andThen (getItemAsync "refreshToken") (fun token =>
  match truthy token with
  | None => throw (Error "No refresh token available")
  | Some token =>
      andThen (awaited (api_post "/auth/refresh" (renew_body token))) store_tokens
  end).

Definition signOut : Async unit :=
  andThen (deleteItemAsync "accessToken") (fun _ => deleteItemAsync "refreshToken").

Definition getAccessToken : Async (option string) := getItemAsync "accessToken".

(** [AuthProvider]: the [accessToken] state beside the process.  A function
    of the context that throws has not reached its [setAccessToken]. *)
Record App : Type := mkApp {
  accessToken : option string;
  device : World }.

Definition and_set {A : Type} (m : Async A) (next : A -> option string) (app : App)
    : (JsError + unit) * App :=
  match m (device app) with
  | (inr a, w') => (inr tt, {| accessToken := next a; device := w' |})
  | (inl e, w') => (inl e, {| accessToken := accessToken app; device := w' |})
  end.

Definition on_mount : App -> (JsError + unit) * App :=
  and_set getAccessToken (fun token => token).

Definition loginWithCredentials (email password : string)
    : App -> (JsError + unit) * App :=
  and_set (signInWithCredentials email password)
          (fun data => Some (data_accessToken data)).

Definition loginWithGoogle : App -> (JsError + unit) * App :=
  and_set signInWithGoogle (fun data => Some (data_accessToken data)).

Definition logout : App -> (JsError + unit) * App :=
  and_set signOut (fun _ => None).

Definition renewToken : App -> (JsError + unit) * App :=
  and_set refreshToken (fun data => Some (data_accessToken data)).

End Service.

End authService.

(** ** Vocabulary for the properties of the rest of the code *)

(** The registry after [registerProvider] has been called, on the empty
    singleton, with each provider of a list in turn. *)
Definition registered (ps : list BaseAuthProvider) : AuthProviderRegistry :=
  fold_left (fun providers p => registerProvider p providers) ps [].

(** Every entry of a registry sits under its own id, is enabled and
    satisfies [S]; no id occurs twice. *)
Definition entries_ok (S : BaseAuthProvider -> Prop) (providers : AuthProviderRegistry)
    : Prop :=
  NoDup (map fst providers) /\
  Forall (fun entry => provider_id (snd entry) = fst entry /\
                       enabled (snd entry) = true /\ S (snd entry)) providers.

(** The stores of the other platform, and the fallback store while nothing
    fails, across one call of the service. *)
Definition off_platform (w w' : World) : Prop :=
  Platform_OS w' = Platform_OS w /\
  (Platform_OS w = "web" ->
   SecureStore_items (stores w') = SecureStore_items (stores w) /\
   AsyncStorage_items (stores w') = AsyncStorage_items (stores w)) /\
  (Platform_OS w <> "web" ->
   localStorage_items (stores w') = localStorage_items (stores w)) /\
  (Platform_OS w <> "web" -> faults w = [] ->
   faults w' = [] /\
   AsyncStorage_items (stores w') = AsyncStorage_items (stores w)).



(** The session a provider's answer grants, if any. *)
Definition granted_session (answer : Promise AuthResponse) : option AuthSession :=
  match answer with
  | resolves r => successful_session r
  | rejects _ => None
  end.

(** A state whose three session fields agree: authenticated with a session
    and a provider id, or not authenticated with neither. *)
Definition coherent (s : AuthState) : bool :=
  match isAuthenticated s, session s, providerId s with
  | true, Some _, Some _ => true
  | false, None, None => true
  | _, _, _ => false
  end.

(** The actions the slice dispatches: [clearError] and those of the five
    thunks, where [signOut.fulfilled] carries [true] and every other
    fulfilled action a session and a provider id. *)
Definition thunk_action (a : Action) : bool :=
  match a with
  | clearError => true
  | fulfilled T_signOut TruePayload => true
  | fulfilled T_signOut (SessionPayload _ _) => false
  | fulfilled _ TruePayload => false
  | _ => true
  end.

(** The actions of [signOut], [refreshSession] and [checkAuth]. *)
Definition session_upkeep (a : Action) : bool :=
  match a with
  | pending T_signOut | pending T_refreshSession | pending T_checkAuth => true
  | fulfilled T_signOut _ | fulfilled T_refreshSession _ | fulfilled T_checkAuth _ => true
  | rejected T_signOut _ | rejected T_refreshSession _ | rejected T_checkAuth _ => true
  | _ => false
  end.

(** A thunk that dispatches only actions in [D], returns only results in [P]
    and lets only exceptions in [Q] escape. *)
Inductive dispatches {A : Type} (D : Action -> Prop) (P : A -> Prop)
    (Q : JsError -> Prop) : Thunk A -> Prop :=
| dispatches_Ret a : P a -> dispatches D P Q (Ret a)
| dispatches_Throw e : Q e -> dispatches D P Q (Throw e)
| dispatches_Storage c k h :
    (forall v, dispatches D P Q (k v)) -> (forall e, dispatches D P Q (h e)) ->
    dispatches D P Q (Storage c k h)
| dispatches_GetState k :
    (forall s, dispatches D P Q (k s)) -> dispatches D P Q (GetState k)
| dispatches_Dispatch a k :
    D a -> dispatches D P Q k -> dispatches D P Q (Dispatch a k)
| dispatches_DateNow k :
    (forall t, dispatches D P Q (k t)) -> dispatches D P Q (DateNow k).

(** The results of a payload creator that returns a session. *)
Definition session_results (r : PayloadResult) : Prop :=
  match r with
  | returns (SessionPayload _ _) => True
  | returns TruePayload => False
  | rejectWithValue _ => True
  end.

(** The action a thunk made by [createAsyncThunk] resolves with: one of its
    own, fulfilled with a result of the payload creator or rejected. *)
Definition settled (t : ThunkName) (R : PayloadResult -> Prop) (a : Action) : Prop :=
  match a with
  | fulfilled t' p => t' = t /\ R (returns p)
  | rejected t' _ => t' = t
  | _ => False
  end.

(** The store after the writes of a fulfilled [refreshSession]. *)
Definition session_saved (JSON_stringify : AuthUser -> string) (sess : AuthSession)
    (st : gmap string string) : gmap string string :=
  <[USER_KEY := JSON_stringify (user sess)]>
    (match truthy (refreshToken sess) with
     | Some rt => <[REFRESH_TOKEN_KEY := rt]> (<[ACCESS_TOKEN_KEY := accessToken sess]> st)
     | None => <[ACCESS_TOKEN_KEY := accessToken sess]> st
     end).

(** The session [signIn] obtains for a provider id and credentials, if any,
    and the message it is rejected with otherwise. *)
Definition signIn_grant (registry : AuthProviderRegistry) (pid : string)
    (creds : AuthCredentials) : option AuthSession :=
  match getProvider registry pid with
  | Some p => granted_session (provider_signIn p creds)
  | None => None
  end.

Definition signIn_refusal (registry : AuthProviderRegistry) (pid : string)
    (creds : AuthCredentials) : string :=
  match getProvider registry pid with
  | None => "Provider " +:+ pid +:+ " not found"
  | Some p =>
      match provider_signIn p creds with
      | resolves r => or_default (response_error r) "Sign in failed"
      | rejects e => or_default (message e) "Authentication failed"
      end
  end.

(** What the application does to the slice: the calls of the context,
    the check on app load, and a dispatched [refreshSession]. *)
Inductive Operation : Type :=
| do_signIn (providerId : string) (credentials : AuthCredentials)
| do_signUp (providerId : string) (credentials : AuthCredentials)
| do_signOut
| do_refreshSession
| do_checkAuth
| do_clearError.

Definition perform (registry : AuthProviderRegistry)
    (JSON_stringify : AuthUser -> string) (JSON_parse : string -> option AuthUser)
    (o : Operation) : Thunk unit :=
  match o with
  | do_signIn pid creds => signInWithProvider registry JSON_stringify pid creds
  | do_signUp pid creds => signUpWithProvider registry JSON_stringify pid creds
  | do_signOut => logout registry
  | do_refreshSession => _ <- refreshSession registry JSON_stringify ;; Ret tt
  | do_checkAuth => on_app_load registry JSON_stringify JSON_parse
  | do_clearError => clearAuthError
  end.

(** The operations of a list, one after the other. *)
Fixpoint perform_all (registry : AuthProviderRegistry)
    (JSON_stringify : AuthUser -> string) (JSON_parse : string -> option AuthUser)
    (ops : list Operation) (w : World) : World :=
  match ops with
  | [] => w
  | o :: rest =>
      perform_all registry JSON_stringify JSON_parse rest
        (snd (run (perform registry JSON_stringify JSON_parse o) w))
  end.

(** The turns that let the first call write its access token, then the
    second call run to its end, then the first call finish. *)
Definition overtaking (sA sB : AuthSession) : list Turn :=
  [first_call; first_call] ++
  repeat second_call (if truthy (refreshToken sB) is Some _ then 7 else 6) ++
  repeat first_call (if truthy (refreshToken sA) is Some _ then 5 else 4).

(** ** A deployment used in the closed examples

    The backend answers a sign-in of ["a@b.com"] with the session
    [{user: {id: "1", email: "a@b.com"}, accessToken: "T1", refreshToken: "R1",
    expiresAt: now - 1000}], a sign-in of ["c@d.com"] with a session that
    expires in an hour, a sign-in of ["e@f.com"] with an expired session whose
    user record also carries the expiry, a sign-in of ["nobody@b.com"] with a
    session whose access token and user id are empty strings, and a refresh
    with a session whose access token is ["T2"].  The provider ["google"] has no server
    endpoint configured. *)
Module Scenario.

Definition clock : Z := 1700000000000.

Definition alice : AuthUser :=
  {| user_id := "1"; user_email := "a@b.com"; user_name := None;
     user_picture := None; user_expiresAt := None |}.

Definition carol : AuthUser :=
  {| user_id := "2"; user_email := "c@d.com"; user_name := Some "Carol";
     user_picture := None; user_expiresAt := None |}.

Definition nobody : AuthUser :=
  {| user_id := ""; user_email := "nobody@b.com"; user_name := None;
     user_picture := None; user_expiresAt := None |}.

Definition session_T1 : AuthSession :=
  {| user := alice; accessToken := "T1"; refreshToken := Some "R1";
     expiresAt := Some (clock - 1000) |}.

Definition session_T2 : AuthSession :=
  {| user := alice; accessToken := "T2"; refreshToken := Some "R2";
     expiresAt := Some (clock + 3600000) |}.

Definition session_T3 : AuthSession :=
  {| user := carol; accessToken := "T3"; refreshToken := Some "R3";
     expiresAt := Some (clock + 3600000) |}.

(** A user record that carries its own [expiresAt], already in the past. *)
Definition dave : AuthUser :=
  {| user_id := "4"; user_email := "e@f.com"; user_name := None;
     user_picture := None; user_expiresAt := Some (clock - 1000) |}.

Definition session_T4 : AuthSession :=
  {| user := dave; accessToken := "T4"; refreshToken := Some "R4";
     expiresAt := Some (clock - 1000) |}.

Definition session_blank : AuthSession :=
  {| user := nobody; accessToken := ""; refreshToken := None;
     expiresAt := None |}.

Definition api_post (url : string) (body : ApiBody) : ApiReply :=
  match body with
  | credentials_body c =>
      match cred_email c with
      | Some "a@b.com" => api_data session_T1
      | Some "c@d.com" => api_data session_T3
      | Some "e@f.com" => api_data session_T4
      | Some "nobody@b.com" => api_data session_blank
      | _ => api_failure (Some "Invalid email or password")
      end
  | refresh_body _ _ => api_data session_T2
  | idToken_body _ _ => api_failure None
  end.

Definition credentials : BaseAuthProvider :=
  CredentialsProvider api_post
    {| credentials_base :=
         {| config_id := "credentials"; config_name := "Credentials";
            config_enabled := true |};
       signInUrl := "/auth/sign-in";
       signUpUrl := "/auth/sign-up";
       validateCredentials := None |}.

Definition google : BaseAuthProvider :=
  GoogleProvider api_post
    {| google_base :=
         {| config_id := "google"; config_name := "Google";
            config_enabled := true |};
       clientId := "client-id";
       serverAuthUrl := None |}.

Definition registry : AuthProviderRegistry :=
  registerProvider google (registerProvider credentials []).

Definition password_of (email : string) : AuthCredentials :=
  {| cred_email := Some email; cred_password := Some "secret";
     cred_token := None |}.

Definition id_token : AuthCredentials :=
  {| cred_email := None; cred_password := None; cred_token := Some "G1" |}.

(** Process start: nothing stored, nobody signed in. *)
Definition fresh : World :=
  {| auth := initialState; Platform_OS := "ios";
     stores := {| localStorage_items := ∅; SecureStore_items := ∅;
                  AsyncStorage_items := ∅ |};
     faults := []; now := clock; log := [] |}.

(** [signIn("credentials", ...)] for ["a@b.com"] has been dispatched and is
    waiting for the provider. *)
Definition in_flight : World :=
  snd (step (signIn registry JSON.stringify "credentials" (password_of "a@b.com"))
            fresh).

(** After that [signIn] has completed. *)
Definition signed_in : World :=
  snd (run (signIn registry JSON.stringify "credentials" (password_of "a@b.com"))
           fresh).

(** The same, when the next call on [SecureStore] and the call on
    [AsyncStorage] that falls back on it will both fail. *)
Definition signed_in_failing_store : World :=
  {| auth := auth signed_in; Platform_OS := "ios"; stores := stores signed_in;
     faults := [Some "Keychain is locked"; Some "Disk is full"];
     now := clock; log := [] |}.

(** The same, when only the next call on [SecureStore] will fail. *)
Definition signed_in_locked_keychain : World :=
  {| auth := auth signed_in; Platform_OS := "ios"; stores := stores signed_in;
     faults := [Some "Keychain is locked"];
     now := clock; log := [] |}.

(** After [signIn("google", { token: "G1" })] has completed. *)
Definition signed_in_with_google : World :=
  snd (run (signIn registry JSON.stringify "google" id_token) fresh).

(** The application restarted after the sign-in of ["a@b.com"]: the store
    persists, the state is the initial one. *)
Definition restarted : World :=
  {| auth := initialState; Platform_OS := "ios"; stores := stores signed_in;
     faults := []; now := clock; log := [] |}.

(** The same for ["e@f.com"], in the running process and after a restart. *)
Definition dave_signed_in : World :=
  snd (run (signIn registry JSON.stringify "credentials" (password_of "e@f.com"))
           fresh).

Definition dave_restarted : World :=
  {| auth := initialState; Platform_OS := "ios"; stores := stores dave_signed_in;
     faults := []; now := clock; log := [] |}.

(** The store of ["e@f.com"] after a restart, without its refresh token. *)
Definition dave_without_refresh_token : World :=
  {| auth := initialState; Platform_OS := "ios";
     stores := with_items SecureStore
                 (delete REFRESH_TOKEN_KEY (SecureStore_items (stores dave_signed_in)))
                 (stores dave_signed_in);
     faults := []; now := clock; log := [] |}.

(** The same process on the web. *)
Definition fresh_on_web : World :=
  {| auth := initialState; Platform_OS := "web"; stores := stores fresh;
     faults := []; now := clock; log := [] |}.

(** A device on which the next call on [SecureStore] will fail. *)
Definition locked_keychain : World :=
  {| auth := initialState; Platform_OS := "ios"; stores := stores fresh;
     faults := [Some "Keychain is locked"]; now := clock; log := [] |}.

(** A credentials provider that validates: a password is required. *)
Definition has_password (c : AuthCredentials) : bool :=
  match truthy (cred_password c) with
  | Some _ => true
  | None => false
  end.

Definition strict_config : CredentialsProviderConfig :=
  {| credentials_base :=
       {| config_id := "strict"; config_name := "Strict"; config_enabled := true |};
     signInUrl := "/auth/sign-in";
     signUpUrl := "/auth/sign-up";
     validateCredentials := Some has_password |}.

Definition strict : BaseAuthProvider := CredentialsProvider api_post strict_config.

Definition email_only : AuthCredentials :=
  {| cred_email := Some "a@b.com"; cred_password := None; cred_token := None |}.

(** A provider that has been switched off. *)
Definition retired : BaseAuthProvider :=
  CredentialsProvider api_post
    {| credentials_base :=
         {| config_id := "retired"; config_name := "Retired";
            config_enabled := false |};
       signInUrl := "/auth/sign-in";
       signUpUrl := "/auth/sign-up";
       validateCredentials := None |}.

(** The web, where the second call on [localStorage] will fail. *)
Definition web_quota_exceeded : World :=
  {| auth := initialState; Platform_OS := "web"; stores := stores fresh;
     faults := [None; Some "QuotaExceededError"]; now := clock; log := [] |}.

(** A device on which the second call on [SecureStore] will fail. *)
Definition flaky_keychain : World :=
  {| auth := initialState; Platform_OS := "ios"; stores := stores fresh;
     faults := [None; Some "Keychain is locked"]; now := clock; log := [] |}.

(** The backend of [authService]: it knows ["a@b.com"]. *)
Definition token_api (url : string) (body : authService.RequestBody)
    : JsError + authService.TokenData :=
  match body with
  | authService.login_body "a@b.com" _ =>
      inr {| authService.data_accessToken := "T1";
             authService.data_refreshToken := "R1" |}
  | authService.renew_body _ =>
      inr {| authService.data_accessToken := "T2";
             authService.data_refreshToken := "R2" |}
  | _ => inl (Error "Request failed with status code 401")
  end.

End Scenario.

(** * Properties *)

(** ** The runtime *)

Lemma run_bind {A B : Type} (m : Thunk A) (f : A -> Thunk B) (w : World) :
  run (x <- m ;; f x) w =
  match run m w with
  | (inr a, w') => run (f a) w'
  | (inl e, w') => (inl e, w')
  end.
Proof.
  revert w; induction m as [a|e|c k IHk h IHh|k IHk|a k IHk|k IHk]; intros w; cbn;
    try reflexivity; auto.
  destruct (secureStorage c w) as [[e|v] w']; auto.
Qed.

Lemma run_try_catch {A : Type} (m : Thunk A) (handler : JsError -> Thunk A) (w : World) :
  run (try m catch e => handler e) w =
  match run m w with
  | (inr a, w') => (inr a, w')
  | (inl e, w') => run (handler e) w'
  end.
Proof.
  revert w; induction m as [a|e|c k IHk h IHh|k IHk|a k IHk|k IHk]; intros w; cbn;
    try reflexivity; auto.
  destruct (secureStorage c w) as [[e|v] w']; auto.
Qed.

Lemma run_step {A : Type} (p : Thunk A) (w : World) :
  run p w = run (fst (step p w)) (snd (step p w)).
Proof.
  destruct p; cbn; try reflexivity.
  destruct (secureStorage c w) as [[e|v] w']; reflexivity.
Qed.

(** The action a thunk settles with, from what its payload creator did. *)
Definition final_action (t : ThunkName) (r : JsError + PayloadResult) : Action :=
  match r with
  | inr (returns p) => fulfilled t p
  | inr (rejectWithValue v) => rejected t (Some v)
  | inl _ => rejected t None
  end.

Lemma run_createAsyncThunk (t : ThunkName) (pc : Thunk PayloadResult) (w : World) :
  run (createAsyncThunk t pc) w =
  let '(r, w') := run pc (dispatch_action (pending t) w) in
  (inr (final_action t r), dispatch_action (final_action t r) w').
Proof.
  unfold createAsyncThunk, dispatch. cbn.
  rewrite run_bind, run_try_catch, run_bind.
  destruct (run pc (dispatch_action (pending t) w)) as [[e|[p|v]] w']; reflexivity.
Qed.

(** A thunk always settles: [run] never ends in an uncaught exception. *)
Lemma createAsyncThunk_settles (t : ThunkName) (pc : Thunk PayloadResult) (w : World) :
  exists a, fst (run (createAsyncThunk t pc) w) = inr a.
Proof.
  rewrite run_createAsyncThunk.
  destruct (run pc (dispatch_action (pending t) w)) as [r w']; cbn; eauto.
Qed.

(** What the runtime leaves alone. *)

Lemma backend_call_auth (b : Backend) (c : StorageCall) (w : World) :
  auth (snd (backend_call b c w)) = auth w.
Proof.
  unfold backend_call. destruct (faults w) as [|[m|] fs]; cbn;
    destruct (apply_call c (items b (stores w))); reflexivity.
Qed.

Lemma backend_call_faults_nil (b : Backend) (c : StorageCall) (w : World) :
  faults w = [] -> faults (snd (backend_call b c w)) = [].
Proof.
  unfold backend_call. intros ->.
  destruct (apply_call c (items b (stores w))); reflexivity.
Qed.

Lemma with_items_same (b : Backend) (bs : Backends) :
  with_items b (items b bs) bs = bs.
Proof. destruct b, bs; reflexivity. Qed.

Lemma items_with_items (b : Backend) (m : gmap string string) (bs : Backends) :
  items b (with_items b m bs) = m.
Proof. destruct b; reflexivity. Qed.

Lemma storage_with_items (a : AuthState) (os : string) (m : gmap string string)
    (bs : Backends) (fs : list (option string)) (t : Z) (lg : list Event) :
  storage {| auth := a; Platform_OS := os;
             stores := with_items (primary os) m bs;
             faults := fs; now := t; log := lg |} = m.
Proof. unfold storage. cbn. apply items_with_items. Qed.

Lemma backend_call_read (b : Backend) (c : StorageCall) (w : World) :
  is_read c = true -> stores (snd (backend_call b c w)) = stores w.
Proof.
  unfold backend_call. destruct c; try discriminate.
  destruct (faults w) as [|[m|] fs]; cbn; auto using with_items_same.
Qed.

Lemma backend_call_log (b : Backend) (c : StorageCall) (w : World) :
  exists l, log (snd (backend_call b c w)) = (log w ++ l)%list.
Proof.
  unfold backend_call.
  destruct (faults w) as [|[m|] fs]; cbn;
    destruct (apply_call c (items b (stores w))) as [v st]; cbn; eauto.
Qed.

(** The service, whichever stores it goes through. *)
Lemma secureStorage_cases (c : StorageCall) (w : World) :
  secureStorage c w = backend_call localStorage c w \/
  secureStorage c w = backend_call SecureStore c w \/
  secureStorage c w = backend_call AsyncStorage c (snd (backend_call SecureStore c w)).
Proof.
  unfold secureStorage, webStorage, nativeStorage.
  destruct (String.eqb (Platform_OS w) "web"); [auto|].
  destruct (backend_call SecureStore c w) as [[e|v] w']; auto.
Qed.

Lemma secureStorage_auth (c : StorageCall) (w : World) :
  auth (snd (secureStorage c w)) = auth w.
Proof.
  destruct (secureStorage_cases c w) as [-> | [-> | ->]];
    rewrite ?backend_call_auth; reflexivity.
Qed.

Lemma secureStorage_faults_nil (c : StorageCall) (w : World) :
  faults w = [] -> faults (snd (secureStorage c w)) = [].
Proof.
  intros Hf.
  destruct (secureStorage_cases c w) as [-> | [-> | ->]];
    auto using backend_call_faults_nil.
Qed.

Lemma secureStorage_read (c : StorageCall) (w : World) :
  is_read c = true -> stores (snd (secureStorage c w)) = stores w.
Proof.
  intros Hc.
  destruct (secureStorage_cases c w) as [-> | [-> | ->]];
    rewrite ?backend_call_read; auto.
Qed.

Lemma secureStorage_log (c : StorageCall) (w : World) :
  exists l, log (snd (secureStorage c w)) = (log w ++ l)%list.
Proof.
  destruct (secureStorage_cases c w) as [-> | [-> | ->]];
    try apply backend_call_log.
  destruct (backend_call_log AsyncStorage c (snd (backend_call SecureStore c w)))
    as [l2 ->].
  destruct (backend_call_log SecureStore c w) as [l1 ->].
  rewrite <- app_assoc. eauto.
Qed.

(** On stores that do not fail, the service is its primary store. *)
Lemma secureStorage_ok (c : StorageCall) (w : World) :
  faults w = [] ->
  secureStorage c w =
  (inr (fst (apply_call c (storage w))),
   {| auth := auth w; Platform_OS := Platform_OS w;
      stores := with_items (primary (Platform_OS w))
                           (snd (apply_call c (storage w))) (stores w);
      faults := []; now := now w;
      log := log w ++ [Called (primary (Platform_OS w)) c true] |}).
Proof.
  intros Hf.
  unfold secureStorage, webStorage, nativeStorage, backend_call, storage, primary.
  rewrite Hf.
  destruct (String.eqb (Platform_OS w) "web");
    match goal with |- context [apply_call c ?m] => destruct (apply_call c m) end;
    reflexivity.
Qed.

Lemma step_faults_nil {A : Type} (p : Thunk A) (w : World) :
  faults w = [] -> faults (snd (step p w)) = [].
Proof.
  intros Hf. destruct p; cbn; auto.
  pose proof (secureStorage_faults_nil c w Hf) as Hc.
  destruct (secureStorage c w) as [[e|v] w']; exact Hc.
Qed.

Lemma dispatch_free_bind {A B : Type} (m : Thunk A) (f : A -> Thunk B) :
  dispatch_free m -> (forall a, dispatch_free (f a)) -> dispatch_free (x <- m ;; f x).
Proof. induction 1; intros Hf; cbn; try constructor; auto. Qed.

Lemma dispatch_free_try_catch {A : Type} (m : Thunk A) (handler : JsError -> Thunk A) :
  dispatch_free m -> (forall e, dispatch_free (handler e)) ->
  dispatch_free (try m catch e => handler e).
Proof. induction 1; intros Hf; cbn; try constructor; auto. Qed.

Lemma dispatch_free_await {A : Type} (p : Promise A) : dispatch_free (await p).
Proof. destruct p; constructor. Qed.

Lemma dispatch_free_auth {A : Type} (p : Thunk A) (w : World) :
  dispatch_free p -> auth (snd (run p w)) = auth w.
Proof.
  intros H; revert w; induction H as [a|e|c k h Hk IHk Hh IHh|k Hk IHk|k Hk IHk];
    intros w; cbn; auto.
  pose proof (secureStorage_auth c w) as Hc.
  destruct (secureStorage c w) as [[e|v] w']; cbn in Hc; rewrite <- Hc; auto.
Qed.

Lemma write_free_stores {A : Type} (p : Thunk A) (w : World) :
  write_free p -> stores (snd (run p w)) = stores w.
Proof.
  intros H; revert w;
    induction H as [a|e|c k h Hc Hk IHk Hh IHh|k Hk IHk|a k Hk IHk|k Hk IHk];
    intros w; cbn; auto.
  - pose proof (secureStorage_read c w Hc) as Hs.
    destruct (secureStorage c w) as [[e|v] w']; cbn in Hs; rewrite <- Hs; auto.
  - rewrite IHk. reflexivity.
Qed.

Create HintDb thunks.
#[global] Hint Constructors dispatch_free write_free settles_with : thunks.
#[global] Hint Resolve dispatch_free_bind dispatch_free_try_catch dispatch_free_await : thunks.

(** Case analysis on whatever the thunk under study branches on. *)
Ltac thunk_cases :=
  repeat match goal with
         | |- context [match ?x with _ => _ end] => destruct x
         end.

(** The store and its four keys. *)

Lemma cleared_after_removals (st : gmap string string) :
  cleared (removals st).
Proof.
  unfold removals.
  assert (ACCESS_TOKEN_KEY <> REFRESH_TOKEN_KEY) by discriminate.
  assert (ACCESS_TOKEN_KEY <> USER_KEY) by discriminate.
  assert (ACCESS_TOKEN_KEY <> PROVIDER_ID_KEY) by discriminate.
  assert (REFRESH_TOKEN_KEY <> USER_KEY) by discriminate.
  assert (REFRESH_TOKEN_KEY <> PROVIDER_ID_KEY) by discriminate.
  assert (USER_KEY <> PROVIDER_ID_KEY) by discriminate.
  unfold cleared. repeat split; simplify_map_eq; reflexivity.
Qed.

Lemma removals_of_cleared (st : gmap string string) :
  cleared st -> removals st = st.
Proof.
  unfold removals. intros (Ha & Hr & Hu & Hp).
  rewrite (delete_id st ACCESS_TOKEN_KEY Ha), (delete_id st _ Hr),
    (delete_id st _ Hu), (delete_id st _ Hp). reflexivity.
Qed.

#[global] Arguments or_default : simpl never.

(** Case analysis on the platform and on the outcome of the calls on the
    stores still to come. *)
Ltac storage_cases :=
  repeat (unfold secureStorage, webStorage, nativeStorage, backend_call; cbn;
          match goal with
          | H : String.eqb ?os "web" = _ |- context [String.eqb ?os "web"] =>
              rewrite H
          | |- context [match ?fs with _ => _ end] =>
              is_var fs; destruct fs as [|[?|] ?]
          | |- context [String.eqb ?os "web"] =>
              is_var os; destruct (String.eqb os "web") eqn:?
          end);
  cbn.

(** The four keys are pairwise distinct. *)
Ltac distinct_keys :=
  assert (ACCESS_TOKEN_KEY <> REFRESH_TOKEN_KEY) by discriminate;
  assert (ACCESS_TOKEN_KEY <> USER_KEY) by discriminate;
  assert (ACCESS_TOKEN_KEY <> PROVIDER_ID_KEY) by discriminate;
  assert (REFRESH_TOKEN_KEY <> USER_KEY) by discriminate;
  assert (REFRESH_TOKEN_KEY <> PROVIDER_ID_KEY) by discriminate;
  assert (USER_KEY <> PROVIDER_ID_KEY) by discriminate.

(** ** Truthiness *)

Lemma truthy_Some (x : string) : x <> "" -> truthy (Some x) = Some x.
Proof.
  intros Hx. cbn. destruct (String.eqb_spec x ""); [contradiction|reflexivity].
Qed.

Lemma truthy_nonempty (x : option string) (y : string) :
  truthy x = Some y -> x = Some y /\ y <> "".
Proof.
  destruct x as [s|]; cbn; [|discriminate].
  destruct (String.eqb_spec s ""); [discriminate|].
  intros [= <-]. auto.
Qed.

Lemma or_default_nonempty (x : option string) (d : string) :
  d <> "" -> or_default x d <> "".
Proof.
  intros Hd. unfold or_default. destruct (truthy x) as [y|] eqn:Hx; [|exact Hd].
  apply truthy_nonempty in Hx. tauto.
Qed.

(** ** What a thunk can end in *)

Lemma ends_in_any {A : Type} (p : Thunk A) :
  ends_in (fun _ => True) (fun _ => True) p.
Proof. induction p; constructor; auto. Qed.

Lemma ends_in_bind {A B : Type} (P : B -> Prop) (Q : JsError -> Prop)
    (m : Thunk A) (f : A -> Thunk B) :
  ends_in (fun _ => True) Q m -> (forall a, ends_in P Q (f a)) ->
  ends_in P Q (x <- m ;; f x).
Proof. induction 1; intros Hf; cbn; try constructor; auto. Qed.

Lemma ends_in_try_catch {A : Type} (P : A -> Prop) (Q : JsError -> Prop)
    (m : Thunk A) (handler : JsError -> Thunk A) :
  ends_in P (fun _ => True) m -> (forall e, ends_in P Q (handler e)) ->
  ends_in P Q (try m catch e => handler e).
Proof. induction 1; intros Hh; cbn; try constructor; auto. Qed.

Lemma ends_in_run {A : Type} (P : A -> Prop) (Q : JsError -> Prop)
    (p : Thunk A) (w : World) :
  ends_in P Q p ->
  match fst (run p w) with
  | inr a => P a
  | inl e => Q e
  end.
Proof.
  intros H; revert w;
    induction H as [a Ha|e He|c k h Hk IHk Hh IHh|k Hk IHk|b k Hk IHk|k Hk IHk];
    intros w; cbn; auto.
  - destruct (secureStorage c w) as [[e|v] w']; [apply IHh|apply IHk].
  - apply IHk.
  - apply IHk.
  - apply IHk.
Qed.

#[global] Hint Constructors ends_in : thunks.
#[global] Hint Resolve ends_in_any : thunks.

(** Goals [ends_in P Q p] and [dispatch_free p], along the structure of [p]. *)
Ltac thunk_structure :=
  repeat first
    [ apply ends_in_try_catch
    | apply ends_in_bind; [solve [apply ends_in_any]|]
    | apply dispatch_free_try_catch
    | apply dispatch_free_bind
    | apply dispatch_free_await
    | match goal with
      | |- ends_in _ _ (match ?x with _ => _ end) => destruct x
      | |- dispatch_free (match ?x with _ => _ end) => destruct x
      | |- ends_in _ _ (await ?x) => destruct x; cbn
      end
    | progress intros
    | constructor ].

(** The record only grows. *)
Lemma run_log_extends {A : Type} (p : Thunk A) (w : World) :
  exists l, log (snd (run p w)) = (log w ++ l)%list.
Proof.
  revert w; induction p as [a|e|c k IHk h IHh|k IHk|a k IHk|k IHk]; intros w; cbn;
    try (exists []; rewrite app_nil_r; reflexivity); auto.
  - destruct (secureStorage_log c w) as [lc Hc].
    destruct (secureStorage c w) as [[e|v] w']; cbn in Hc;
      [destruct (IHh e w') as [l Hl]|destruct (IHk v w') as [l Hl]];
      rewrite Hl, Hc, <- app_assoc; eauto.
  - destruct (IHk (dispatch_action a w)) as [l Hl]. rewrite Hl. cbn.
    rewrite <- app_assoc. eauto.
Qed.

(** ** Interleavings *)

Lemma settles_with_run (a : Action) (p : Thunk Action) (w : World) :
  settles_with a p -> faults w = [] -> fst (run p w) = inr a.
Proof.
  intros H; revert w; induction H as [|c k h Hk IHk|k Hk IHk|b k Hk IHk|k Hk IHk];
    intros w Hf; cbn; auto.
  rewrite (secureStorage_ok c w Hf). apply IHk. reflexivity.
Qed.

Lemma settles_with_step (a : Action) (p : Thunk Action) (w : World) :
  settles_with a p -> faults w = [] -> settles_with a (fst (step p w)).
Proof.
  intros H Hf. destruct H; cbn; auto with thunks.
  rewrite (secureStorage_ok c w Hf). cbn. auto.
Qed.

Lemma interleave_settles (a : Action) (schedule : list Turn) (pl : Pool) :
  settles_with a (first pl) -> faults (world pl) = [] ->
  settles_with a (first (interleave schedule pl)) /\
  faults (world (interleave schedule pl)) = [].
Proof.
  revert pl; induction schedule as [|t rest IH]; intros pl Ha Hf; cbn; auto.
  apply IH; destruct t; unfold pool_step.
  - pose proof (settles_with_step a _ _ Ha Hf).
    destruct (step (first pl) (world pl)); assumption.
  - destruct (step (second pl) (world pl)); assumption.
  - pose proof (step_faults_nil (first pl) _ Hf).
    destruct (step (first pl) (world pl)); assumption.
  - pose proof (step_faults_nil (second pl) _ Hf).
    destruct (step (second pl) (world pl)); assumption.
Qed.

(** ** The slice *)

Section Slice.

Variable authProviderRegistry : AuthProviderRegistry.
Variable JSON_stringify : AuthUser -> string.
Variable JSON_parse : string -> option AuthUser.

Local Abbreviation SignIn := (signIn authProviderRegistry JSON_stringify).
Local Abbreviation SignUp := (signUp authProviderRegistry JSON_stringify).
Local Abbreviation SignOut := (signOut authProviderRegistry).
Local Abbreviation RefreshSession :=
  (refreshSession authProviderRegistry JSON_stringify).
Local Abbreviation CheckAuth :=
  (checkAuth authProviderRegistry JSON_stringify JSON_parse).

(** ** signIn and signUp in flight *)

Lemma signIn_settles_with (pid : string) (creds : AuthCredentials) :
  exists a, settles_with a (SignIn pid creds).
Proof.
  unfold signIn, createAsyncThunk, save_tokens_and_user. cbn.
  destruct (getProvider authProviderRegistry pid) as [p|]; cbn.
  - destruct (provider_signIn p creds) as [r|e]; cbn.
    + destruct (successful_session r) as [s|]; cbn.
      * destruct (truthy (refreshToken s)); cbn; eexists; repeat (constructor; intros).
      * eexists; repeat (constructor; intros).
    + eexists; repeat (constructor; intros).
  - eexists; repeat (constructor; intros).
Qed.

Lemma signUp_settles_with (pid : string) (creds : AuthCredentials) :
  exists a, settles_with a (SignUp pid creds).
Proof.
  unfold signUp, createAsyncThunk, save_tokens_and_user. cbn.
  destruct (getProvider authProviderRegistry pid) as [[? ? ? ? [f|] ? ?]|]; cbn.
  - destruct (f creds) as [r|e]; cbn.
    + destruct (successful_session r) as [s|]; cbn.
      * destruct (truthy (refreshToken s)); cbn; eexists; repeat (constructor; intros).
      * eexists; repeat (constructor; intros).
    + eexists; repeat (constructor; intros).
  - eexists; repeat (constructor; intros).
  - eexists; repeat (constructor; intros).
Qed.

(** C1 (as the code has it).  The slice has no single-flight gate.  A
    [signIn] dispatched while a [signIn] or [signUp] is in flight
    ([isLoading]) is admitted: its first effect is to dispatch
    [signIn.pending], and, with stores that do not fail, it settles with the
    action it would settle with from any other state.  With stores that do not
    fail, the action the call already in flight settles with is the same under
    every interleaving with the second call. *)
Theorem signIn_has_no_single_flight_gate
    (up : bool) (pid1 pid2 : string) (creds1 creds2 : AuthCredentials)
    (w idle : World) (schedule : list Turn) :
  isLoading (auth w) = true ->
  faults w = [] -> faults idle = [] ->
  let in_flight := if up then SignUp pid1 creds1 else SignIn pid1 creds1 in
  let second_signIn := SignIn pid2 creds2 in
  let pl := interleave schedule
              {| first := in_flight; second := second_signIn; world := w |} in
  snd (step second_signIn w) = dispatch_action (pending T_signIn) w /\
  fst (run second_signIn w) = fst (run second_signIn idle) /\
  fst (run (first pl) (world pl)) = fst (run in_flight w).
Proof.
  intros Hload Hw Hidle in_flight second_signIn pl.
  split; [reflexivity|]. split.
  - destruct (signIn_settles_with pid2 creds2) as [a Ha].
    unfold second_signIn.
    rewrite (settles_with_run a _ _ Ha Hw), (settles_with_run a _ _ Ha Hidle).
    reflexivity.
  - assert (exists a, settles_with a in_flight) as [a Ha].
    { destruct up; [apply signUp_settles_with|apply signIn_settles_with]. }
    destruct (interleave_settles a schedule
                {| first := in_flight; second := second_signIn; world := w |} Ha Hw)
      as [Hpl Hfl].
    fold pl in Hpl, Hfl.
    rewrite (settles_with_run a _ _ Hpl Hfl), (settles_with_run a _ _ Ha Hw).
    reflexivity.
Qed.

(** ** signOut *)

(** [signOut] settles, and its payload creator leaves the state alone. *)
Lemma signOut_run (w : World) :
  exists r w1,
    run SignOut w =
      (inr (final_action T_signOut r), dispatch_action (final_action T_signOut r) w1) /\
    auth w1 = authReducer (auth w) (pending T_signOut).
Proof.
  unfold signOut. rewrite run_createAsyncThunk.
  match goal with |- context [run ?pc ?x] =>
    pose proof (dispatch_free_auth pc x) as Hauth;
    destruct (run pc x) as [r w1] end.
  exists r, w1. split; [reflexivity|]. apply Hauth.
  unfold getState, removeItem. thunk_structure.
Qed.

(** [signOut] on stores that do not fail, when the provider resolves. *)
Lemma signOut_fulfilled_run (w : World) :
  faults w = [] ->
  (forall pid p, truthy (providerId (auth w)) = Some pid ->
                 getProvider authProviderRegistry pid = Some p ->
                 exists b, provider_signOut p = resolves b) ->
  exists lg,
    run SignOut w =
    (inr (fulfilled T_signOut TruePayload),
     {| auth := {| isAuthenticated := false; isLoading := false; session := None;
                   providerId := None; error := error (auth w) |};
        Platform_OS := Platform_OS w;
        stores := with_items (primary (Platform_OS w)) (removals (storage w)) (stores w);
        faults := [];
        now := now w;
        log := lg |}).
Proof.
  intros Hf Hremote. destruct w as [a os bs fs t lg]. cbn in Hf, Hremote. subst fs.
  unfold signOut, createAsyncThunk, storage, primary, removals. cbn.
  destruct (truthy (providerId a)) as [pid|] eqn:Hpid; cbn;
    [destruct (getProvider authProviderRegistry pid) as [p|] eqn:Hp; cbn;
     [destruct (Hremote pid p eq_refl Hp) as [b ->]; cbn|]|];
    storage_cases; eauto.
Qed.

(** C2 (as the code has it).  [signOut] always ends UNAUTHENTICATED
    ([isAuthenticated] false, [session] and [providerId] null, not loading),
    whatever the provider and the stores do, and a second [signOut] leaves
    that state as it is.  When the active provider's [signOut] resolves and no
    call on the stores fails, the four keys are cleared, and a second
    [signOut] leaves the stores as they are. *)
Theorem signOut_teardown (w : World) :
  let w' := snd (run SignOut w) in
  let w'' := snd (run SignOut w') in
  (unauthenticated (auth w') /\ isLoading (auth w') = false /\ auth w'' = auth w') /\
  (faults w = [] ->
   (forall pid p, truthy (providerId (auth w)) = Some pid ->
                  getProvider authProviderRegistry pid = Some p ->
                  exists b, provider_signOut p = resolves b) ->
   cleared (storage w') /\ stores w'' = stores w').
Proof.
  cbn zeta. split.
  - destruct (signOut_run w) as (r1 & w1 & -> & H1). cbn [snd].
    destruct (signOut_run (dispatch_action (final_action T_signOut r1) w1))
      as (r2 & w2 & -> & H2). cbn [snd].
    destruct r1 as [e1|[p1|v1]], r2 as [e2|[p2|v2]]; cbn in *; rewrite ?H2, ?H1;
      repeat split; reflexivity.
  - intros Hf Hremote.
    destruct (signOut_fulfilled_run w Hf Hremote) as [lg ->]. cbn [snd].
    match goal with |- context [run SignOut ?w1] =>
      destruct (signOut_fulfilled_run w1) as [lg' ->];
        [reflexivity|cbn; discriminate|]
    end.
    rewrite !storage_with_items. cbn [snd stores Platform_OS].
    split; [apply cleared_after_removals|].
    rewrite (removals_of_cleared _ (cleared_after_removals _)).
    destruct (primary (Platform_OS w)), (stores w); reflexivity.
Qed.

(** ** refreshSession *)

Lemma refresh_unavailable_None (w : World) :
  refresh_unavailable authProviderRegistry w ->
  refreshed_session authProviderRegistry (auth w) (storage w !! REFRESH_TOKEN_KEY) = None.
Proof.
  unfold refreshed_session.
  intros [H|H|pid H1 H2|pid p H1 H2 H3|pid p f rt H1 H2 H3 H4 H5];
    rewrite ?H, ?H1, ?H2; cbn; rewrite ?H2, ?H3; cbn; try reflexivity.
  - destruct (truthy (providerId (auth w))); reflexivity.
  - destruct (truthy (storage w !! REFRESH_TOKEN_KEY)); reflexivity.
  - destruct (truthy (storage w !! REFRESH_TOKEN_KEY)); [|reflexivity].
    destruct p; cbn in *; subst; reflexivity.
  - destruct p; cbn in *; subst. destruct (f rt) as [r|e] eqn:Hr; auto.
Qed.

(** [refreshSession] settles, and its payload creator leaves the state alone. *)
Lemma refreshSession_run (w : World) :
  exists r w1,
    run RefreshSession w =
      (inr (final_action T_refreshSession r),
       dispatch_action (final_action T_refreshSession r) w1) /\
    auth w1 = authReducer (auth w) (pending T_refreshSession).
Proof.
  unfold refreshSession. rewrite run_createAsyncThunk.
  match goal with |- context [run ?pc ?x] =>
    pose proof (dispatch_free_auth pc x) as Hauth;
    destruct (run pc x) as [r w1] end.
  exists r, w1. split; [reflexivity|]. apply Hauth.
  unfold getState, getItem, setItem, save_tokens_and_user. thunk_structure.
Qed.

(** A [refreshSession] that cannot obtain a session, on stores that do not
    fail: it is rejected and has made no write. *)
Lemma refreshSession_rejected_run (w : World) :
  refreshed_session authProviderRegistry (auth w) (storage w !! REFRESH_TOKEN_KEY) = None ->
  faults w = [] ->
  exists v w',
    run RefreshSession w = (inr (rejected T_refreshSession (Some v)), w') /\
    auth w' = {| isAuthenticated := false; isLoading := false; session := None;
                 providerId := None; error := error (auth w) |} /\
    stores w' = stores w /\
    faults w' = [].
Proof.
  destruct w as [a os bs fs t lg]. unfold storage, primary, refreshed_session. cbn.
  intros H ->. revert H.
  unfold refreshSession, createAsyncThunk, save_tokens_and_user. cbn.
  storage_cases;
    (destruct (truthy (providerId a)) as [pid|]; cbn;
     [|destruct bs; eauto 10];
     match goal with
     | |- context [truthy (?m !! REFRESH_TOKEN_KEY)] =>
         destruct (truthy (m !! REFRESH_TOKEN_KEY)) as [rt|]
     end; cbn; [|destruct bs; eauto 10];
     destruct (getProvider authProviderRegistry pid) as [[? ? ? ? ? ? [f|]]|];
     cbn; [|destruct bs; eauto 10|destruct bs; eauto 10];
     destruct (f rt) as [r|e]; cbn; [|destruct bs; eauto 10];
     intros H; rewrite H; cbn; destruct bs; eauto 10).
Qed.

(** C3 (as the code has it).  A rejected [refreshSession] leaves the state
    UNAUTHENTICATED and not loading.  On stores that do not fail, whenever
    [refreshSession] fails for want of an active provider id, of a refresh
    token, of a provider with the refresh capability, or because the provider
    refuses, the thunk is rejected and [refreshSession] itself leaves the
    stores as they were; a second call yields the same state and stores. *)
Theorem refreshSession_failure (w : World) :
  let w' := snd (run RefreshSession w) in
  let w'' := snd (run RefreshSession w') in
  (forall v, fst (run RefreshSession w) = inr (rejected T_refreshSession v) ->
             unauthenticated (auth w') /\ isLoading (auth w') = false) /\
  (refresh_unavailable authProviderRegistry w -> faults w = [] ->
   (exists v, fst (run RefreshSession w) = inr (rejected T_refreshSession (Some v))) /\
   stores w' = stores w /\
   auth w'' = auth w' /\ stores w'' = stores w').
Proof.
  cbn zeta. split.
  - intros v. destruct (refreshSession_run w) as (r & w1 & -> & H1). cbn [fst snd].
    destruct r as [e|[p|x]]; cbn; intros [=]; repeat split; reflexivity.
  - intros H Hf. apply refresh_unavailable_None in H.
    destruct (refreshSession_rejected_run w H Hf) as (v & w' & -> & Ha & Hs & Hf').
    cbn [fst snd].
    destruct (refreshSession_rejected_run w') as (v' & w'' & -> & Ha' & Hs' & _);
      [rewrite Ha; reflexivity|exact Hf'|].
    cbn [fst snd]. rewrite Ha', Ha. cbn. eauto 10.
Qed.

(** ** signIn *)

(** A granted [signIn] on stores that do not fail. *)
Lemma signIn_fulfilled_run
    (w : World) (pid : string) (creds : AuthCredentials)
    (p : BaseAuthProvider) (r : AuthResponse) (s : AuthSession) :
  getProvider authProviderRegistry pid = Some p ->
  provider_signIn p creds = resolves r ->
  successful_session r = Some s ->
  faults w = [] ->
  run (SignIn pid creds) w =
  (inr (fulfilled T_signIn (SessionPayload s pid)),
   {| auth := authenticated_as s pid;
      Platform_OS := Platform_OS w;
      stores := with_items (primary (Platform_OS w))
                  (persisted JSON_stringify s pid (storage w)) (stores w);
      faults := [];
      now := now w;
      log := log w ++ [Dispatched (pending T_signIn)] ++
             map (fun c => Called (primary (Platform_OS w)) c true)
                 (session_writes JSON_stringify s ++
                  [setItem_call PROVIDER_ID_KEY pid]) ++
             [Dispatched (fulfilled T_signIn (SessionPayload s pid))] |}).
Proof.
  intros Hp Hr Hs Hf. destruct w as [a os bs fs t lg]. cbn in Hf. subst fs.
  unfold signIn, createAsyncThunk, save_tokens_and_user, persisted, session_writes,
    storage, primary.
  cbn. rewrite Hp. cbn. rewrite Hr. cbn. rewrite Hs. cbn.
  destruct (truthy (refreshToken s)); storage_cases;
    unfold dispatch_action; cbn; rewrite <- ?app_assoc; reflexivity.
Qed.

(** C4 (as the code has it).  When the provider grants a session and no call
    on the stores fails, [signIn] is fulfilled with that session;
    [auth_access_token], [auth_user] and [auth_provider_id] hold its access
    token, its serialized user and the provider id; [auth_refresh_token] holds
    its refresh token when that is non-empty and is left as it was otherwise;
    and all these writes precede the dispatch of [signIn.fulfilled], the last
    thing the thunk does, which makes the state AUTHENTICATED. *)
Theorem signIn_persists_before_publish
    (w : World) (pid : string) (creds : AuthCredentials)
    (p : BaseAuthProvider) (r : AuthResponse) (s : AuthSession) :
  getProvider authProviderRegistry pid = Some p ->
  provider_signIn p creds = resolves r ->
  successful_session r = Some s ->
  faults w = [] ->
  let w' := snd (run (SignIn pid creds) w) in
  fst (run (SignIn pid creds) w) = inr (fulfilled T_signIn (SessionPayload s pid)) /\
  storage w' !! ACCESS_TOKEN_KEY = Some (accessToken s) /\
  storage w' !! REFRESH_TOKEN_KEY =
    match truthy (refreshToken s) with
    | Some rt => Some rt
    | None => storage w !! REFRESH_TOKEN_KEY
    end /\
  storage w' !! USER_KEY = Some (JSON_stringify (user s)) /\
  storage w' !! PROVIDER_ID_KEY = Some pid /\
  log w' =
    (log w ++ [Dispatched (pending T_signIn)] ++
     map (fun c => Called (primary (Platform_OS w)) c true)
         (session_writes JSON_stringify s ++ [setItem_call PROVIDER_ID_KEY pid]) ++
     [Dispatched (fulfilled T_signIn (SessionPayload s pid))])%list /\
  auth w' = authenticated_as s pid.
Proof.
  intros Hp Hr Hs Hf. cbn zeta.
  rewrite (signIn_fulfilled_run w pid creds p r s Hp Hr Hs Hf). cbn [fst snd].
  rewrite !storage_with_items. cbn [log auth].
  unfold persisted. distinct_keys.
  destruct (truthy (refreshToken s)) as [rt|]; simplify_map_eq; repeat split.
Qed.

(** ** checkAuth after signIn *)

(** [checkAuth] on stores that do not fail and hold an access token, a user
    whose [expiresAt] is not in the past, and a provider id. *)
Lemma checkAuth_restores_run
    (w : World) (token info pid : string) (u : AuthUser) :
  truthy (storage w !! ACCESS_TOKEN_KEY) = Some token ->
  truthy (storage w !! USER_KEY) = Some info ->
  truthy (storage w !! PROVIDER_ID_KEY) = Some pid ->
  JSON_parse info = Some u ->
  user_expired (now w) u = false ->
  faults w = [] ->
  let restored :=
    {| user := u; accessToken := token;
       refreshToken := truthy (storage w !! REFRESH_TOKEN_KEY);
       expiresAt := None |} in
  exists lg,
    run CheckAuth w =
    (inr (fulfilled T_checkAuth (SessionPayload restored pid)),
     {| auth := {| isAuthenticated := true; isLoading := false;
                   session := Some restored; providerId := Some pid;
                   error := error (auth w) |};
        Platform_OS := Platform_OS w;
        stores := stores w;
        faults := [];
        now := now w;
        log := lg |}).
Proof.
  destruct w as [a os bs fs t lg]. unfold storage, primary. cbn.
  intros Ht Hi Hpid Hu Hexp ->. revert Ht Hi Hpid.
  unfold checkAuth, checkAuth_try, createAsyncThunk, isTokenExpired.
  unfold user_expired in Hexp.
  cbn. storage_cases; intros Ht Hi Hpid; rewrite Ht, Hi, Hpid; cbn; rewrite Hu; cbn;
    (destruct (truthy_number (user_expiresAt u)); cbn in *;
     [destruct (user_expiresAt u); cbn in *; rewrite ?Hexp; cbn|];
     destruct bs; eauto).
Qed.

(** C5 (as the code has it).  After a [signIn] that the provider granted,
    with non-empty access token and provider id, on stores that do not fail,
    an immediate [checkAuth] is fulfilled with a session that has the same
    user (given that the host's JSON gives the user back and
    [user.expiresAt] is not in the past) and the same access token; its
    refresh token is the session's when that is non-empty, and what the store
    held before otherwise; its [expiresAt] is absent, since [expiresAt] is not
    persisted. *)
Theorem checkAuth_after_signIn
    (w : World) (pid : string) (creds : AuthCredentials)
    (p : BaseAuthProvider) (r : AuthResponse) (s : AuthSession) :
  getProvider authProviderRegistry pid = Some p ->
  provider_signIn p creds = resolves r ->
  successful_session r = Some s ->
  faults w = [] ->
  accessToken s <> "" -> pid <> "" ->
  JSON_stringify (user s) <> "" ->
  JSON_parse (JSON_stringify (user s)) = Some (user s) ->
  user_expired (now w) (user s) = false ->
  let w1 := snd (run (SignIn pid creds) w) in
  let w2 := snd (run CheckAuth w1) in
  let restored := restored_session s (storage w !! REFRESH_TOKEN_KEY) in
  session (auth w1) = Some s /\
  fst (run CheckAuth w1) = inr (fulfilled T_checkAuth (SessionPayload restored pid)) /\
  auth w2 = authenticated_as restored pid /\
  stores w2 = stores w1.
Proof.
  intros Hp Hr Hs Hf Hat Hpid Hjson Hparse Hexp. cbn zeta.
  rewrite (signIn_fulfilled_run w pid creds p r s Hp Hr Hs Hf).
  cbn [fst snd]. distinct_keys.
  assert (truthy (refreshToken s) = None \/
          exists rt, rt <> "" /\ truthy (refreshToken s) = Some rt) as Hrt.
  { destruct (truthy (refreshToken s)) as [rt|] eqn:E; [right|left; reflexivity].
    exists rt. apply truthy_nonempty in E. tauto. }
  match goal with |- context [run CheckAuth ?w1] =>
    destruct (checkAuth_restores_run w1 (accessToken s) (JSON_stringify (user s))
                pid (user s)) as [lg2 ->]
  end; rewrite ?storage_with_items; cbn [now faults auth fst snd];
    unfold persisted; try assumption; try reflexivity.
  - destruct Hrt as [->|(rt & ? & ->)]; simplify_map_eq; apply truthy_Some, Hat.
  - destruct Hrt as [->|(rt & ? & ->)]; simplify_map_eq; apply truthy_Some, Hjson.
  - destruct Hrt as [->|(rt & ? & ->)]; simplify_map_eq; apply truthy_Some, Hpid.
  - unfold restored_session, authenticated_as. cbn.
    destruct Hrt as [->|(rt & Hne & ->)]; simplify_map_eq; auto.
    destruct (String.eqb_spec rt ""); [contradiction|auto].
Qed.

(** [signIn] settles; its payload creator leaves the state alone, and ends
    with a payload or with a rejection that carries a message. *)
Lemma signIn_run (w : World) (pid : string) (creds : AuthCredentials) :
  exists r w1,
    run (SignIn pid creds) w =
      (inr (final_action T_signIn r), dispatch_action (final_action T_signIn r) w1) /\
    auth w1 = authReducer (auth w) (pending T_signIn) /\
    match r with
    | inr (returns _) => True
    | inr (rejectWithValue m) => m <> ""
    | inl _ => False
    end.
Proof.
  unfold signIn. rewrite run_createAsyncThunk.
  match goal with |- context [run ?pc ?x] =>
    pose proof (dispatch_free_auth pc x) as Hauth;
    pose proof (ends_in_run
                  (fun r => match r with
                            | returns _ => True
                            | rejectWithValue m => m <> ""
                            end)
                  (fun _ => False) pc x) as Hend;
    destruct (run pc x) as [r w1] end.
  exists r, w1. split; [reflexivity|]. cbn [fst snd] in *. split.
  - apply Hauth. unfold save_tokens_and_user, setItem. thunk_structure.
  - destruct r as [e|r]; apply Hend;
      unfold save_tokens_and_user, setItem; thunk_structure;
      try exact I; apply or_default_nonempty; discriminate.
Qed.

(** C7 (as the code has it).  [signIn] always settles, fulfilled or rejected,
    and never leaves the state loading.  A rejected [signIn] sets [error] to a
    non-empty message and leaves [isAuthenticated], [session] and [providerId]
    as they were: an UNAUTHENTICATED state stays UNAUTHENTICATED, and a state
    that was AUTHENTICATED keeps its session. *)
Theorem signIn_failure (w : World) (pid : string) (creds : AuthCredentials) :
  let w' := snd (run (SignIn pid creds) w) in
  (exists a, fst (run (SignIn pid creds) w) = inr a) /\
  isLoading (auth w') = false /\
  (forall v,
     fst (run (SignIn pid creds) w) = inr (rejected T_signIn v) ->
     exists m,
       v = Some m /\ m <> "" /\ error (auth w') = Some m /\
       isAuthenticated (auth w') = isAuthenticated (auth w) /\
       session (auth w') = session (auth w) /\
       providerId (auth w') = providerId (auth w)).
Proof.
  cbn zeta. destruct (signIn_run w pid creds) as (r & w1 & -> & Ha & Hr).
  cbn [fst snd]. split; [eauto|].
  destruct r as [e|[p|m]]; [contradiction| |]; cbn; rewrite Ha; cbn;
    (split; [reflexivity|]); intros v [= <-].
  exists m. repeat split; auto.
Qed.

(** ** signUp *)

(** C8.  For a registered provider without the [signUp] capability, [signUp]
    is rejected with the unsupported-operation error
    [Provider <id> does not support sign up]; an UNAUTHENTICATED state remains
    UNAUTHENTICATED, with that error; and the thunk makes no call on the
    stores at all: they are as they were. *)
Theorem signUp_unsupported
    (w : World) (pid : string) (creds : AuthCredentials) (p : BaseAuthProvider) :
  getProvider authProviderRegistry pid = Some p ->
  provider_signUp p = None ->
  unauthenticated (auth w) ->
  let UnsupportedOperation := "Provider " +:+ pid +:+ " does not support sign up" in
  let w' := snd (run (SignUp pid creds) w) in
  fst (run (SignUp pid creds) w) = inr (rejected T_signUp (Some UnsupportedOperation)) /\
  unauthenticated (auth w') /\
  isLoading (auth w') = false /\
  error (auth w') = Some UnsupportedOperation /\
  stores w' = stores w /\
  log w' = (log w ++ [Dispatched (pending T_signUp);
                      Dispatched (rejected T_signUp (Some UnsupportedOperation))])%list.
Proof.
  intros Hp Hup (Ha & Hs & Hpid). cbn zeta.
  destruct w as [a os bs fs t lg]. cbn in Ha, Hs, Hpid.
  unfold signUp, createAsyncThunk, unauthenticated. cbn. rewrite Hp.
  destruct p as [? ? ? ? up ? ?]. cbn in Hup. subst up. cbn.
  unfold or_default. cbn. rewrite <- app_assoc. cbn. auto 10.
Qed.

(** ** Which sessions are exposed *)

(** The payload [checkAuth] returns carries a non-empty access token, unless
    it is the payload of the [refreshSession] it dispatched. *)
Lemma checkAuth_payload (w w' : World) (s : AuthSession) (pid : string) :
  run (checkAuth_try authProviderRegistry JSON_stringify JSON_parse) w
    = (inr (returns (SessionPayload s pid)), w') ->
  accessToken s <> "" \/
  exists before,
    log w' = (log w ++ before ++
              [Dispatched (fulfilled T_refreshSession (SessionPayload s pid))])%list.
Proof.
  unfold checkAuth_try. intros H.
  repeat (rewrite run_bind in H;
          match type of H with
          | context [run (getItem ?k) ?x] =>
              let L := fresh "L" in
              pose proof (run_log_extends (getItem k) x) as L;
              destruct (run (getItem k) x) as [[?|?v] ?w]; [discriminate H|];
              cbn [snd] in L; destruct L as [?l L]
          end).
  destruct (truthy v) as [token|] eqn:Htoken; [|discriminate H].
  destruct (truthy v1) as [info|]; [|discriminate H].
  destruct (truthy v2) as [pid0|]; [|discriminate H].
  destruct (JSON_parse info) as [u|]; [|discriminate H].
  cbn zeta in H. rewrite run_bind in H.
  match type of H with
  | context [run ?m ?x] =>
      pose proof (run_log_extends m x) as Le;
      destruct (run m x) as [[?|expired] we]; [discriminate H|];
      cbn [snd] in Le; destruct Le as [le Le]
  end.
  destruct expired.
  - destruct (truthy v0); [|discriminate H].
    rewrite run_bind in H. unfold refreshSession in H.
    rewrite run_createAsyncThunk in H.
    match type of H with
    | context [run ?m ?x] =>
        pose proof (run_log_extends m x) as Lr;
        destruct (run m x) as [r wr]; cbn [snd] in Lr; destruct Lr as [lr Lr]
    end.
    rewrite run_bind in H.
    destruct r as [e|[[s' pid'|]|v']]; cbn in H; try discriminate H.
    injection H as <- <- <-. right. cbn. rewrite Lr. cbn. rewrite Le, L2, L1, L0, L.
    exists (l ++ l0 ++ l1 ++ l2 ++ le ++ [Dispatched (pending T_refreshSession)] ++ lr)%list.
    rewrite <- !app_assoc. reflexivity.
  - cbn in H. injection H as <- <- <-. left. cbn.
    apply truthy_nonempty in Htoken. tauto.
Qed.

(** C9 (as the code has it).  A session that [checkAuth] exposes has a
    non-empty access token, unless it is the session a [refreshSession]
    delegated to by [checkAuth] was fulfilled with.  [signIn] persists and
    exposes the session the provider returned as it is, whatever its access
    token and its [user.id]. *)
Theorem exposed_sessions (w : World) (pid : string) (creds : AuthCredentials) :
  (forall s pid',
     fst (run CheckAuth w) = inr (fulfilled T_checkAuth (SessionPayload s pid')) ->
     session (auth (snd (run CheckAuth w))) = Some s /\
     (accessToken s <> "" \/
      exists before after,
        log (snd (run CheckAuth w)) =
        (log w ++ before ++
         [Dispatched (fulfilled T_refreshSession (SessionPayload s pid'))] ++ after)%list)) /\
  (forall p r s,
     getProvider authProviderRegistry pid = Some p ->
     provider_signIn p creds = resolves r ->
     successful_session r = Some s ->
     faults w = [] ->
     let w' := snd (run (SignIn pid creds) w) in
     session (auth w') = Some s /\
     storage w' !! ACCESS_TOKEN_KEY = Some (accessToken s)).
Proof.
  split.
  - intros s pid'. unfold checkAuth. rewrite run_createAsyncThunk.
    match goal with
    | |- context [run ?m ?x] => destruct (run m x) as [r w1] eqn:Hpc
    end.
    cbn [fst snd]. intros Hr.
    destruct r as [e|[payload|v]]; try discriminate Hr. cbn in Hr.
    injection Hr as ->. split; [reflexivity|].
    rewrite run_try_catch in Hpc.
    match type of Hpc with
    | context [run ?m ?x] => destruct (run m x) as [[e|x'] w0] eqn:Hbody
    end.
    + match type of Hpc with
      | run ?h ?x = _ =>
          pose proof (ends_in_run
                        (fun r => match r with
                                  | returns _ => False
                                  | rejectWithValue _ => True
                                  end)
                        (fun _ => True) h x) as Hend
      end.
      rewrite Hpc in Hend. cbn in Hend. exfalso. apply Hend.
      unfold removeItem. thunk_structure.
    + injection Hpc as -> ->.
      apply checkAuth_payload in Hbody as [Hne|[before Hlog]]; [left; exact Hne|].
      right. cbn. rewrite Hlog. cbn.
      exists (Dispatched (pending T_checkAuth) :: before),
             [Dispatched (fulfilled T_checkAuth (SessionPayload s pid'))].
      rewrite <- !app_assoc. reflexivity.
  - intros p r s Hp Hr Hs Hf. cbn zeta.
    rewrite (signIn_fulfilled_run w pid creds p r s Hp Hr Hs Hf).
    cbn [fst snd]. split; [reflexivity|].
    rewrite storage_with_items. unfold persisted. distinct_keys.
    destruct (truthy (refreshToken s)); simplify_map_eq; reflexivity.
Qed.

(** ** clearError *)

(** C10.  [clearError] sets [error] to null and leaves [isAuthenticated],
    [isLoading], [session] and [providerId] unchanged. *)
Theorem clearError_frame (s : AuthState) :
  let s' := authReducer s clearError in
  error s' = None /\
  isAuthenticated s' = isAuthenticated s /\
  isLoading s' = isLoading s /\
  session s' = session s /\
  providerId s' = providerId s.
Proof. cbn. auto. Qed.

End Slice.

(** * The claims on the deployment *)

Section Deployment.

Import Scenario.

Local Abbreviation SignIn := (signIn registry JSON.stringify).
Local Abbreviation SignUp := (signUp registry JSON.stringify).
Local Abbreviation SignOut := (signOut registry).
Local Abbreviation RefreshSession := (refreshSession registry JSON.stringify).
Local Abbreviation CheckAuth := (checkAuth registry JSON.stringify JSON.parse).

(** ** C1 *)

(** C1 as stated fails: with a [signIn] in flight ([isLoading]), a second
    [signIn] is not rejected; it is fulfilled. *)
Lemma second_signIn_is_not_rejected :
  ~ (isLoading (auth in_flight) = true ->
     exists v, fst (run (SignIn "google" id_token) in_flight) = inr (rejected T_signIn v)).
Proof.
  intros H. destruct (H eq_refl) as [v Hv]. vm_compute in Hv. discriminate.
Qed.

Lemma signIn_has_no_single_flight_gate_witness :
  isLoading (auth in_flight) = true /\
  faults in_flight = [] /\
  faults fresh = [] /\
  let first_signIn := SignIn "credentials" (password_of "a@b.com") in
  let second_signIn := SignIn "google" id_token in
  let pl := interleave [second_call; first_call; second_call; second_call]
              {| first := first_signIn; second := second_signIn; world := in_flight |} in
  snd (step second_signIn in_flight) = dispatch_action (pending T_signIn) in_flight /\
  fst (run second_signIn in_flight) = fst (run second_signIn fresh) /\
  fst (run (first pl) (world pl)) = fst (run first_signIn in_flight).
Proof.
  split; [reflexivity|]. split; [reflexivity|]. split; [reflexivity|].
  apply (signIn_has_no_single_flight_gate registry JSON.stringify false
           "credentials" "google" (password_of "a@b.com") id_token
           in_flight fresh [second_call; first_call; second_call; second_call]);
    reflexivity.
Defined.

(** ** C2 *)

(** C2 as stated fails: when [SecureStore] and its fallback both refuse the
    first delete, [signOut] ends UNAUTHENTICATED with the four keys still in
    the store, and the three other deletes are not attempted. *)
Lemma signOut_stops_at_the_first_failed_delete :
  let w' := snd (run SignOut signed_in_failing_store) in
  ~ (unauthenticated (auth w') /\ cleared (storage w')) /\
  stores w' = stores signed_in /\
  log w' = [Dispatched (pending T_signOut);
            Called SecureStore (removeItem_call ACCESS_TOKEN_KEY) false;
            Called AsyncStorage (removeItem_call ACCESS_TOKEN_KEY) false;
            Dispatched (rejected T_signOut (Some "Disk is full"))].
Proof.
  cbn zeta. split; [|split; vm_compute; reflexivity].
  intros (_ & H & _). vm_compute in H. discriminate.
Qed.

(** When only [SecureStore] refuses the first delete, the service falls back
    on [AsyncStorage] and [signOut] is fulfilled; the access token is still in
    [SecureStore]. *)
Lemma signOut_fallback_leaves_the_token :
  let w' := snd (run SignOut signed_in_locked_keychain) in
  fst (run SignOut signed_in_locked_keychain) = inr (fulfilled T_signOut TruePayload) /\
  unauthenticated (auth w') /\
  storage w' !! ACCESS_TOKEN_KEY = Some "T1".
Proof.
  cbn zeta. split; [vm_compute; reflexivity|].
  split; [vm_compute; auto|vm_compute; reflexivity].
Qed.

Lemma signOut_teardown_witness :
  let w' := snd (run SignOut signed_in) in
  let w'' := snd (run SignOut w') in
  faults signed_in = [] /\
  (forall pid p, truthy (providerId (auth signed_in)) = Some pid ->
                 getProvider registry pid = Some p ->
                 exists b, provider_signOut p = resolves b) /\
  (unauthenticated (auth w') /\ isLoading (auth w') = false /\ auth w'' = auth w') /\
  cleared (storage w') /\ stores w'' = stores w'.
Proof.
  cbn zeta.
  assert (forall pid p, truthy (providerId (auth signed_in)) = Some pid ->
                        getProvider registry pid = Some p ->
                        exists b, provider_signOut p = resolves b) as Hremote.
  { intros pid p Hpid Hp. vm_compute in Hpid. injection Hpid as <-.
    vm_compute in Hp. injection Hp as <-. exists true. reflexivity. }
  split; [reflexivity|]. split; [exact Hremote|].
  destruct (signOut_teardown registry signed_in) as [Hstate Hstore].
  split; [exact Hstate|]. apply Hstore; [reflexivity|exact Hremote].
Defined.

(** ** C3 *)

(** C3 as stated fails: a session obtained from ["google"] has no refresh
    token, so [refreshSession] fails; the state is UNAUTHENTICATED, but the
    access token, the user and the provider id are still in the store. *)
Lemma refreshSession_failure_leaves_the_store :
  let w' := snd (run RefreshSession signed_in_with_google) in
  fst (run RefreshSession signed_in_with_google)
    = inr (rejected T_refreshSession (Some "No active session found")) /\
  unauthenticated (auth w') /\
  ~ cleared (storage w') /\
  storage w' !! ACCESS_TOKEN_KEY = Some "G1".
Proof.
  cbn zeta. split; [vm_compute; reflexivity|].
  split; [vm_compute; auto|]. split; [|vm_compute; reflexivity].
  intros (H & _). vm_compute in H. discriminate.
Qed.

Lemma refreshSession_failure_witness :
  let w := signed_in_with_google in
  let w' := snd (run RefreshSession w) in
  let w'' := snd (run RefreshSession w') in
  fst (run RefreshSession w)
    = inr (rejected T_refreshSession (Some "No active session found")) /\
  refresh_unavailable registry w /\
  faults w = [] /\
  (unauthenticated (auth w') /\ isLoading (auth w') = false) /\
  (exists v, fst (run RefreshSession w) = inr (rejected T_refreshSession (Some v))) /\
  stores w' = stores w /\
  auth w'' = auth w' /\ stores w'' = stores w'.
Proof.
  cbn zeta.
  assert (refresh_unavailable registry signed_in_with_google) as H
    by (apply no_refresh_token; reflexivity).
  destruct (refreshSession_failure registry JSON.stringify signed_in_with_google)
    as [Hstate Hstores].
  split; [reflexivity|]. split; [exact H|]. split; [reflexivity|].
  split; [apply (Hstate (Some "No active session found")); reflexivity|].
  exact (Hstores H eq_refl).
Defined.

(** ** C4 *)

(** C4 as stated fails: the session ["google"] grants has no refresh token;
    [signIn] is fulfilled after three writes, and [auth_refresh_token] is not
    among the keys of the store. *)
Lemma google_signIn_writes_three_keys :
  let w' := snd (run (SignIn "google" id_token) fresh) in
  isAuthenticated (auth w') = true /\
  ~ (is_Some (storage w' !! ACCESS_TOKEN_KEY) /\
     is_Some (storage w' !! REFRESH_TOKEN_KEY) /\
     is_Some (storage w' !! USER_KEY) /\
     is_Some (storage w' !! PROVIDER_ID_KEY)) /\
  length (filter is_write (log w')) = 3%nat.
Proof.
  cbn zeta. split; [vm_compute; reflexivity|]. split; [|vm_compute; reflexivity].
  intros (_ & [v H] & _). vm_compute in H. discriminate.
Qed.

Lemma signIn_persists_before_publish_witness :
  let creds := password_of "a@b.com" in
  let w' := snd (run (SignIn "credentials" creds) fresh) in
  let payload := SessionPayload session_T1 "credentials" in
  getProvider registry "credentials" = Some credentials /\
  provider_signIn credentials creds = resolves (session_response session_T1) /\
  successful_session (session_response session_T1) = Some session_T1 /\
  faults fresh = [] /\
  fst (run (SignIn "credentials" creds) fresh) = inr (fulfilled T_signIn payload) /\
  storage w' !! ACCESS_TOKEN_KEY = Some "T1" /\
  storage w' !! REFRESH_TOKEN_KEY =
    match truthy (refreshToken session_T1) with
    | Some rt => Some rt
    | None => storage fresh !! REFRESH_TOKEN_KEY
    end /\
  storage w' !! USER_KEY = Some (JSON.stringify alice) /\
  storage w' !! PROVIDER_ID_KEY = Some "credentials" /\
  log w' =
    (log fresh ++ [Dispatched (pending T_signIn)] ++
     map (fun c => Called (primary (Platform_OS fresh)) c true)
         (session_writes JSON.stringify session_T1 ++
          [setItem_call PROVIDER_ID_KEY "credentials"]) ++
     [Dispatched (fulfilled T_signIn payload)])%list /\
  auth w' = authenticated_as session_T1 "credentials".
Proof.
  cbn zeta. do 4 (split; [reflexivity|]).
  exact (signIn_persists_before_publish registry JSON.stringify fresh
           "credentials" (password_of "a@b.com") credentials
           (session_response session_T1) session_T1
           eq_refl eq_refl eq_refl eq_refl).
Defined.

(** ** C5 *)

(** C5 as stated fails: the session granted to ["c@d.com"] expires in an
    hour; the session [checkAuth] restores right after has no [expiresAt]. *)
Lemma restored_session_has_no_expiresAt :
  let w1 := snd (run (SignIn "credentials" (password_of "c@d.com")) fresh) in
  let w2 := snd (run CheckAuth w1) in
  session (auth w1) = Some session_T3 /\
  expiresAt session_T3 = Some (now w1 + 3600000) /\
  session (auth w2) <> session (auth w1) /\
  option_map expiresAt (session (auth w2)) = Some None.
Proof.
  cbn zeta. repeat split; try (vm_compute; reflexivity).
  intros H. vm_compute in H. discriminate.
Qed.

Lemma checkAuth_after_signIn_witness :
  let creds := password_of "c@d.com" in
  let w1 := snd (run (SignIn "credentials" creds) fresh) in
  let w2 := snd (run CheckAuth w1) in
  let restored := restored_session session_T3 (storage fresh !! REFRESH_TOKEN_KEY) in
  getProvider registry "credentials" = Some credentials /\
  provider_signIn credentials creds = resolves (session_response session_T3) /\
  successful_session (session_response session_T3) = Some session_T3 /\
  faults fresh = [] /\
  accessToken session_T3 <> "" /\
  "credentials" <> "" /\
  JSON.stringify (user session_T3) <> "" /\
  JSON.parse (JSON.stringify (user session_T3)) = Some (user session_T3) /\
  user_expired (now fresh) (user session_T3) = false /\
  session (auth w1) = Some session_T3 /\
  fst (run CheckAuth w1)
    = inr (fulfilled T_checkAuth (SessionPayload restored "credentials")) /\
  auth w2 = authenticated_as restored "credentials" /\
  stores w2 = stores w1.
Proof.
  cbn zeta.
  do 9 (split; [first [reflexivity | discriminate]|]).
  apply (checkAuth_after_signIn registry JSON.stringify JSON.parse fresh
           "credentials" (password_of "c@d.com") credentials
           (session_response session_T3) session_T3);
    first [reflexivity | discriminate].
Defined.

(** ** C6 *)

(** C6 fails on the code.  The session granted to ["a@b.com"] expired a
    second ago and the provider would refresh it to ["T2"], but [checkAuth]
    looks for the expiry in [user.expiresAt], which this session does not
    have: it restores the expired session, in the running process and after a
    restart alike.  No [refreshSession] is dispatched, the state is
    AUTHENTICATED with ["T1"], and the store still holds ["T1"]. *)
Theorem checkAuth_keeps_the_expired_session :
  let restored :=
    {| user := alice; accessToken := "T1"; refreshToken := Some "R1";
       expiresAt := None |} in
  let reads :=
    [Called SecureStore (getItem_call ACCESS_TOKEN_KEY) true;
     Called SecureStore (getItem_call REFRESH_TOKEN_KEY) true;
     Called SecureStore (getItem_call USER_KEY) true;
     Called SecureStore (getItem_call PROVIDER_ID_KEY) true] in
  session (auth signed_in) = Some session_T1 /\
  expiresAt session_T1 = Some (now signed_in - 1000) /\
  provider_refreshSession credentials
    = Some (fun _ => resolves (session_response session_T2)) /\
  (forall w, w = signed_in \/ w = restarted ->
     let w' := snd (run CheckAuth w) in
     auth w' = authenticated_as restored "credentials" /\
     storage w' !! ACCESS_TOKEN_KEY = Some "T1" /\
     log w' = (log w ++ [Dispatched (pending T_checkAuth)] ++ reads ++
               [Dispatched (fulfilled T_checkAuth
                              (SessionPayload restored "credentials"))])%list).
Proof.
  cbn zeta. do 3 (split; [reflexivity|]).
  intros w [-> | ->]; repeat split; vm_compute; reflexivity.
Qed.

(** When the user record itself carries the expiry, [checkAuth] does
    delegate to [refreshSession].  In the running process the refresh goes
    through and the state and the store get ["T2"]. *)
Lemma checkAuth_refreshes_on_user_expiresAt :
  let w' := snd (run CheckAuth dave_signed_in) in
  fst (run CheckAuth dave_signed_in)
    = inr (fulfilled T_checkAuth (SessionPayload session_T2 "credentials")) /\
  auth w' = authenticated_as session_T2 "credentials" /\
  storage w' !! ACCESS_TOKEN_KEY = Some "T2".
Proof. cbn zeta. repeat split; vm_compute; reflexivity. Qed.

(** After a restart the state has no [providerId], which [refreshSession]
    reads from the state: the delegated refresh is rejected without asking
    the provider, and [checkAuth] clears the store. *)
Lemma checkAuth_cannot_refresh_after_restart :
  let w' := snd (run CheckAuth dave_restarted) in
  fst (run CheckAuth dave_restarted)
    = inr (rejected T_checkAuth (Some "Authentication check failed")) /\
  In (Dispatched (rejected T_refreshSession (Some "No active session found")))
     (log w') /\
  unauthenticated (auth w') /\
  storage w' = ∅.
Proof.
  cbn zeta. split; [vm_compute; reflexivity|].
  split; [vm_compute; tauto|]. split; [vm_compute; auto|].
  vm_compute. reflexivity.
Qed.

(** ** C7 *)

(** C7 as stated fails: a [signIn] that fails in an AUTHENTICATED state
    leaves the state AUTHENTICATED, with its session. *)
Lemma failed_signIn_keeps_the_session :
  let w' := snd (run (SignIn "github" id_token) signed_in) in
  fst (run (SignIn "github" id_token) signed_in)
    = inr (rejected T_signIn (Some "Provider github not found")) /\
  ~ unauthenticated (auth w') /\
  session (auth w') = Some session_T1.
Proof.
  cbn zeta. split; [vm_compute; reflexivity|]. split; [|vm_compute; reflexivity].
  intros (H & _). vm_compute in H. discriminate.
Qed.

Lemma signIn_failure_witness :
  let w' := snd (run (SignIn "github" id_token) signed_in) in
  fst (run (SignIn "github" id_token) signed_in)
    = inr (rejected T_signIn (Some "Provider github not found")) /\
  isLoading (auth w') = false /\
  exists m,
    Some "Provider github not found" = Some m /\ m <> "" /\
    error (auth w') = Some m /\
    isAuthenticated (auth w') = isAuthenticated (auth signed_in) /\
    session (auth w') = session (auth signed_in) /\
    providerId (auth w') = providerId (auth signed_in).
Proof.
  cbn zeta.
  destruct (signIn_failure registry JSON.stringify signed_in "github" id_token)
    as (_ & Hloading & Hrejected).
  split; [reflexivity|]. split; [exact Hloading|].
  apply Hrejected. reflexivity.
Defined.

(** ** C8 *)

Lemma signUp_unsupported_witness :
  let UnsupportedOperation := "Provider google does not support sign up" in
  let w' := snd (run (SignUp "google" id_token) fresh) in
  getProvider registry "google" = Some google /\
  provider_signUp google = None /\
  unauthenticated (auth fresh) /\
  fst (run (SignUp "google" id_token) fresh)
    = inr (rejected T_signUp (Some UnsupportedOperation)) /\
  unauthenticated (auth w') /\
  isLoading (auth w') = false /\
  error (auth w') = Some UnsupportedOperation /\
  stores w' = stores fresh /\
  log w' = (log fresh ++ [Dispatched (pending T_signUp);
                          Dispatched (rejected T_signUp (Some UnsupportedOperation))])%list.
Proof.
  cbn zeta. split; [reflexivity|]. split; [reflexivity|].
  assert (unauthenticated (auth fresh)) as H by (repeat split).
  split; [exact H|].
  exact (signUp_unsupported registry JSON.stringify fresh "google" id_token google
           eq_refl eq_refl H).
Defined.

(** ** C9 *)

(** C9 as stated fails: the backend grants ["nobody@b.com"] a session whose
    access token and user id are empty; [signIn] stores the empty token and
    exposes the session. *)
Lemma blank_session_is_persisted_and_exposed :
  let w' := snd (run (SignIn "credentials" (password_of "nobody@b.com")) fresh) in
  isAuthenticated (auth w') = true /\
  storage w' !! ACCESS_TOKEN_KEY = Some "" /\
  ~ (forall s, session (auth w') = Some s ->
               accessToken s <> "" /\ user_id (user s) <> "").
Proof.
  cbn zeta. split; [vm_compute; reflexivity|]. split; [vm_compute; reflexivity|].
  intros H. destruct (H session_blank) as [Hne _]; [vm_compute; reflexivity|].
  apply Hne. reflexivity.
Qed.

Lemma exposed_sessions_witness :
  let restored :=
    {| user := alice; accessToken := "T1"; refreshToken := Some "R1";
       expiresAt := None |} in
  let creds := password_of "nobody@b.com" in
  let w' := snd (run (SignIn "credentials" creds) restarted) in
  fst (run CheckAuth restarted)
    = inr (fulfilled T_checkAuth (SessionPayload restored "credentials")) /\
  getProvider registry "credentials" = Some credentials /\
  provider_signIn credentials creds = resolves (session_response session_blank) /\
  successful_session (session_response session_blank) = Some session_blank /\
  faults restarted = [] /\
  (session (auth (snd (run CheckAuth restarted))) = Some restored /\
   (accessToken restored <> "" \/
    exists before after,
      log (snd (run CheckAuth restarted)) =
      (log restarted ++ before ++
       [Dispatched (fulfilled T_refreshSession (SessionPayload restored "credentials"))]
       ++ after)%list)) /\
  session (auth w') = Some session_blank /\
  storage w' !! ACCESS_TOKEN_KEY = Some (accessToken session_blank).
Proof.
  cbn zeta.
  destruct (exposed_sessions registry JSON.stringify JSON.parse restarted
              "credentials" (password_of "nobody@b.com")) as [Hrestore Hgranted].
  do 5 (split; [reflexivity|]).
  split; [apply Hrestore; reflexivity|].
  exact (Hgranted credentials (session_response session_blank) session_blank
           eq_refl eq_refl eq_refl eq_refl).
Defined.

End Deployment.

(** * The rest of the code *)

(** ** providers/index.ts: the registry *)

Lemma Map_get_set (key : string) (p : BaseAuthProvider) (providers : AuthProviderRegistry) :
  Map_get key (Map_set key p providers) = Some p.
Proof.
  induction providers as [|[k q] rest IH]; cbn.
  - rewrite String.eqb_refl. reflexivity.
  - destruct (String.eqb k key) eqn:E; cbn; rewrite E; auto.
Qed.

Lemma Map_get_set_other (key pid : string) (p : BaseAuthProvider)
    (providers : AuthProviderRegistry) :
  pid <> key -> Map_get pid (Map_set key p providers) = Map_get pid providers.
Proof.
  intros Hne. induction providers as [|[k q] rest IH]; cbn.
  - destruct (String.eqb_spec key pid); [congruence|reflexivity].
  - destruct (String.eqb_spec k key) as [->|Hk]; cbn.
    + destruct (String.eqb_spec key pid); [congruence|reflexivity].
    + destruct (String.eqb k pid); auto.
Qed.

(** The keys of the [Map], in insertion order. *)
Lemma Map_set_keys (key : string) (p : BaseAuthProvider) (providers : AuthProviderRegistry) :
  map fst (Map_set key p providers) =
  if existsb (String.eqb key) (map fst providers)
  then map fst providers
  else (map fst providers ++ [key])%list.
Proof.
  induction providers as [|[k q] rest IH]; cbn; [reflexivity|].
  rewrite (String.eqb_sym key k).
  destruct (String.eqb k key) eqn:E; cbn; [reflexivity|].
  rewrite IH. destruct (existsb (String.eqb key) (map fst rest)); reflexivity.
Qed.

Lemma Map_set_entries_ok (S : BaseAuthProvider -> Prop) (p : BaseAuthProvider)
    (providers : AuthProviderRegistry) :
  enabled p = true -> S p -> entries_ok S providers ->
  entries_ok S (Map_set (provider_id p) p providers).
Proof.
  intros He Hs [Hnd Hall]. split.
  - rewrite Map_set_keys.
    destruct (existsb (String.eqb (provider_id p)) (map fst providers)) eqn:E; [exact Hnd|].
    apply NoDup_app. repeat split; [exact Hnd| |apply NoDup_singleton].
    intros k Hk Hk'. apply list_elem_of_singleton in Hk'. subst k.
    assert (existsb (String.eqb (provider_id p)) (map fst providers) = true) as E'.
    { apply existsb_exists. exists (provider_id p).
      split; [apply list_elem_of_In; exact Hk|apply String.eqb_refl]. }
    congruence.
  - clear Hnd. induction providers as [|[k q] rest IH]; cbn.
    + repeat constructor; auto.
    + inversion Hall as [|? ? Hq Hrest]; subst.
      destruct (String.eqb_spec k (provider_id p)) as [->|Hk]; constructor; cbn; auto.
Qed.

Lemma registerProvider_entries_ok (S : BaseAuthProvider -> Prop) (p : BaseAuthProvider)
    (providers : AuthProviderRegistry) :
  S p -> entries_ok S providers -> entries_ok S (registerProvider p providers).
Proof.
  intros Hs Hok. unfold registerProvider.
  destruct (enabled p) eqn:He; cbn; [apply Map_set_entries_ok; auto|exact Hok].
Qed.

Lemma registered_entries_ok (ps : list BaseAuthProvider) :
  entries_ok (fun p => In p ps) (registered ps).
Proof.
  unfold registered.
  assert (forall (S : BaseAuthProvider -> Prop) qs providers,
            (forall q, In q qs -> S q) -> entries_ok S providers ->
            entries_ok S (fold_left (fun r p => registerProvider p r) qs providers)) as H.
  { intros S qs. induction qs as [|q qs IH]; intros providers Hqs Hok; cbn; [exact Hok|].
    apply IH; [intros; apply Hqs; right; assumption|].
    apply registerProvider_entries_ok; [apply Hqs; left; reflexivity|exact Hok]. }
  apply H; [auto|]. split; constructor.
Qed.

Lemma entries_ok_get (S : BaseAuthProvider -> Prop) (providers : AuthProviderRegistry)
    (pid : string) (p : BaseAuthProvider) :
  entries_ok S providers ->
  (Map_get pid providers = Some p <-> In (pid, p) providers).
Proof.
  intros [Hnd _]. induction providers as [|[k q] rest IH]; cbn.
  - split; [discriminate|tauto].
  - inversion Hnd as [|? ? Hk Hrest]; subst.
    destruct (String.eqb_spec k pid) as [->|Hne].
    + split; [intros [= ->]; auto|].
      intros [[= ->]|Hin]; [reflexivity|].
      exfalso. apply Hk. apply list_elem_of_In.
      apply (in_map fst) in Hin. exact Hin.
    + rewrite (IH Hrest). split; [auto|]. intros [[= -> ->]|Hin]; [congruence|exact Hin].
Qed.

Lemma registered_ids (ps : list BaseAuthProvider) :
  availableProviders (registered ps) = map fst (registered ps).
Proof.
  destruct (registered_entries_ok ps) as [_ Hall].
  unfold availableProviders, getAllProviders.
  induction Hall as [|[k q] rest [Hq _] _ IH]; cbn in *; [reflexivity|].
  rewrite Hq, IH. reflexivity.
Qed.

(** X1.  [registerProvider] followed by [getProvider]: an enabled provider is
    found under its id, in place of any provider registered under that id
    before, and the other ids are not affected; a disabled provider is
    ignored, so that a provider registered earlier under its id stays. *)
Theorem registerProvider_getProvider
    (p : BaseAuthProvider) (providers : AuthProviderRegistry) (pid : string) :
  getProvider (registerProvider p providers) pid =
  if enabled p && String.eqb pid (provider_id p) then Some p
  else getProvider providers pid.
Proof.
  unfold registerProvider, getProvider.
  destruct (enabled p); cbn; [|reflexivity].
  destruct (String.eqb_spec pid (provider_id p)) as [->|Hne].
  - apply Map_get_set.
  - apply Map_get_set_other. exact Hne.
Qed.

(** X2.  In a registry filled by [registerProvider], every provider that
    [getProvider] returns has the id it was asked for, is enabled and is one
    of those registered; the ids of [availableProviders] are pairwise
    distinct; and [getAllProviders] lists exactly the providers that
    [getProvider] finds under their own id. *)
Theorem registered_providers (ps : list BaseAuthProvider) :
  (forall pid p,
     getProvider (registered ps) pid = Some p ->
     provider_id p = pid /\ enabled p = true /\ In p ps) /\
  NoDup (availableProviders (registered ps)) /\
  (forall p,
     In p (getAllProviders (registered ps)) <->
     getProvider (registered ps) (provider_id p) = Some p).
Proof.
  pose proof (registered_entries_ok ps) as Hok.
  split; [|split].
  - intros pid p Hget. unfold getProvider in Hget.
    apply (entries_ok_get _ _ _ _ Hok) in Hget.
    destruct Hok as [_ Hall]. rewrite List.Forall_forall in Hall.
    apply Hall in Hget. exact Hget.
  - rewrite registered_ids. apply Hok.
  - intros p. unfold getAllProviders, getProvider.
    rewrite (entries_ok_get _ _ _ _ Hok). split.
    + intros Hin. apply in_map_iff in Hin as [[k q] [Hq Hin]]. cbn in Hq. subst q.
      destruct Hok as [_ Hall]. rewrite List.Forall_forall in Hall.
      destruct (Hall _ Hin) as [Hk _]. cbn in Hk. subst k. exact Hin.
    + intros Hin. apply (in_map snd) in Hin. exact Hin.
Qed.

(** X3.  [availableProviders] keeps the order of first registration:
    registering an enabled provider under a new id appends the id, and
    registering under an id already present, or registering a disabled
    provider, leaves the list as it is. *)
Theorem availableProviders_order (ps : list BaseAuthProvider) (p : BaseAuthProvider) :
  availableProviders (registered (ps ++ [p])) =
  if enabled p &&
     negb (existsb (String.eqb (provider_id p)) (availableProviders (registered ps)))
  then (availableProviders (registered ps) ++ [provider_id p])%list
  else availableProviders (registered ps).
Proof.
  rewrite !registered_ids. unfold registered at 1. rewrite fold_left_app. cbn.
  fold (registered ps). unfold registerProvider.
  destruct (enabled p); cbn; [|reflexivity].
  rewrite Map_set_keys.
  destruct (existsb (String.eqb (provider_id p)) (map fst (registered ps))); reflexivity.
Qed.

(** ** services/secureStorage.ts *)

Lemma run_Storage_ok {A : Type} (c : StorageCall) (k : option string -> Thunk A)
    (h : JsError -> Thunk A) (w : World) :
  faults w = [] ->
  run (Storage c k h) w =
  run (k (fst (apply_call c (storage w))))
      {| auth := auth w; Platform_OS := Platform_OS w;
         stores := with_items (primary (Platform_OS w))
                              (snd (apply_call c (storage w))) (stores w);
         faults := []; now := now w;
         log := log w ++ [Called (primary (Platform_OS w)) c true] |}.
Proof. intros Hf. cbn [run]. rewrite (secureStorage_ok c w Hf). reflexivity. Qed.

(** X4.  On stores that do not fail, the service reads back what it wrote:
    [getItem] after [setItem] gives the value, [getItem] after [removeItem]
    gives null, and neither [setItem] nor [removeItem] changes what is read
    under another key. *)
Theorem secureStorage_round_trip (w : World) (key value : string) :
  faults w = [] ->
  fst (run (setItem key value ;; getItem key) w) = inr (Some value) /\
  fst (run (setItem key value ;; removeItem key ;; getItem key) w) = inr None /\
  forall k, k <> key ->
    fst (run (setItem key value ;; getItem k) w) = fst (run (getItem k) w) /\
    fst (run (removeItem key ;; getItem k) w) = fst (run (getItem k) w).
Proof.
  intros Hf. unfold setItem, getItem, removeItem. cbn [bind].
  repeat split; intros;
    repeat (rewrite run_Storage_ok by (try exact Hf; reflexivity);
            cbn [apply_call fst snd bind Platform_OS stores]);
    rewrite ?storage_with_items; cbn [run fst]; f_equal.
  - apply lookup_insert_eq.
  - apply lookup_delete_eq.
  - apply lookup_insert_ne. congruence.
  - apply lookup_delete_ne. congruence.
Qed.

(** What a call on one store leaves alone. *)
Lemma backend_call_frame (b : Backend) (c : StorageCall) (w : World) :
  Platform_OS (snd (backend_call b c w)) = Platform_OS w /\
  forall b', b' <> b -> items b' (stores (snd (backend_call b c w))) = items b' (stores w).
Proof.
  unfold backend_call.
  destruct (faults w) as [|[m|] fs]; cbn;
    destruct (apply_call c (items b (stores w))) as [v st]; cbn;
    (split; [reflexivity|]); try reflexivity;
    intros b' Hb; destruct b, b', (stores w); cbn; congruence.
Qed.

Lemma off_platform_trans (w1 w2 w3 : World) :
  off_platform w1 w2 -> off_platform w2 w3 -> off_platform w1 w3.
Proof.
  intros (Hos & Hweb & Hnat & Hok) (Hos' & Hweb' & Hnat' & Hok').
  rewrite Hos in Hos', Hweb', Hnat', Hok'.
  split; [congruence|]. split; [|split].
  - intros Hw. destruct (Hweb Hw), (Hweb' Hw). split; congruence.
  - intros Hn. rewrite (Hnat' Hn). apply (Hnat Hn).
  - intros Hn Hf. destruct (Hok Hn Hf) as [Hf1 Ha].
    destruct (Hok' Hn Hf1) as [Hf2 Ha']. split; congruence.
Qed.

Lemma secureStorage_off_platform (c : StorageCall) (w : World) :
  off_platform w (snd (secureStorage c w)).
Proof.
  unfold secureStorage, webStorage, nativeStorage.
  destruct (String.eqb_spec (Platform_OS w) "web") as [Hweb|Hnat].
  - destruct (backend_call_frame localStorage c w) as [Hos Hfr].
    split; [exact Hos|]. split; [|split]; try contradiction.
    intros _. split; [apply (Hfr SecureStore)|apply (Hfr AsyncStorage)]; discriminate.
  - pose proof (backend_call_frame SecureStore c w) as [Hos Hfr].
    pose proof (backend_call_faults_nil SecureStore c w) as Hnil.
    destruct (backend_call SecureStore c w) as [[e|v] w1] eqn:E; cbn in *.
    + pose proof (backend_call_frame AsyncStorage c w1) as [Hos' Hfr'].
      split; [congruence|]. split; [|split]; try contradiction.
      * intros _. transitivity (items localStorage (stores w1));
          [apply (Hfr' localStorage)|apply (Hfr localStorage)]; discriminate.
      * intros _ Hf. exfalso. unfold backend_call in E. rewrite Hf in E.
        destruct (apply_call c (items SecureStore (stores w))); discriminate.
    + split; [exact Hos|]. split; [|split]; try contradiction.
      * intros _. apply (Hfr localStorage). discriminate.
      * intros _ Hf. split; [auto|]. apply (Hfr AsyncStorage). discriminate.
Qed.

Lemma run_off_platform {A : Type} (p : Thunk A) (w : World) :
  off_platform w (snd (run p w)).
Proof.
  assert (forall w0, off_platform w0 w0) as Hrefl by (intros w0; repeat split; auto).
  revert w; induction p as [a|e|c k IHk h IHh|k IHk|a k IHk|k IHk]; intros w; cbn; auto.
  - pose proof (secureStorage_off_platform c w) as Hc.
    destruct (secureStorage c w) as [[e|v] w']; cbn in Hc;
      eapply off_platform_trans; eauto.
  - eapply off_platform_trans; [|apply IHk]. repeat split; auto.
Qed.

(** X5.  Whatever a thunk does and whichever calls fail, it leaves the
    stores of the other platform alone: on the web [SecureStore] and
    [AsyncStorage], on a device [localStorage]; and on a device, as long as
    no call fails, it leaves [AsyncStorage] alone too. *)
Theorem stores_of_the_other_platform {A : Type} (p : Thunk A) (w : World) :
  let w' := snd (run p w) in
  (Platform_OS w = "web" ->
   SecureStore_items (stores w') = SecureStore_items (stores w) /\
   AsyncStorage_items (stores w') = AsyncStorage_items (stores w)) /\
  (Platform_OS w <> "web" ->
   localStorage_items (stores w') = localStorage_items (stores w)) /\
  (Platform_OS w <> "web" -> faults w = [] ->
   AsyncStorage_items (stores w') = AsyncStorage_items (stores w)).
Proof.
  cbn zeta. destruct (run_off_platform p w) as (_ & Hweb & Hnat & Hok).
  split; [exact Hweb|]. split; [exact Hnat|].
  intros Hn Hf. apply (Hok Hn Hf).
Qed.

(** X6.  On a device, a call of the service rejects exactly when the call
    on [SecureStore] and the call on [AsyncStorage] that falls back on it
    both fail; the error is the one of [AsyncStorage], and neither store has
    changed. *)
Theorem nativeStorage_rejects (c : StorageCall) (w : World) (e : JsError) :
  (fst (nativeStorage c w) = inl e <->
   exists m1 m2 fs, faults w = Some m1 :: Some m2 :: fs /\ e = Error m2) /\
  (fst (nativeStorage c w) = inl e -> stores (snd (nativeStorage c w)) = stores w).
Proof.
  unfold nativeStorage, backend_call.
  destruct (faults w) as [|[m1|] [|[m2|] fs]] eqn:Hf; cbn;
    repeat match goal with
           | |- context [apply_call c ?m] => destruct (apply_call c m) as [? ?]; cbn
           end;
    (split; [split|]);
    try discriminate;
    try (intros (? & ? & ? & [=] & _); fail);
    try (intros [= <-]; eauto; fail).
  intros (? & ? & ? & [= <- <- <-] & ->). reflexivity.
Qed.

(** X7.  On a device, when only the call on [SecureStore] fails, [setItem]
    succeeds through the fallback: the value is in [AsyncStorage], and
    [SecureStore] is as it was.  A [getItem] that follows reads
    [SecureStore], so it returns what [SecureStore] held before, not the
    value just written. *)
Theorem fallback_write_is_not_read_back (w : World) (key value m : string) :
  Platform_OS w <> "web" ->
  faults w = [Some m] ->
  let w' := snd (run (setItem key value) w) in
  fst (run (setItem key value) w) = inr tt /\
  AsyncStorage_items (stores w') !! key = Some value /\
  SecureStore_items (stores w') = SecureStore_items (stores w) /\
  fst (run (getItem key) w') = inr (SecureStore_items (stores w) !! key).
Proof.
  intros Hos Hf. apply String.eqb_neq in Hos.
  destruct w as [a os bs fs t lg]. cbn in Hos, Hf. subst fs.
  unfold setItem, getItem. cbn.
  unfold secureStorage, webStorage, nativeStorage, backend_call. cbn. rewrite Hos. cbn.
  rewrite Hos. cbn. destruct bs as [ls ss asy]; cbn.
  repeat split. apply lookup_insert_eq.
Qed.

(** ** auth-slice.ts: what the thunks dispatch *)

Lemma run_faults_nil {A : Type} (p : Thunk A) (w : World) :
  faults w = [] -> faults (snd (run p w)) = [].
Proof.
  revert w; induction p as [a|e|c k IHk h IHh|k IHk|a k IHk|k IHk]; intros w Hf; cbn; auto.
  pose proof (secureStorage_faults_nil c w Hf) as Hc.
  destruct (secureStorage c w) as [[e|v] w']; cbn in Hc; auto.
Qed.

Lemma dispatches_bind {A B : Type} (D : Action -> Prop) (P0 : A -> Prop) (P : B -> Prop)
    (Q : JsError -> Prop) (m : Thunk A) (f : A -> Thunk B) :
  dispatches D P0 Q m -> (forall a, P0 a -> dispatches D P Q (f a)) ->
  dispatches D P Q (x <- m ;; f x).
Proof. induction 1; intros Hf; cbn; try constructor; auto. Qed.

Lemma dispatches_try_catch {A : Type} (D : Action -> Prop) (P : A -> Prop)
    (Q0 Q : JsError -> Prop) (m : Thunk A) (handler : JsError -> Thunk A) :
  dispatches D P Q0 m -> (forall e, Q0 e -> dispatches D P Q (handler e)) ->
  dispatches D P Q (try m catch e => handler e).
Proof. induction 1; intros Hh; cbn; try constructor; auto. Qed.

(** A thunk that dispatches nothing dispatches only actions in [D]. *)
Lemma dispatches_ends_in {A : Type} (D : Action -> Prop) (P : A -> Prop)
    (Q : JsError -> Prop) (p : Thunk A) :
  dispatch_free p -> ends_in P Q p -> dispatches D P Q p.
Proof.
  induction p as [a|e|c k IHk h IHh|k IHk|a k IHk|k IHk]; intros Hfree Hends;
    inversion Hfree; inversion Hends; subst; constructor; auto.
Qed.

Lemma dispatches_weaken {A : Type} (D : Action -> Prop) (P P' : A -> Prop)
    (Q Q' : JsError -> Prop) (p : Thunk A) :
  (forall a, P a -> P' a) -> (forall e, Q e -> Q' e) ->
  dispatches D P Q p -> dispatches D P' Q' p.
Proof. intros HP HQ. induction 1; constructor; auto. Qed.

Lemma dispatches_createAsyncThunk (D : Action -> Prop) (R : PayloadResult -> Prop)
    (t : ThunkName) (payloadCreator : Thunk PayloadResult) :
  D (pending t) -> (forall v, D (rejected t v)) ->
  (forall p, R (returns p) -> D (fulfilled t p)) ->
  dispatches D R (fun _ => True) payloadCreator ->
  dispatches D (settled t R) (fun _ => False) (createAsyncThunk t payloadCreator).
Proof.
  intros Hpending Hrejected Hfulfilled Hpc.
  unfold createAsyncThunk, dispatch. cbn. constructor; [exact Hpending|].
  apply dispatches_bind with (P0 := fun a => D a /\ settled t R a).
  - apply dispatches_try_catch with (Q0 := fun _ => True).
    + eapply dispatches_bind; [exact Hpc|].
      intros [p|v] Hr; constructor; cbn; auto.
    + intros e _. constructor. cbn. auto.
  - intros a [Ha Hs]. constructor; [exact Ha|]. constructor. exact Hs.
Qed.

(** An invariant of the reducer under the actions in [D] is an invariant of
    every run of a thunk that dispatches only such actions. *)
Lemma dispatches_run {A : Type} (D : Action -> Prop) (P : A -> Prop)
    (Q : JsError -> Prop) (I : AuthState -> Prop) (p : Thunk A) (w : World) :
  (forall a s, D a -> I s -> I (authReducer s a)) ->
  dispatches D P Q p -> I (auth w) -> I (auth (snd (run p w))).
Proof.
  intros Hred H; revert w;
    induction H as [a Ha|e He|c k h Hk IHk Hh IHh|k Hk IHk|a k Ha Hk IHk|k Hk IHk];
    intros w Hi; cbn; auto.
  - pose proof (secureStorage_auth c w) as Hc.
    destruct (secureStorage c w) as [[e|v] w']; cbn in Hc;
      [apply IHh|apply IHk]; rewrite Hc; exact Hi.
  - apply IHk. cbn. apply Hred; assumption.
Qed.

Section SliceDispatches.

Variable authProviderRegistry : AuthProviderRegistry.
Variable JSON_stringify : AuthUser -> string.
Variable JSON_parse : string -> option AuthUser.
Variable D : Action -> Prop.

Local Abbreviation SignIn := (signIn authProviderRegistry JSON_stringify).
Local Abbreviation SignUp := (signUp authProviderRegistry JSON_stringify).
Local Abbreviation SignOut := (signOut authProviderRegistry).
Local Abbreviation RefreshSession :=
  (refreshSession authProviderRegistry JSON_stringify).
Local Abbreviation CheckAuth :=
  (checkAuth authProviderRegistry JSON_stringify JSON_parse).

Lemma signIn_dispatches (pid : string) (creds : AuthCredentials) :
  D (pending T_signIn) -> (forall v, D (rejected T_signIn v)) ->
  (forall s pid', D (fulfilled T_signIn (SessionPayload s pid'))) ->
  dispatches D (settled T_signIn session_results) (fun _ => False) (SignIn pid creds).
Proof.
  intros Hp Hr Hf. unfold signIn.
  apply dispatches_createAsyncThunk; auto.
  - intros [s pid'|]; cbn; [auto|contradiction].
  - apply dispatches_ends_in;
      unfold save_tokens_and_user, setItem; thunk_structure; exact I.
Qed.

Lemma signUp_dispatches (pid : string) (creds : AuthCredentials) :
  D (pending T_signUp) -> (forall v, D (rejected T_signUp v)) ->
  (forall s pid', D (fulfilled T_signUp (SessionPayload s pid'))) ->
  dispatches D (settled T_signUp session_results) (fun _ => False) (SignUp pid creds).
Proof.
  intros Hp Hr Hf. unfold signUp.
  apply dispatches_createAsyncThunk; auto.
  - intros [s pid'|]; cbn; [auto|contradiction].
  - apply dispatches_ends_in;
      unfold save_tokens_and_user, setItem; thunk_structure; exact I.
Qed.

Lemma signOut_dispatches :
  D (pending T_signOut) -> (forall v, D (rejected T_signOut v)) ->
  D (fulfilled T_signOut TruePayload) ->
  dispatches D (settled T_signOut (fun r => r <> returns TruePayload ->
                                            exists v, r = rejectWithValue v))
             (fun _ => False) SignOut.
Proof.
  intros Hp Hr Hf. unfold signOut.
  apply dispatches_createAsyncThunk; auto.
  - intros [s pid'|] H; [|exact Hf].
    destruct H as [v Hv]; discriminate.
  - apply dispatches_ends_in;
      unfold getState, removeItem; thunk_structure; try exact I;
      first [contradiction | eauto].
Qed.

Lemma refreshSession_dispatches :
  D (pending T_refreshSession) -> (forall v, D (rejected T_refreshSession v)) ->
  (forall s pid', D (fulfilled T_refreshSession (SessionPayload s pid'))) ->
  dispatches D (settled T_refreshSession session_results) (fun _ => False)
             RefreshSession.
Proof.
  intros Hp Hr Hf. unfold refreshSession.
  apply dispatches_createAsyncThunk; auto.
  - intros [s pid'|]; cbn; [auto|contradiction].
  - apply dispatches_ends_in;
      unfold getState, getItem, save_tokens_and_user, setItem; thunk_structure;
      exact I.
Qed.

Lemma checkAuth_dispatches :
  D (pending T_refreshSession) -> (forall v, D (rejected T_refreshSession v)) ->
  (forall s pid', D (fulfilled T_refreshSession (SessionPayload s pid'))) ->
  D (pending T_checkAuth) -> (forall v, D (rejected T_checkAuth v)) ->
  (forall s pid', D (fulfilled T_checkAuth (SessionPayload s pid'))) ->
  dispatches D (settled T_checkAuth session_results) (fun _ => False) CheckAuth.
Proof.
  intros Hp Hr Hf Hp' Hr' Hf'. unfold checkAuth.
  apply dispatches_createAsyncThunk; auto.
  - intros [s pid'|]; cbn; [auto|contradiction].
  - apply dispatches_try_catch with (Q0 := fun _ => True).
    + unfold checkAuth_try.
      assert (forall k, dispatches D (fun _ : option string => True) (fun _ => True)
                                   (getItem k)) as Hget.
      { intros k. apply dispatches_ends_in; unfold getItem; thunk_structure; exact I. }
      eapply dispatches_bind; [apply Hget|]; intros stored_accessToken _.
      eapply dispatches_bind; [apply Hget|]; intros stored_refreshToken _.
      eapply dispatches_bind; [apply Hget|]; intros userInfo _.
      eapply dispatches_bind; [apply Hget|]; intros stored_providerId _.
      destruct (truthy stored_accessToken) as [token|]; [|constructor; exact I].
      destruct (truthy userInfo) as [info|]; [|constructor; exact I].
      destruct (truthy stored_providerId) as [pid|]; [|constructor; exact I].
      destruct (JSON_parse info) as [u|]; [|constructor; exact I].
      cbn zeta. eapply dispatches_bind with (P0 := fun _ => True).
      * apply dispatches_ends_in; unfold isTokenExpired, Date_now;
          thunk_structure; exact I.
      * intros [|] _; [|constructor; exact I].
        destruct (truthy stored_refreshToken); [|constructor; exact I].
        eapply dispatches_bind.
        { eapply dispatches_weaken;
            [| |apply refreshSession_dispatches; auto]; [eauto|intros e []]. }
        intros act Hact.
        destruct act as [|t|t [s0 pid0|]|t [v0|]]; cbn in Hact; try contradiction;
          try (exfalso; apply Hact; fail); cbn; constructor; exact I.
    + intros e _. apply dispatches_ends_in; unfold removeItem; thunk_structure; exact I.
Qed.

End SliceDispatches.

Lemma thunk_action_coherent (a : Action) (s : AuthState) :
  thunk_action a = true -> coherent s = true -> coherent (authReducer s a) = true.
Proof.
  destruct s as [ia il [se|] [pi|] er], ia; cbn; try discriminate;
    destruct a as [|t|t [s0 pid0|]|t v]; try destruct t; cbn;
    try discriminate; reflexivity.
Qed.

Lemma session_upkeep_error (a : Action) (s : AuthState) :
  session_upkeep a = true -> error (authReducer s a) = error s.
Proof.
  destruct a as [|t|t p|t v]; try destruct t; cbn; try discriminate; reflexivity.
Qed.

Section SliceInvariants.

Variable authProviderRegistry : AuthProviderRegistry.
Variable JSON_stringify : AuthUser -> string.
Variable JSON_parse : string -> option AuthUser.

(** X8.  The three session fields of the state stay in agreement: if
    [isAuthenticated] is true exactly when [session] and [providerId] are set,
    then this is still so after any sequence of [signInWithProvider],
    [signUpWithProvider], [logout], [clearAuthError], the [checkAuth] of app
    load and [refreshSession], whatever the providers answer and whichever
    storage calls fail. *)
Theorem operations_keep_the_state_coherent (ops : list Operation) (w : World) :
  coherent (auth w) = true ->
  coherent (auth (perform_all authProviderRegistry JSON_stringify JSON_parse ops w))
    = true.
Proof.
  revert w; induction ops as [|o rest IH]; intros w Hw; cbn; [exact Hw|].
  apply IH.
  apply (dispatches_run (fun a => thunk_action a = true) (fun _ => True)
           (fun _ => False) (fun s => coherent s = true));
    [apply thunk_action_coherent| |exact Hw].
  destruct o; cbn [perform];
    unfold signInWithProvider, signUpWithProvider, logout, on_app_load, clearAuthError.
  - eapply dispatches_bind; [apply signIn_dispatches; reflexivity|].
    intros; constructor; exact I.
  - eapply dispatches_bind; [apply signUp_dispatches; reflexivity|].
    intros; constructor; exact I.
  - eapply dispatches_bind; [apply signOut_dispatches; reflexivity|].
    intros; constructor; exact I.
  - eapply dispatches_bind; [apply refreshSession_dispatches; reflexivity|].
    intros; constructor; exact I.
  - eapply dispatches_bind; [apply checkAuth_dispatches; reflexivity|].
    intros; constructor; exact I.
  - unfold dispatch. constructor; [reflexivity|]. constructor. exact I.
Qed.

(** X9.  [signOut], [refreshSession] and [checkAuth] never touch
    [AuthState.error]: their failures are not reported there, and an error
    left by an earlier [signIn] or [signUp] is still there after them. *)
Theorem session_upkeep_leaves_error (w : World) :
  error (auth (snd (run (signOut authProviderRegistry) w))) = error (auth w) /\
  error (auth (snd (run (refreshSession authProviderRegistry JSON_stringify) w)))
    = error (auth w) /\
  error (auth (snd (run (checkAuth authProviderRegistry JSON_stringify JSON_parse) w)))
    = error (auth w).
Proof.
  assert (forall a s, session_upkeep a = true ->
                      error s = error (auth w) ->
                      error (authReducer s a) = error (auth w)) as Hred.
  { intros a s Ha Hs. rewrite session_upkeep_error; assumption. }
  repeat split.
  - apply (dispatches_run (fun a => session_upkeep a = true) _ _
             (fun s => error s = error (auth w)) _ _ Hred
             (signOut_dispatches authProviderRegistry _ eq_refl (fun _ => eq_refl) eq_refl)).
    reflexivity.
  - apply (dispatches_run (fun a => session_upkeep a = true) _ _
             (fun s => error s = error (auth w)) _ _ Hred
             (refreshSession_dispatches authProviderRegistry JSON_stringify _
                eq_refl (fun _ => eq_refl) (fun _ _ => eq_refl))).
    reflexivity.
  - apply (dispatches_run (fun a => session_upkeep a = true) _ _
             (fun s => error s = error (auth w)) _ _ Hred
             (checkAuth_dispatches authProviderRegistry JSON_stringify JSON_parse _
                eq_refl (fun _ => eq_refl) (fun _ _ => eq_refl)
                eq_refl (fun _ => eq_refl) (fun _ _ => eq_refl))).
    reflexivity.
Qed.

End SliceInvariants.

(** ** auth-slice.ts: the other paths of the thunks *)

Section SliceMore.

Variable authProviderRegistry : AuthProviderRegistry.
Variable JSON_stringify : AuthUser -> string.
Variable JSON_parse : string -> option AuthUser.

Local Abbreviation SignIn := (signIn authProviderRegistry JSON_stringify).
Local Abbreviation SignUp := (signUp authProviderRegistry JSON_stringify).
Local Abbreviation SignOut := (signOut authProviderRegistry).
Local Abbreviation RefreshSession :=
  (refreshSession authProviderRegistry JSON_stringify).
Local Abbreviation CheckAuth :=
  (checkAuth authProviderRegistry JSON_stringify JSON_parse).

(** *** signUp *)

(** A granted [signUp] on stores that do not fail. *)
Lemma signUp_fulfilled_run
    (w : World) (pid : string) (creds : AuthCredentials) (p : BaseAuthProvider)
    (register : AuthCredentials -> Promise AuthResponse)
    (r : AuthResponse) (s : AuthSession) :
  getProvider authProviderRegistry pid = Some p ->
  provider_signUp p = Some register ->
  register creds = resolves r ->
  successful_session r = Some s ->
  faults w = [] ->
  run (SignUp pid creds) w =
  (inr (fulfilled T_signUp (SessionPayload s pid)),
   {| auth := authenticated_as s pid;
      Platform_OS := Platform_OS w;
      stores := with_items (primary (Platform_OS w))
                  (persisted JSON_stringify s pid (storage w)) (stores w);
      faults := [];
      now := now w;
      log := log w ++ [Dispatched (pending T_signUp)] ++
             map (fun c => Called (primary (Platform_OS w)) c true)
                 (session_writes JSON_stringify s ++
                  [setItem_call PROVIDER_ID_KEY pid]) ++
             [Dispatched (fulfilled T_signUp (SessionPayload s pid))] |}).
Proof.
  intros Hp Hup Hr Hs Hf. destruct w as [a os bs fs t lg]. cbn in Hf. subst fs.
  unfold signUp, createAsyncThunk, save_tokens_and_user, persisted, session_writes,
    storage, primary.
  cbn. rewrite Hp. destruct p as [? ? ? ? up ? ?]. cbn in Hup. subst up.
  cbn. rewrite Hr. cbn. rewrite Hs. cbn.
  destruct (truthy (refreshToken s)); storage_cases;
    unfold dispatch_action; cbn; rewrite <- ?app_assoc; reflexivity.
Qed.

(** X10.  When the provider has the [signUp] capability and grants a
    session, and no call on the stores fails, [signUp] is fulfilled with that
    session; the store holds its access token, its serialized user and the
    provider id, and its refresh token when that is non-empty (the key is
    left as it was otherwise); the writes precede the dispatch of
    [signUp.fulfilled], which makes the state AUTHENTICATED. *)
Theorem signUp_persists_before_publish
    (w : World) (pid : string) (creds : AuthCredentials) (p : BaseAuthProvider)
    (register : AuthCredentials -> Promise AuthResponse)
    (r : AuthResponse) (s : AuthSession) :
  getProvider authProviderRegistry pid = Some p ->
  provider_signUp p = Some register ->
  register creds = resolves r ->
  successful_session r = Some s ->
  faults w = [] ->
  let w' := snd (run (SignUp pid creds) w) in
  fst (run (SignUp pid creds) w) = inr (fulfilled T_signUp (SessionPayload s pid)) /\
  storage w' !! ACCESS_TOKEN_KEY = Some (accessToken s) /\
  storage w' !! REFRESH_TOKEN_KEY =
    match truthy (refreshToken s) with
    | Some rt => Some rt
    | None => storage w !! REFRESH_TOKEN_KEY
    end /\
  storage w' !! USER_KEY = Some (JSON_stringify (user s)) /\
  storage w' !! PROVIDER_ID_KEY = Some pid /\
  log w' =
    (log w ++ [Dispatched (pending T_signUp)] ++
     map (fun c => Called (primary (Platform_OS w)) c true)
         (session_writes JSON_stringify s ++ [setItem_call PROVIDER_ID_KEY pid]) ++
     [Dispatched (fulfilled T_signUp (SessionPayload s pid))])%list /\
  auth w' = authenticated_as s pid.
Proof.
  intros Hp Hup Hr Hs Hf. cbn zeta.
  rewrite (signUp_fulfilled_run w pid creds p register r s Hp Hup Hr Hs Hf).
  cbn [fst snd]. rewrite !storage_with_items. cbn [log auth].
  unfold persisted. distinct_keys.
  destruct (truthy (refreshToken s)) as [rt|]; simplify_map_eq; repeat split.
Qed.

(** [signUp] settles; its payload creator leaves the state alone, and ends
    with a payload or with a rejection that carries a message. *)
Lemma signUp_run (w : World) (pid : string) (creds : AuthCredentials) :
  exists r w1,
    run (SignUp pid creds) w =
      (inr (final_action T_signUp r), dispatch_action (final_action T_signUp r) w1) /\
    auth w1 = authReducer (auth w) (pending T_signUp) /\
    match r with
    | inr (returns _) => True
    | inr (rejectWithValue m) => m <> ""
    | inl _ => False
    end.
Proof.
  unfold signUp. rewrite run_createAsyncThunk.
  match goal with |- context [run ?pc ?x] =>
    pose proof (dispatch_free_auth pc x) as Hauth;
    pose proof (ends_in_run
                  (fun r => match r with
                            | returns _ => True
                            | rejectWithValue m => m <> ""
                            end)
                  (fun _ => False) pc x) as Hend;
    destruct (run pc x) as [r w1] end.
  exists r, w1. split; [reflexivity|]. cbn [fst snd] in *. split.
  - apply Hauth. unfold save_tokens_and_user, setItem. thunk_structure.
  - destruct r as [e|r]; apply Hend;
      unfold save_tokens_and_user, setItem; thunk_structure;
      try exact I; apply or_default_nonempty; discriminate.
Qed.

(** X11.  [signUp] always settles and never leaves the state loading.  A
    rejected [signUp] sets [error] to a non-empty message and leaves
    [isAuthenticated], [session] and [providerId] as they were. *)
Theorem signUp_failure (w : World) (pid : string) (creds : AuthCredentials) :
  let w' := snd (run (SignUp pid creds) w) in
  (exists a, fst (run (SignUp pid creds) w) = inr a) /\
  isLoading (auth w') = false /\
  (forall v,
     fst (run (SignUp pid creds) w) = inr (rejected T_signUp v) ->
     exists m,
       v = Some m /\ m <> "" /\ error (auth w') = Some m /\
       isAuthenticated (auth w') = isAuthenticated (auth w) /\
       session (auth w') = session (auth w) /\
       providerId (auth w') = providerId (auth w)).
Proof.
  cbn zeta. destruct (signUp_run w pid creds) as (r & w1 & -> & Ha & Hr).
  cbn [fst snd]. split; [eauto|].
  destruct r as [e|[p|m]]; [contradiction| |]; cbn; rewrite Ha; cbn;
    (split; [reflexivity|]); intros v [= <-].
  exists m. repeat split; auto.
Qed.

(** *** signIn, when the provider does not grant a session *)

Lemma or_default_Some (x d : string) : x <> "" -> or_default (Some x) d = x.
Proof. intros Hx. unfold or_default. rewrite (truthy_Some x Hx). reflexivity. Qed.

Lemma signIn_refused_run (w : World) (pid : string) (creds : AuthCredentials) :
  signIn_grant authProviderRegistry pid creds = None ->
  let m := signIn_refusal authProviderRegistry pid creds in
  m <> "" /\
  run (SignIn pid creds) w =
  (inr (rejected T_signIn (Some m)),
   {| auth := {| isAuthenticated := isAuthenticated (auth w);
                 isLoading := false;
                 session := session (auth w);
                 providerId := providerId (auth w);
                 error := Some m |};
      Platform_OS := Platform_OS w;
      stores := stores w;
      faults := faults w;
      now := now w;
      log := log w ++ [Dispatched (pending T_signIn);
                       Dispatched (rejected T_signIn (Some m))] |}).
Proof.
  unfold signIn_grant, signIn_refusal, granted_session.
  destruct w as [a os bs fs t lg].
  unfold signIn, createAsyncThunk. cbn.
  destruct (getProvider authProviderRegistry pid) as [p|]; cbn.
  - destruct (provider_signIn p creds) as [r|e]; cbn.
    + intros ->. cbn.
      assert (or_default (response_error r) "Sign in failed" <> "") as Hne
        by (apply or_default_nonempty; discriminate).
      split; [exact Hne|].
      rewrite (or_default_Some _ _ Hne).
      unfold dispatch_action. cbn. rewrite <- app_assoc. reflexivity.
    + intros _. split; [apply or_default_nonempty; discriminate|].
      unfold dispatch_action. cbn. rewrite <- app_assoc. reflexivity.
  - intros _.
    assert ("Provider " +:+ pid +:+ " not found" <> "") as Hne by discriminate.
    split; [exact Hne|].
    rewrite (or_default_Some _ _ Hne).
    unfold dispatch_action. cbn. rewrite <- app_assoc. reflexivity.
Qed.

(** X12.  A [signIn] for which the provider grants no session (unknown
    provider, failure response, rejected call) makes no call on the stores,
    whichever platform and whatever state the stores are in: the stores and
    the failures to come are as before, the two actions dispatched are
    [signIn.pending] and [signIn.rejected], and [error] holds the non-empty
    message of the refusal. *)
Theorem signIn_refused_makes_no_storage_call
    (w : World) (pid : string) (creds : AuthCredentials) :
  signIn_grant authProviderRegistry pid creds = None ->
  let m := signIn_refusal authProviderRegistry pid creds in
  let w' := snd (run (SignIn pid creds) w) in
  m <> "" /\
  fst (run (SignIn pid creds) w) = inr (rejected T_signIn (Some m)) /\
  error (auth w') = Some m /\
  stores w' = stores w /\
  faults w' = faults w /\
  log w' = (log w ++ [Dispatched (pending T_signIn);
                      Dispatched (rejected T_signIn (Some m))])%list.
Proof.
  intros Hgrant. cbn zeta.
  destruct (signIn_refused_run w pid creds Hgrant) as [Hne ->].
  cbn. auto 10.
Qed.

(** *** refreshSession, when the provider grants a session *)

Lemma refreshSession_fulfilled_run (w : World) (pid : string) (s : AuthSession) :
  truthy (providerId (auth w)) = Some pid ->
  refreshed_session authProviderRegistry (auth w) (storage w !! REFRESH_TOKEN_KEY)
    = Some s ->
  faults w = [] ->
  exists lg,
    run RefreshSession w =
    (inr (fulfilled T_refreshSession (SessionPayload s pid)),
     {| auth := {| isAuthenticated := true; isLoading := false;
                   session := Some s; providerId := Some pid;
                   error := error (auth w) |};
        Platform_OS := Platform_OS w;
        stores := with_items (primary (Platform_OS w))
                    (session_saved JSON_stringify s (storage w)) (stores w);
        faults := [];
        now := now w;
        log := lg |}).
Proof.
  destruct w as [a os bs fs t lg]. unfold storage, primary, refreshed_session. cbn.
  intros Hpid H ->. revert H. rewrite Hpid.
  unfold refreshSession, createAsyncThunk, save_tokens_and_user, session_saved. cbn.
  storage_cases;
    (rewrite ?Hpid;
     match goal with
     | |- context [truthy (?m !! REFRESH_TOKEN_KEY)] =>
         destruct (truthy (m !! REFRESH_TOKEN_KEY)) as [rt|]
     end; cbn; [|discriminate];
     destruct (getProvider authProviderRegistry pid) as [[? ? ? ? ? ? [f|]]|];
     cbn; try discriminate;
     destruct (f rt) as [r|e]; cbn; [|discriminate];
     intros H; rewrite H; cbn;
     destruct (truthy (refreshToken s)); storage_cases; eauto).
Qed.

(** X13.  When the state has a provider id, the store a refresh token, and
    the provider answers the refresh with a session, and no call on the
    stores fails, [refreshSession] is fulfilled with that session under the
    provider id of the state.  The store then holds the new access token and
    user; the refresh token is replaced when the new session has a non-empty
    one and kept otherwise; [auth_provider_id] is not written.  The state is
    authenticated with the new session, and [error] is as it was. *)
Theorem refreshSession_success (w : World) (pid : string) (s : AuthSession) :
  truthy (providerId (auth w)) = Some pid ->
  refreshed_session authProviderRegistry (auth w) (storage w !! REFRESH_TOKEN_KEY)
    = Some s ->
  faults w = [] ->
  let w' := snd (run RefreshSession w) in
  fst (run RefreshSession w) = inr (fulfilled T_refreshSession (SessionPayload s pid)) /\
  storage w' !! ACCESS_TOKEN_KEY = Some (accessToken s) /\
  storage w' !! REFRESH_TOKEN_KEY =
    match truthy (refreshToken s) with
    | Some rt => Some rt
    | None => storage w !! REFRESH_TOKEN_KEY
    end /\
  storage w' !! USER_KEY = Some (JSON_stringify (user s)) /\
  storage w' !! PROVIDER_ID_KEY = storage w !! PROVIDER_ID_KEY /\
  isAuthenticated (auth w') = true /\
  isLoading (auth w') = false /\
  session (auth w') = Some s /\
  providerId (auth w') = Some pid /\
  error (auth w') = error (auth w).
Proof.
  intros Hpid Hs Hf. cbn zeta.
  destruct (refreshSession_fulfilled_run w pid s Hpid Hs Hf) as [lg ->].
  cbn [fst snd]. rewrite !storage_with_items. cbn [auth].
  unfold session_saved. distinct_keys.
  destruct (truthy (refreshToken s)) as [rt|]; simplify_map_eq; repeat split.
Qed.

(** *** checkAuth, when it fails *)

(** The [try] block of [checkAuth] returns a payload or throws. *)
Lemma checkAuth_try_returns :
  ends_in (fun r => match r with
                    | returns _ => True
                    | rejectWithValue _ => False
                    end)
          (fun _ => True)
          (checkAuth_try authProviderRegistry JSON_stringify JSON_parse).
Proof.
  unfold checkAuth_try, getItem, isTokenExpired, Date_now.
  thunk_structure; exact I.
Qed.

(** The handler of [checkAuth], on stores that do not fail. *)
Lemma checkAuth_handler_run (w : World) (err : JsError) :
  faults w = [] ->
  exists lg,
    run (removeItem ACCESS_TOKEN_KEY ;;
         removeItem REFRESH_TOKEN_KEY ;;
         removeItem USER_KEY ;;
         removeItem PROVIDER_ID_KEY ;;
         Ret (rejectWithValue (or_default (message err) "Authentication check failed"))) w
    = (inr (rejectWithValue (or_default (message err) "Authentication check failed")),
       {| auth := auth w;
          Platform_OS := Platform_OS w;
          stores := with_items (primary (Platform_OS w)) (removals (storage w)) (stores w);
          faults := [];
          now := now w;
          log := lg |}).
Proof.
  destruct w as [a os bs fs t lg]. cbn. intros ->.
  unfold removeItem, removals, storage, primary. cbn.
  storage_cases; eauto.
Qed.

(** [checkAuth] on stores that do not fail and lack the access token, the
    user or the provider id. *)
Lemma checkAuth_no_session_run (w : World) :
  faults w = [] ->
  truthy (storage w !! ACCESS_TOKEN_KEY) = None \/
  truthy (storage w !! USER_KEY) = None \/
  truthy (storage w !! PROVIDER_ID_KEY) = None ->
  exists lg,
    run CheckAuth w =
    (inr (rejected T_checkAuth (Some "No active session found")),
     {| auth := {| isAuthenticated := false; isLoading := false; session := None;
                   providerId := None; error := error (auth w) |};
        Platform_OS := Platform_OS w;
        stores := with_items (primary (Platform_OS w)) (removals (storage w)) (stores w);
        faults := [];
        now := now w;
        log := lg |}).
Proof.
  destruct w as [a os bs fs t lg]. unfold storage, primary, removals. cbn.
  intros -> H. revert H.
  unfold checkAuth, checkAuth_try, createAsyncThunk. cbn.
  storage_cases;
    repeat match goal with
           | |- context [truthy (?m !! ?k)] => destruct (truthy (m !! k))
           end;
    intros H; try (destruct H as [H|[H|H]]; discriminate H);
    cbn; unfold or_default; cbn; storage_cases; eauto.
Qed.

(** X14.  On stores that do not fail, a rejected [checkAuth] has cleared the
    four keys, and the state is UNAUTHENTICATED and not loading; and
    [checkAuth] is rejected, with [No active session found], whenever the
    store lacks the access token, the user or the provider id (a first
    start, or a start after [signOut]). *)
Theorem checkAuth_failure (w : World) :
  faults w = [] ->
  let w' := snd (run CheckAuth w) in
  (forall v,
     fst (run CheckAuth w) = inr (rejected T_checkAuth v) ->
     cleared (storage w') /\ unauthenticated (auth w') /\ isLoading (auth w') = false) /\
  (truthy (storage w !! ACCESS_TOKEN_KEY) = None \/
   truthy (storage w !! USER_KEY) = None \/
   truthy (storage w !! PROVIDER_ID_KEY) = None ->
   fst (run CheckAuth w) = inr (rejected T_checkAuth (Some "No active session found"))).
Proof.
  intros Hf. cbn zeta. split.
  - intros v. unfold checkAuth. rewrite run_createAsyncThunk, run_try_catch.
    match goal with
    | |- context [run ?m ?x] =>
        pose proof (ends_in_run _ _ m x checkAuth_try_returns) as Hend;
        pose proof (run_faults_nil m x Hf) as Hnil;
        destruct (run m x) as [[e|r] w0]
    end; cbn [fst snd] in Hend, Hnil.
    + destruct (checkAuth_handler_run w0 e Hnil) as [lg ->]. cbn [fst snd].
      intros _. unfold dispatch_action. cbn.
      rewrite storage_with_items.
      split; [apply cleared_after_removals|]. repeat split.
    + destruct r as [p|x]; [discriminate|contradiction].
  - intros Hmissing. destruct (checkAuth_no_session_run w Hf Hmissing) as [lg ->].
    reflexivity.
Qed.

(** X15.  After a [signOut] whose provider call resolved, on stores that do
    not fail, [checkAuth] finds no session: it is rejected with
    [No active session found], the state stays UNAUTHENTICATED and the four
    keys stay cleared. *)
Theorem signOut_then_checkAuth (w : World) :
  faults w = [] ->
  (forall pid p, truthy (providerId (auth w)) = Some pid ->
                 getProvider authProviderRegistry pid = Some p ->
                 exists b, provider_signOut p = resolves b) ->
  let w1 := snd (run SignOut w) in
  let w2 := snd (run CheckAuth w1) in
  fst (run SignOut w) = inr (fulfilled T_signOut TruePayload) /\
  fst (run CheckAuth w1) = inr (rejected T_checkAuth (Some "No active session found")) /\
  unauthenticated (auth w2) /\
  isLoading (auth w2) = false /\
  cleared (storage w2).
Proof.
  intros Hf Hremote. cbn zeta.
  destruct (signOut_fulfilled_run authProviderRegistry w Hf Hremote) as [lg ->].
  cbn [fst snd]. split; [reflexivity|].
  match goal with |- context [run CheckAuth ?w1] =>
    destruct (checkAuth_no_session_run w1) as [lg' ->]
  end.
  - reflexivity.
  - left. rewrite storage_with_items.
    destruct (cleared_after_removals (storage w)) as [-> _]. reflexivity.
  - cbn [fst snd auth]. rewrite !storage_with_items.
    split; [reflexivity|]. split; [repeat split|]. split; [reflexivity|].
    apply cleared_after_removals.
Qed.

(** [checkAuth] on stores that do not fail and hold an access token, a
    provider id and a user whose [expiresAt] is in the past, but no refresh
    token. *)
Lemma checkAuth_expired_run
    (w : World) (token info pid : string) (u : AuthUser) :
  truthy (storage w !! ACCESS_TOKEN_KEY) = Some token ->
  truthy (storage w !! USER_KEY) = Some info ->
  truthy (storage w !! PROVIDER_ID_KEY) = Some pid ->
  JSON_parse info = Some u ->
  user_expired (now w) u = true ->
  truthy (storage w !! REFRESH_TOKEN_KEY) = None ->
  faults w = [] ->
  exists lg,
    run CheckAuth w =
    (inr (rejected T_checkAuth (Some "Session expired")),
     {| auth := {| isAuthenticated := false; isLoading := false; session := None;
                   providerId := None; error := error (auth w) |};
        Platform_OS := Platform_OS w;
        stores := with_items (primary (Platform_OS w)) (removals (storage w)) (stores w);
        faults := [];
        now := now w;
        log := lg |}).
Proof.
  destruct w as [a os bs fs t lg]. unfold storage, primary, removals. cbn.
  intros Ht Hi Hpid Hu Hexp Hrt ->. revert Ht Hi Hpid Hrt.
  unfold checkAuth, checkAuth_try, createAsyncThunk, isTokenExpired.
  unfold user_expired in Hexp. apply andb_prop in Hexp as [Hnum Hpast].
  cbn. storage_cases; intros Ht Hi Hpid Hrt; rewrite Ht, Hi, Hpid; cbn;
    rewrite Hu; cbn; rewrite Hnum; cbn;
    (destruct (user_expiresAt u) as [e|]; [|discriminate Hpast]);
    cbn in Hpast |- *; rewrite Hpast; cbn; rewrite Hrt; cbn;
    unfold or_default; cbn; storage_cases; eauto.
Qed.

(** X16.  On stores that do not fail, when the stored user carries an
    [expiresAt] in the past and the store has no refresh token, [checkAuth]
    is rejected with [Session expired]; the four keys are cleared and the
    state is UNAUTHENTICATED. *)
Theorem checkAuth_expired_without_refresh_token
    (w : World) (token info pid : string) (u : AuthUser) :
  truthy (storage w !! ACCESS_TOKEN_KEY) = Some token ->
  truthy (storage w !! USER_KEY) = Some info ->
  truthy (storage w !! PROVIDER_ID_KEY) = Some pid ->
  JSON_parse info = Some u ->
  user_expired (now w) u = true ->
  truthy (storage w !! REFRESH_TOKEN_KEY) = None ->
  faults w = [] ->
  let w' := snd (run CheckAuth w) in
  fst (run CheckAuth w) = inr (rejected T_checkAuth (Some "Session expired")) /\
  cleared (storage w') /\
  unauthenticated (auth w') /\
  isLoading (auth w') = false.
Proof.
  intros Ht Hi Hpid Hu Hexp Hrt Hf. cbn zeta.
  destruct (checkAuth_expired_run w token info pid u Ht Hi Hpid Hu Hexp Hrt Hf)
    as [lg ->].
  cbn [fst snd auth]. rewrite storage_with_items.
  split; [reflexivity|]. split; [apply cleared_after_removals|]. repeat split.
Qed.

(** *** checkAuth, when it delegates to refreshSession *)

(** [checkAuth] on stores that do not fail and hold a session whose user
    has expired and a refresh token, in a state without provider id. *)
Lemma checkAuth_startup_run
    (w : World) (token info pid rt : string) (u : AuthUser) :
  truthy (providerId (auth w)) = None ->
  truthy (storage w !! ACCESS_TOKEN_KEY) = Some token ->
  truthy (storage w !! USER_KEY) = Some info ->
  truthy (storage w !! PROVIDER_ID_KEY) = Some pid ->
  JSON_parse info = Some u ->
  user_expired (now w) u = true ->
  truthy (storage w !! REFRESH_TOKEN_KEY) = Some rt ->
  faults w = [] ->
  let P := primary (Platform_OS w) in
  run CheckAuth w =
  (inr (rejected T_checkAuth (Some "Authentication check failed")),
   {| auth := {| isAuthenticated := false; isLoading := false; session := None;
                 providerId := None; error := error (auth w) |};
      Platform_OS := Platform_OS w;
      stores := with_items P (removals (storage w)) (stores w);
      faults := [];
      now := now w;
      log := log w ++
             [Dispatched (pending T_checkAuth);
              Called P (getItem_call ACCESS_TOKEN_KEY) true;
              Called P (getItem_call REFRESH_TOKEN_KEY) true;
              Called P (getItem_call USER_KEY) true;
              Called P (getItem_call PROVIDER_ID_KEY) true;
              Dispatched (pending T_refreshSession);
              Called P (getItem_call REFRESH_TOKEN_KEY) true;
              Dispatched (rejected T_refreshSession (Some "No active session found"));
              Called P (removeItem_call ACCESS_TOKEN_KEY) true;
              Called P (removeItem_call REFRESH_TOKEN_KEY) true;
              Called P (removeItem_call USER_KEY) true;
              Called P (removeItem_call PROVIDER_ID_KEY) true;
              Dispatched (rejected T_checkAuth (Some "Authentication check failed"))] |}).
Proof.
  destruct w as [a os bs fs t lg]. unfold storage, primary, removals. cbn.
  intros Hstate Ht Hi Hpid Hu Hexp Hrt ->. revert Ht Hi Hpid Hrt.
  unfold checkAuth, checkAuth_try, refreshSession, createAsyncThunk, isTokenExpired.
  unfold user_expired in Hexp. apply andb_prop in Hexp as [Hnum Hpast].
  cbn. storage_cases; intros Ht Hi Hpid Hrt; rewrite Ht, Hi, Hpid; cbn;
    rewrite Hu; cbn; rewrite Hnum; cbn;
    (destruct (user_expiresAt u) as [e|]; [|discriminate Hpast]);
    cbn in Hpast |- *; rewrite Hpast; cbn; rewrite Hrt; cbn;
    storage_cases; rewrite Hstate; cbn;
    unfold or_default; cbn; storage_cases;
    unfold dispatch_action; cbn; rewrite <- ?app_assoc; reflexivity.
Qed.

(** X17.  At startup the state has no provider id, and [refreshSession]
    takes the provider id from the state: when the stored user has expired,
    the refresh that [checkAuth] delegates to is rejected with
    [No active session found] although the store holds a refresh token and a
    provider id, and [checkAuth] is rejected with
    [Authentication check failed] and clears the four keys. *)
Theorem checkAuth_cannot_refresh_at_startup
    (w : World) (token info pid rt : string) (u : AuthUser) :
  truthy (providerId (auth w)) = None ->
  truthy (storage w !! ACCESS_TOKEN_KEY) = Some token ->
  truthy (storage w !! USER_KEY) = Some info ->
  truthy (storage w !! PROVIDER_ID_KEY) = Some pid ->
  JSON_parse info = Some u ->
  user_expired (now w) u = true ->
  truthy (storage w !! REFRESH_TOKEN_KEY) = Some rt ->
  faults w = [] ->
  let w' := snd (run CheckAuth w) in
  fst (run CheckAuth w) = inr (rejected T_checkAuth (Some "Authentication check failed")) /\
  In (Dispatched (rejected T_refreshSession (Some "No active session found"))) (log w') /\
  cleared (storage w') /\
  unauthenticated (auth w').
Proof.
  intros Hstate Ht Hi Hpid Hu Hexp Hrt Hf. cbn zeta.
  rewrite (checkAuth_startup_run w token info pid rt u Hstate Ht Hi Hpid Hu Hexp Hrt Hf).
  cbn [fst snd auth log]. rewrite storage_with_items.
  split; [reflexivity|]. split; [|split; [apply cleared_after_removals|repeat split]].
  apply in_or_app. right. cbn. auto 10.
Qed.

(** [checkAuth] on stores that do not fail and hold a session whose user
    has expired, when the provider of the state grants the refresh. *)
Lemma checkAuth_refreshes_run
    (w : World) (token info pid active : string) (u : AuthUser) (s : AuthSession) :
  truthy (providerId (auth w)) = Some active ->
  truthy (storage w !! ACCESS_TOKEN_KEY) = Some token ->
  truthy (storage w !! USER_KEY) = Some info ->
  truthy (storage w !! PROVIDER_ID_KEY) = Some pid ->
  JSON_parse info = Some u ->
  user_expired (now w) u = true ->
  refreshed_session authProviderRegistry (auth w) (storage w !! REFRESH_TOKEN_KEY)
    = Some s ->
  faults w = [] ->
  exists lg,
    run CheckAuth w =
    (inr (fulfilled T_checkAuth (SessionPayload s active)),
     {| auth := {| isAuthenticated := true; isLoading := false;
                   session := Some s; providerId := Some active;
                   error := error (auth w) |};
        Platform_OS := Platform_OS w;
        stores := with_items (primary (Platform_OS w))
                    (session_saved JSON_stringify s (storage w)) (stores w);
        faults := [];
        now := now w;
        log := lg |}).
Proof.
  destruct w as [a os bs fs t lg]. unfold storage, primary, refreshed_session. cbn.
  intros Hstate Ht Hi Hpid Hu Hexp H ->. revert Ht Hi Hpid H. rewrite Hstate.
  unfold checkAuth, checkAuth_try, refreshSession, createAsyncThunk, isTokenExpired,
    save_tokens_and_user, session_saved.
  unfold user_expired in Hexp. apply andb_prop in Hexp as [Hnum Hpast].
  cbn. storage_cases; intros Ht Hi Hpid; rewrite Ht, Hi, Hpid; cbn;
    rewrite Hu; cbn; rewrite Hnum; cbn;
    (destruct (user_expiresAt u) as [e|]; [|discriminate Hpast]);
    cbn in Hpast |- *; rewrite Hpast; cbn;
    match goal with
    | |- context [truthy (?m !! REFRESH_TOKEN_KEY)] =>
        destruct (truthy (m !! REFRESH_TOKEN_KEY)) as [rt|] eqn:Hrt
    end; cbn; try discriminate;
    storage_cases; rewrite ?Hstate, ?Hrt; cbn;
    (destruct (getProvider authProviderRegistry active) as [[? ? ? ? ? ? [f|]]|];
     cbn; try discriminate;
     destruct (f rt) as [r|err]; cbn; [|discriminate];
     intros H; rewrite H; cbn;
     destruct (truthy (refreshToken s)); storage_cases; eauto).
Qed.

(** X18.  In a running process, when the stored user has expired and the
    provider of the state grants the refresh, on stores that do not fail,
    [checkAuth] is fulfilled with the refreshed session, under the provider
    id of the state (not the stored one); the store holds the new access
    token, and the state is authenticated with the new session. *)
Theorem checkAuth_delegates_to_refreshSession
    (w : World) (token info pid active : string) (u : AuthUser) (s : AuthSession) :
  truthy (providerId (auth w)) = Some active ->
  truthy (storage w !! ACCESS_TOKEN_KEY) = Some token ->
  truthy (storage w !! USER_KEY) = Some info ->
  truthy (storage w !! PROVIDER_ID_KEY) = Some pid ->
  JSON_parse info = Some u ->
  user_expired (now w) u = true ->
  refreshed_session authProviderRegistry (auth w) (storage w !! REFRESH_TOKEN_KEY)
    = Some s ->
  faults w = [] ->
  let w' := snd (run CheckAuth w) in
  fst (run CheckAuth w) = inr (fulfilled T_checkAuth (SessionPayload s active)) /\
  session (auth w') = Some s /\
  providerId (auth w') = Some active /\
  isAuthenticated (auth w') = true /\
  storage w' !! ACCESS_TOKEN_KEY = Some (accessToken s) /\
  storage w' !! USER_KEY = Some (JSON_stringify (user s)) /\
  storage w' !! PROVIDER_ID_KEY = Some pid.
Proof.
  intros Hstate Ht Hi Hpid Hu Hexp Hs Hf. cbn zeta.
  destruct (checkAuth_refreshes_run w token info pid active u s
              Hstate Ht Hi Hpid Hu Hexp Hs Hf) as [lg ->].
  cbn [fst snd auth]. rewrite !storage_with_items.
  apply truthy_nonempty in Hpid as [Hpid _].
  unfold session_saved. distinct_keys.
  destruct (truthy (refreshToken s)) as [rt|]; simplify_map_eq; repeat split.
Qed.

(** *** signIn is neither atomic nor isolated *)

(** X19.  [signIn] does not undo its writes.  On the web, when the provider
    grants a session and the second write fails, [signIn] is rejected with
    the message of the failure: the session fields of the state are as
    before, but [auth_access_token] already holds the new access token. *)
Theorem signIn_failed_write_leaves_the_token
    (w : World) (pid m : string) (creds : AuthCredentials)
    (p : BaseAuthProvider) (r : AuthResponse) (s : AuthSession) :
  getProvider authProviderRegistry pid = Some p ->
  provider_signIn p creds = resolves r ->
  successful_session r = Some s ->
  Platform_OS w = "web" ->
  faults w = [None; Some m] ->
  let w' := snd (run (SignIn pid creds) w) in
  fst (run (SignIn pid creds) w)
    = inr (rejected T_signIn (Some (or_default (Some m) "Authentication failed"))) /\
  isAuthenticated (auth w') = isAuthenticated (auth w) /\
  session (auth w') = session (auth w) /\
  providerId (auth w') = providerId (auth w) /\
  storage w' !! ACCESS_TOKEN_KEY = Some (accessToken s) /\
  storage w' !! PROVIDER_ID_KEY = storage w !! PROVIDER_ID_KEY.
Proof.
  intros Hp Hr Hs Hos Hf. destruct w as [a os bs fs t lg]. cbn in Hos, Hf. subst os fs.
  cbn zeta. unfold signIn, createAsyncThunk, save_tokens_and_user, storage, primary.
  cbn. rewrite Hp. cbn. rewrite Hr. cbn. rewrite Hs. cbn.
  unfold secureStorage, webStorage, backend_call. cbn.
  distinct_keys.
  destruct (truthy (refreshToken s)); cbn;
    unfold secureStorage, webStorage, backend_call; cbn;
    repeat split; simplify_map_eq; reflexivity.
Qed.

Lemma interleave_cons (t : Turn) (rest : list Turn) (pl : Pool) :
  interleave (t :: rest) pl = interleave rest (pool_step t pl).
Proof. reflexivity. Qed.

Lemma overtaking_run
    (w : World) (pidA pidB : string) (credsA credsB : AuthCredentials)
    (pA pB : BaseAuthProvider) (rA rB : AuthResponse) (sA sB : AuthSession) :
  getProvider authProviderRegistry pidA = Some pA ->
  provider_signIn pA credsA = resolves rA ->
  successful_session rA = Some sA ->
  getProvider authProviderRegistry pidB = Some pB ->
  provider_signIn pB credsB = resolves rB ->
  successful_session rB = Some sB ->
  faults w = [] ->
  exists lg,
    interleave (overtaking sA sB)
      {| first := SignIn pidA credsA; second := SignIn pidB credsB; world := w |} =
    {| first := Ret (fulfilled T_signIn (SessionPayload sA pidA));
       second := Ret (fulfilled T_signIn (SessionPayload sB pidB));
       world :=
         {| auth := authenticated_as sA pidA;
            Platform_OS := Platform_OS w;
            stores :=
              with_items (primary (Platform_OS w))
                (<[PROVIDER_ID_KEY := pidA]>
                   (<[USER_KEY := JSON_stringify (user sA)]>
                      (match truthy (refreshToken sA) with
                       | Some rt => <[REFRESH_TOKEN_KEY := rt]>
                       | None => fun st => st
                       end
                         (persisted JSON_stringify sB pidB
                            (<[ACCESS_TOKEN_KEY := accessToken sA]> (storage w))))))
                (stores w);
            faults := [];
            now := now w;
            log := lg |} |}.
Proof.
  intros HpA HrA HsA HpB HrB HsB Hf.
  destruct w as [a os bs fs t lg]. cbn in Hf. subst fs.
  unfold overtaking, signIn, createAsyncThunk, save_tokens_and_user, persisted,
    storage, primary.
  rewrite HpA, HpB. cbn [await bind try_catch dispatch]. rewrite HrA, HrB.
  cbn [await bind try_catch dispatch]. rewrite HsA, HsB.
  destruct (String.eqb os "web") eqn:Hos;
    destruct (truthy (refreshToken sA)), (truthy (refreshToken sB));
    cbn [app repeat];
    repeat (rewrite interleave_cons; unfold pool_step;
            cbn -[interleave secureStorage];
            try unfold secureStorage, webStorage, nativeStorage, backend_call;
            cbn -[interleave]; rewrite ?Hos; cbn -[interleave]);
    cbn [interleave]; destruct bs; eauto.
Qed.

(** X20.  Two [signIn] calls in flight are not isolated from each other.
    When both are granted and no storage call fails, there is an order of
    their steps after which both are fulfilled, the state holds the session
    of the first call, and the store holds the access token of the second
    call beside the user of the first. *)
Theorem concurrent_signIns_can_mix_sessions
    (w : World) (pidA pidB : string) (credsA credsB : AuthCredentials)
    (pA pB : BaseAuthProvider) (rA rB : AuthResponse) (sA sB : AuthSession) :
  getProvider authProviderRegistry pidA = Some pA ->
  provider_signIn pA credsA = resolves rA ->
  successful_session rA = Some sA ->
  getProvider authProviderRegistry pidB = Some pB ->
  provider_signIn pB credsB = resolves rB ->
  successful_session rB = Some sB ->
  faults w = [] ->
  exists schedule,
    let pl := interleave schedule
                {| first := SignIn pidA credsA; second := SignIn pidB credsB;
                   world := w |} in
    first pl = Ret (fulfilled T_signIn (SessionPayload sA pidA)) /\
    second pl = Ret (fulfilled T_signIn (SessionPayload sB pidB)) /\
    session (auth (world pl)) = Some sA /\
    storage (world pl) !! ACCESS_TOKEN_KEY = Some (accessToken sB) /\
    storage (world pl) !! USER_KEY = Some (JSON_stringify (user sA)).
Proof.
  intros HpA HrA HsA HpB HrB HsB Hf. exists (overtaking sA sB). intros pl.
  destruct (overtaking_run w pidA pidB credsA credsB pA pB rA rB sA sB
              HpA HrA HsA HpB HrB HsB Hf) as [lg Hpl].
  subst pl. rewrite Hpl. cbn [first second world auth].
  rewrite !storage_with_items. unfold persisted. distinct_keys.
  destruct (truthy (refreshToken sA)), (truthy (refreshToken sB));
    simplify_map_eq; repeat split.
Qed.

End SliceMore.

(** ** credentials-provider.ts and google-provider.ts *)

Section ProvidersMore.

Variable api_post : string -> ApiBody -> ApiReply.
Variable authProviderRegistry : AuthProviderRegistry.
Variable JSON_stringify : AuthUser -> string.

Local Abbreviation SignIn := (signIn authProviderRegistry JSON_stringify).
Local Abbreviation SignUp := (signUp authProviderRegistry JSON_stringify).
Local Abbreviation RefreshSession :=
  (refreshSession authProviderRegistry JSON_stringify).




(** X22.  When [validateCredentials] is configured and turns the
    credentials down, [signIn] and [signUp] through [CredentialsProvider] are
    rejected with [Invalid credentials format], whatever the backend would
    answer; [error] holds that message and the stores are not touched. *)
Theorem invalid_credentials_are_turned_down
    (w : World) (pid : string) (config : CredentialsProviderConfig)
    (validate : AuthCredentials -> bool) (creds : AuthCredentials) :
  getProvider authProviderRegistry pid = Some (CredentialsProvider api_post config) ->
  validateCredentials config = Some validate ->
  validate creds = false ->
  let InvalidFormat := "Invalid credentials format" in
  (fst (run (SignIn pid creds) w) = inr (rejected T_signIn (Some InvalidFormat)) /\
   error (auth (snd (run (SignIn pid creds) w))) = Some InvalidFormat /\
   stores (snd (run (SignIn pid creds) w)) = stores w) /\
  (fst (run (SignUp pid creds) w) = inr (rejected T_signUp (Some InvalidFormat)) /\
   error (auth (snd (run (SignUp pid creds) w))) = Some InvalidFormat /\
   stores (snd (run (SignUp pid creds) w)) = stores w).
Proof.
  intros Hp Hv Hfalse. cbn zeta.
  unfold signIn, signUp, createAsyncThunk. cbn. rewrite Hp. cbn.
  unfold invalid_format. rewrite Hv, Hfalse. cbn.
  unfold or_default. cbn. repeat split.
Qed.

(** X23.  When the backend refuses a sign-in, [signIn] through
    [CredentialsProvider] is rejected with the message of the backend, or
    with [Failed to sign in] when the backend gave none or an empty one;
    [error] holds that message and the stores are not touched. *)
Theorem signIn_reports_the_backend_message
    (w : World) (pid : string) (config : CredentialsProviderConfig)
    (creds : AuthCredentials) (msg : option string) :
  getProvider authProviderRegistry pid = Some (CredentialsProvider api_post config) ->
  invalid_format config creds = false ->
  api_post (signInUrl config) (credentials_body creds) = api_failure msg ->
  let m := or_default msg "Failed to sign in" in
  let w' := snd (run (SignIn pid creds) w) in
  m <> "" /\
  fst (run (SignIn pid creds) w) = inr (rejected T_signIn (Some m)) /\
  error (auth w') = Some m /\
  stores w' = stores w.
Proof.
  intros Hp Hvalid Hapi. cbn zeta.
  assert (or_default msg "Failed to sign in" <> "") as Hne
    by (apply or_default_nonempty; discriminate).
  destruct (signIn_refused_run authProviderRegistry JSON_stringify w pid creds)
    as [_ Hrun].
  { unfold signIn_grant. rewrite Hp. cbn. rewrite Hvalid.
    unfold post_for_session. rewrite Hapi. reflexivity. }
  rewrite Hrun. unfold signIn_refusal. rewrite Hp. cbn. rewrite Hvalid.
  unfold post_for_session. rewrite Hapi. cbn.
  rewrite (or_default_Some _ _ Hne). auto.
Qed.

(** [refreshSession] on stores that do not fail and hold no refresh
    token. *)
Lemma refreshSession_no_token_run (w : World) :
  truthy (storage w !! REFRESH_TOKEN_KEY) = None ->
  faults w = [] ->
  exists lg,
    run RefreshSession w =
    (inr (rejected T_refreshSession (Some "No active session found")),
     {| auth := {| isAuthenticated := false; isLoading := false; session := None;
                   providerId := None; error := error (auth w) |};
        Platform_OS := Platform_OS w;
        stores := stores w;
        faults := [];
        now := now w;
        log := lg |}).
Proof.
  destruct w as [a os bs fs t lg]. unfold storage, primary. cbn.
  intros H ->. revert H.
  unfold refreshSession, createAsyncThunk. cbn.
  storage_cases; intros H; rewrite H; cbn;
    destruct (truthy (providerId a)); cbn; unfold or_default; cbn;
    destruct bs; eauto.
Qed.

(** X24.  A session that [GoogleProvider] builds on the client (no
    [serverAuthUrl]) has the Google token as access token and no refresh
    token.  So, on stores that do not fail and held no refresh token, a
    [refreshSession] after such a [signIn] is rejected with
    [No active session found] and signs the user out: the state is
    UNAUTHENTICATED, while the token is still in the store. *)
Theorem google_client_session_cannot_be_refreshed
    (w : World) (pid token : string) (config : GoogleProviderConfig)
    (creds : AuthCredentials) :
  getProvider authProviderRegistry pid = Some (GoogleProvider api_post config) ->
  truthy (serverAuthUrl config) = None ->
  truthy (cred_token creds) = Some token ->
  truthy (storage w !! REFRESH_TOKEN_KEY) = None ->
  faults w = [] ->
  let w1 := snd (run (SignIn pid creds) w) in
  let w2 := snd (run RefreshSession w1) in
  (exists s, session (auth w1) = Some s /\
             accessToken s = token /\ refreshToken s = None) /\
  isAuthenticated (auth w1) = true /\
  fst (run RefreshSession w1)
    = inr (rejected T_refreshSession (Some "No active session found")) /\
  unauthenticated (auth w2) /\
  storage w2 !! ACCESS_TOKEN_KEY = Some token.
Proof.
  intros Hp Hurl Htoken Hrt Hf. cbn zeta.
  pose (sess := {| user := {| user_id := "google-user-id";
                              user_email := "example@gmail.com";
                              user_name := Some "Google User";
                              user_picture := Some "https://example.com/avatar.jpg";
                              user_expiresAt := None |};
                   accessToken := token;
                   refreshToken := None;
                   expiresAt := None |}).
  assert (provider_signIn (GoogleProvider api_post config) creds =
          resolves {| success := true; response_session := Some sess;
                      response_error := None |}) as Hsign
    by (cbn; rewrite Htoken, Hurl; reflexivity).
  rewrite (signIn_fulfilled_run authProviderRegistry JSON_stringify w pid creds
             _ _ sess Hp Hsign eq_refl Hf).
  cbn [fst snd auth].
  split; [eexists; repeat split|]. split; [reflexivity|].
  match goal with |- context [run RefreshSession ?w1] =>
    destruct (refreshSession_no_token_run w1) as [lg ->]
  end.
  - rewrite storage_with_items. unfold persisted. cbn. distinct_keys.
    simplify_map_eq. exact Hrt.
  - reflexivity.
  - cbn [fst snd auth stores]. split; [reflexivity|]. split; [repeat split|].
    rewrite storage_with_items. unfold persisted. cbn. distinct_keys.
    simplify_map_eq. reflexivity.
Qed.

End ProvidersMore.

(** ** auth/AuthContext.tsx and the sign-in screen *)

Section ContextMore.

Variable api_post : string -> ApiBody -> ApiReply.
Variable authProviderRegistry : AuthProviderRegistry.
Variable JSON_stringify : AuthUser -> string.

Local Abbreviation SignIn := (signIn authProviderRegistry JSON_stringify).

(** [signIn] settles; its payload creator leaves the state alone, and ends
    with a session for the provider id it was called with, or with a
    rejection that carries a message. *)
Lemma signIn_outcome_run (w : World) (pid : string) (creds : AuthCredentials) :
  exists r w1,
    run (SignIn pid creds) w =
      (inr (final_action T_signIn r), dispatch_action (final_action T_signIn r) w1) /\
    auth w1 = authReducer (auth w) (pending T_signIn) /\
    match r with
    | inr (returns p) => exists s, p = SessionPayload s pid
    | inr (rejectWithValue m) => m <> ""
    | inl _ => False
    end.
Proof.
  unfold signIn. rewrite run_createAsyncThunk.
  match goal with |- context [run ?pc ?x] =>
    pose proof (dispatch_free_auth pc x) as Hauth;
    pose proof (ends_in_run
                  (fun r => match r with
                            | returns p => exists s, p = SessionPayload s pid
                            | rejectWithValue m => m <> ""
                            end)
                  (fun _ => False) pc x) as Hend;
    destruct (run pc x) as [r w1] end.
  exists r, w1. split; [reflexivity|]. cbn [fst snd] in *. split.
  - apply Hauth. unfold save_tokens_and_user, setItem. thunk_structure.
  - destruct r as [e|r]; apply Hend;
      unfold save_tokens_and_user, setItem; thunk_structure;
      try exact I; try (eexists; reflexivity);
      apply or_default_nonempty; discriminate.
Qed.

(** X25.  [handleCredentialsLogin] never throws, whatever the provider and
    the stores do, and never leaves the state loading.  Afterwards [error]
    tells the outcome: it is null exactly when the sign-in went through, and
    then the state is authenticated with a session of ["credentials"];
    otherwise it holds the non-empty message of this attempt (not an older
    one), and [isAuthenticated], [session] and [providerId] are as before. *)
Theorem handleCredentialsLogin_outcome (w : World) (email password : string) :
  let login := handleCredentialsLogin authProviderRegistry JSON_stringify email password in
  let w' := snd (run login w) in
  fst (run login w) = inr tt /\
  isLoading (auth w') = false /\
  ((error (auth w') = None /\
    isAuthenticated (auth w') = true /\
    providerId (auth w') = Some "credentials" /\
    is_Some (session (auth w'))) \/
   (exists m, m <> "" /\
      error (auth w') = Some m /\
      isAuthenticated (auth w') = isAuthenticated (auth w) /\
      session (auth w') = session (auth w) /\
      providerId (auth w') = providerId (auth w))).
Proof.
  cbn zeta. unfold handleCredentialsLogin, signInWithProvider, clearAuthError, dispatch.
  cbn [bind run]. rewrite run_bind.
  match goal with |- context [run (SignIn ?pid ?creds) ?x] =>
    destruct (signIn_outcome_run x pid creds) as (r & w1 & -> & Ha & Hr)
  end.
  cbn [fst snd run]. split; [reflexivity|].
  destruct r as [e|[p|m]]; [contradiction| |]; cbn; rewrite Ha; cbn.
  - destruct Hr as [s ->]. split; [reflexivity|]. left. cbn. eauto.
  - split; [reflexivity|]. right. exists m. auto.
Qed.


End ContextMore.

(** ** authService.js and its context *)

Section ServiceMore.

Import authService.

Variable api_post : string -> RequestBody -> JsError + TokenData.

(** X27.  Without a stored refresh token, [refreshToken] throws
    [No refresh token available]: the backend is not asked (whatever it would
    answer), and the stores are as before. *)
Theorem refreshToken_needs_a_stored_token (w : World) :
  truthy (SecureStore_items (stores w) !! "refreshToken") = None ->
  faults w = [] ->
  fst (refreshToken api_post w) = inl (Error "No refresh token available") /\
  stores (snd (refreshToken api_post w)) = stores w.
Proof.
  intros Hnone Hf. destruct w as [a os [ls ss asy] fs t lg]. cbn in Hnone, Hf. subst fs.
  unfold refreshToken, andThen, getItemAsync, backend_call. cbn.
  rewrite Hnone. cbn. split; reflexivity.
Qed.

(** X28.  When the backend accepts the credentials and [SecureStore] does
    not fail, [signInWithCredentials] returns the data of the backend and has
    stored both tokens: [getAccessToken] then returns the access token, and
    the refresh token is under ["refreshToken"].  When the backend refuses,
    the error escapes and nothing is stored. *)
Theorem signInWithCredentials_stores_both_tokens (w : World) (email password : string) :
  faults w = [] ->
  let w' := snd (signInWithCredentials api_post email password w) in
  (forall data,
     api_post "/auth/login" (login_body email password) = inr data ->
     fst (signInWithCredentials api_post email password w) = inr data /\
     fst (getAccessToken w') = inr (Some (data_accessToken data)) /\
     SecureStore_items (stores w') !! "refreshToken" = Some (data_refreshToken data)) /\
  (forall e,
     api_post "/auth/login" (login_body email password) = inl e ->
     fst (signInWithCredentials api_post email password w) = inl e /\
     stores w' = stores w).
Proof.
  intros Hf. destruct w as [a os [ls ss asy] fs t lg]. cbn in Hf. subst fs.
  cbn zeta. unfold signInWithCredentials, store_tokens, getAccessToken, andThen,
    setItemAsync, getItemAsync, andThen, backend_call.
  split; intros x ->; cbn; repeat split.
  - f_equal. f_equal.
    rewrite lookup_insert_ne by discriminate. apply lookup_insert_eq.
  - apply lookup_insert_eq.
Qed.

(** X29.  [logout] is all or nothing only when no delete fails.  When no
    call on [SecureStore] fails, it clears the [accessToken] state and both
    keys.  When the first delete fails, it throws, and the state and both
    stored tokens are as before.  When the second delete fails, it throws
    with the state as before: the access token is gone from the store, the
    refresh token is still there. *)
Theorem logout_outcomes (app : App) :
  let app' := snd (logout app) in
  let stored := SecureStore_items (stores (device app)) in
  let stored' := SecureStore_items (stores (device app')) in
  (faults (device app) = [] ->
   fst (logout app) = inr tt /\ accessToken app' = None /\
   stored' !! "accessToken" = None /\ stored' !! "refreshToken" = None) /\
  (forall m fs, faults (device app) = Some m :: fs ->
   fst (logout app) = inl (Error m) /\ accessToken app' = accessToken app /\
   stored' = stored) /\
  (forall m fs, faults (device app) = None :: Some m :: fs ->
   fst (logout app) = inl (Error m) /\ accessToken app' = accessToken app /\
   stored' !! "accessToken" = None /\
   stored' !! "refreshToken" = stored !! "refreshToken").
Proof.
  destruct app as [token [a os [ls ss asy] fs t lg]]. cbn zeta. cbn [device faults].
  unfold logout, and_set, signOut, andThen, deleteItemAsync, andThen, backend_call.
  repeat split; intros; subst fs; cbn; try reflexivity.
  - rewrite lookup_delete_ne by discriminate. apply lookup_delete_eq.
  - apply lookup_delete_eq.
  - apply lookup_delete_eq.
  - apply lookup_delete_ne. discriminate.
Qed.

End ServiceMore.

(** ** The rest of the code on the deployment *)

Section DeploymentMore.

Import Scenario.

Local Abbreviation SignIn := (signIn registry JSON.stringify).
Local Abbreviation SignUp := (signUp registry JSON.stringify).
Local Abbreviation SignOut := (signOut registry).
Local Abbreviation RefreshSession := (refreshSession registry JSON.stringify).
Local Abbreviation CheckAuth := (checkAuth registry JSON.stringify JSON.parse).

Lemma registered_providers_witness :
  getProvider (registered [credentials; retired; google]) "google" = Some google /\
  provider_id google = "google" /\ enabled google = true /\
  In google [credentials; retired; google].
Proof.
  split; [reflexivity|].
  apply (proj1 (registered_providers [credentials; retired; google]) "google" google).
  reflexivity.
Defined.

Lemma secureStorage_round_trip_witness :
  faults fresh_on_web = [] /\
  fst (run (setItem "k" "v" ;; getItem "k") fresh_on_web) = inr (Some "v") /\
  fst (run (setItem "k" "v" ;; removeItem "k" ;; getItem "k") fresh_on_web) = inr None.
Proof.
  split; [reflexivity|].
  destruct (secureStorage_round_trip fresh_on_web "k" "v" eq_refl) as (Hget & Hdel & _).
  split; [exact Hget|exact Hdel].
Defined.

Lemma stores_of_the_other_platform_witness :
  let w' := snd (run (SignIn "credentials" (password_of "a@b.com")) fresh_on_web) in
  Platform_OS fresh_on_web = "web" /\
  SecureStore_items (stores w') = SecureStore_items (stores fresh_on_web) /\
  AsyncStorage_items (stores w') = AsyncStorage_items (stores fresh_on_web).
Proof.
  cbn zeta. split; [reflexivity|].
  apply (proj1 (stores_of_the_other_platform
                  (SignIn "credentials" (password_of "a@b.com")) fresh_on_web)).
  reflexivity.
Defined.

Lemma nativeStorage_rejects_witness :
  let c := removeItem_call ACCESS_TOKEN_KEY in
  fst (nativeStorage c signed_in_failing_store) = inl (Error "Disk is full") /\
  stores (snd (nativeStorage c signed_in_failing_store)) = stores signed_in_failing_store.
Proof.
  cbn zeta.
  destruct (nativeStorage_rejects (removeItem_call ACCESS_TOKEN_KEY)
              signed_in_failing_store (Error "Disk is full")) as [[_ Hrejects] Hstores].
  assert (fst (nativeStorage (removeItem_call ACCESS_TOKEN_KEY) signed_in_failing_store)
          = inl (Error "Disk is full")) as H.
  { apply Hrejects. exists "Keychain is locked", "Disk is full", []. split; reflexivity. }
  split; [exact H|exact (Hstores H)].
Defined.

Lemma fallback_write_is_not_read_back_witness :
  let w' := snd (run (setItem ACCESS_TOKEN_KEY "T9") locked_keychain) in
  Platform_OS locked_keychain <> "web" /\
  faults locked_keychain = [Some "Keychain is locked"] /\
  fst (run (setItem ACCESS_TOKEN_KEY "T9") locked_keychain) = inr tt /\
  AsyncStorage_items (stores w') !! ACCESS_TOKEN_KEY = Some "T9" /\
  SecureStore_items (stores w') = SecureStore_items (stores locked_keychain) /\
  fst (run (getItem ACCESS_TOKEN_KEY) w')
    = inr (SecureStore_items (stores locked_keychain) !! ACCESS_TOKEN_KEY).
Proof.
  cbn zeta.
  assert (Platform_OS locked_keychain <> "web") as Hos by discriminate.
  split; [exact Hos|]. split; [reflexivity|].
  exact (fallback_write_is_not_read_back locked_keychain ACCESS_TOKEN_KEY "T9"
           "Keychain is locked" Hos eq_refl).
Defined.

Lemma operations_keep_the_state_coherent_witness :
  let ops := [do_signIn "credentials" (password_of "a@b.com"); do_refreshSession;
              do_signIn "github" id_token; do_checkAuth; do_clearError; do_signOut] in
  coherent (auth signed_in_failing_store) = true /\
  coherent (auth (perform_all registry JSON.stringify JSON.parse ops
                    signed_in_failing_store)) = true.
Proof.
  cbn zeta. split; [reflexivity|].
  apply (operations_keep_the_state_coherent registry JSON.stringify JSON.parse).
  reflexivity.
Defined.

Lemma signUp_persists_before_publish_witness :
  let creds := password_of "c@d.com" in
  let w' := snd (run (SignUp "credentials" creds) fresh) in
  getProvider registry "credentials" = Some credentials /\
  (exists register,
     provider_signUp credentials = Some register /\
     register creds = resolves (session_response session_T3)) /\
  successful_session (session_response session_T3) = Some session_T3 /\
  faults fresh = [] /\
  fst (run (SignUp "credentials" creds) fresh)
    = inr (fulfilled T_signUp (SessionPayload session_T3 "credentials")) /\
  storage w' !! ACCESS_TOKEN_KEY = Some "T3" /\
  storage w' !! PROVIDER_ID_KEY = Some "credentials" /\
  auth w' = authenticated_as session_T3 "credentials".
Proof.
  cbn zeta. split; [reflexivity|]. split; [eexists; split; reflexivity|].
  split; [reflexivity|]. split; [reflexivity|].
  destruct (signUp_persists_before_publish registry JSON.stringify fresh "credentials"
              (password_of "c@d.com") credentials _ (session_response session_T3)
              session_T3 eq_refl eq_refl eq_refl eq_refl eq_refl)
    as (Hr & Ha & _ & _ & Hp & _ & Hauth).
  auto.
Defined.

Lemma signUp_failure_witness :
  let w' := snd (run (SignUp "google" id_token) signed_in) in
  fst (run (SignUp "google" id_token) signed_in)
    = inr (rejected T_signUp (Some "Provider google does not support sign up")) /\
  exists m,
    Some "Provider google does not support sign up" = Some m /\ m <> "" /\
    error (auth w') = Some m /\
    isAuthenticated (auth w') = isAuthenticated (auth signed_in) /\
    session (auth w') = session (auth signed_in) /\
    providerId (auth w') = providerId (auth signed_in).
Proof.
  cbn zeta.
  destruct (signUp_failure registry JSON.stringify signed_in "google" id_token)
    as (_ & _ & Hrejected).
  split; [reflexivity|]. apply Hrejected. reflexivity.
Defined.

Lemma signIn_refused_makes_no_storage_call_witness :
  let w := signed_in_failing_store in
  let w' := snd (run (SignIn "github" id_token) w) in
  signIn_grant registry "github" id_token = None /\
  signIn_refusal registry "github" id_token = "Provider github not found" /\
  fst (run (SignIn "github" id_token) w)
    = inr (rejected T_signIn (Some "Provider github not found")) /\
  stores w' = stores w /\
  faults w' = faults w.
Proof.
  cbn zeta. split; [reflexivity|]. split; [reflexivity|].
  destruct (signIn_refused_makes_no_storage_call registry JSON.stringify
              signed_in_failing_store "github" id_token eq_refl)
    as (_ & Hr & _ & Hs & Hf & _).
  auto.
Defined.

Lemma refreshSession_success_witness :
  let w' := snd (run RefreshSession signed_in) in
  truthy (providerId (auth signed_in)) = Some "credentials" /\
  refreshed_session registry (auth signed_in) (storage signed_in !! REFRESH_TOKEN_KEY)
    = Some session_T2 /\
  faults signed_in = [] /\
  fst (run RefreshSession signed_in)
    = inr (fulfilled T_refreshSession (SessionPayload session_T2 "credentials")) /\
  storage w' !! ACCESS_TOKEN_KEY = Some "T2" /\
  storage w' !! REFRESH_TOKEN_KEY = Some "R2" /\
  session (auth w') = Some session_T2.
Proof.
  cbn zeta.
  assert (refreshed_session registry (auth signed_in)
            (storage signed_in !! REFRESH_TOKEN_KEY) = Some session_T2) as H
    by (vm_compute; reflexivity).
  split; [reflexivity|]. split; [exact H|]. split; [reflexivity|].
  destruct (refreshSession_success registry JSON.stringify signed_in "credentials"
              session_T2 eq_refl H eq_refl)
    as (Hr & Ha & Hrt & _ & _ & _ & _ & Hs & _).
  auto.
Defined.

Lemma checkAuth_failure_witness :
  let w' := snd (run CheckAuth fresh) in
  faults fresh = [] /\
  truthy (storage fresh !! ACCESS_TOKEN_KEY) = None /\
  fst (run CheckAuth fresh) = inr (rejected T_checkAuth (Some "No active session found")) /\
  cleared (storage w') /\ unauthenticated (auth w') /\ isLoading (auth w') = false.
Proof.
  cbn zeta.
  destruct (checkAuth_failure registry JSON.stringify JSON.parse fresh eq_refl)
    as [Hcleared Hrejected].
  assert (fst (run CheckAuth fresh)
          = inr (rejected T_checkAuth (Some "No active session found"))) as H
    by (apply Hrejected; left; reflexivity).
  split; [reflexivity|]. split; [reflexivity|]. split; [exact H|].
  exact (Hcleared _ H).
Defined.

Lemma signOut_then_checkAuth_witness :
  let w1 := snd (run SignOut signed_in) in
  let w2 := snd (run CheckAuth w1) in
  faults signed_in = [] /\
  fst (run SignOut signed_in) = inr (fulfilled T_signOut TruePayload) /\
  fst (run CheckAuth w1) = inr (rejected T_checkAuth (Some "No active session found")) /\
  unauthenticated (auth w2) /\
  isLoading (auth w2) = false /\
  cleared (storage w2).
Proof.
  cbn zeta. split; [reflexivity|].
  apply (signOut_then_checkAuth registry JSON.stringify JSON.parse signed_in eq_refl).
  intros pid p Hpid Hp. vm_compute in Hpid. injection Hpid as <-.
  vm_compute in Hp. injection Hp as <-. exists true. reflexivity.
Defined.

Lemma checkAuth_expired_without_refresh_token_witness :
  let w := dave_without_refresh_token in
  let w' := snd (run CheckAuth w) in
  truthy (storage w !! ACCESS_TOKEN_KEY) = Some "T4" /\
  truthy (storage w !! USER_KEY) = Some (JSON.stringify dave) /\
  truthy (storage w !! PROVIDER_ID_KEY) = Some "credentials" /\
  JSON.parse (JSON.stringify dave) = Some dave /\
  user_expired (now w) dave = true /\
  truthy (storage w !! REFRESH_TOKEN_KEY) = None /\
  faults w = [] /\
  fst (run CheckAuth w) = inr (rejected T_checkAuth (Some "Session expired")) /\
  cleared (storage w') /\
  unauthenticated (auth w') /\
  isLoading (auth w') = false.
Proof.
  cbn zeta.
  assert (truthy (storage dave_without_refresh_token !! ACCESS_TOKEN_KEY) = Some "T4")
    as Ht by (vm_compute; reflexivity).
  assert (truthy (storage dave_without_refresh_token !! USER_KEY)
          = Some (JSON.stringify dave)) as Hi by (vm_compute; reflexivity).
  assert (truthy (storage dave_without_refresh_token !! PROVIDER_ID_KEY)
          = Some "credentials") as Hpid by (vm_compute; reflexivity).
  assert (JSON.parse (JSON.stringify dave) = Some dave) as Hu by (vm_compute; reflexivity).
  assert (truthy (storage dave_without_refresh_token !! REFRESH_TOKEN_KEY) = None)
    as Hrt by (vm_compute; reflexivity).
  do 7 (split; [first [assumption | reflexivity]|]).
  exact (checkAuth_expired_without_refresh_token registry JSON.stringify JSON.parse
           dave_without_refresh_token "T4" (JSON.stringify dave) "credentials" dave
           Ht Hi Hpid Hu eq_refl Hrt eq_refl).
Defined.

Lemma checkAuth_cannot_refresh_at_startup_witness :
  let w := dave_restarted in
  let w' := snd (run CheckAuth w) in
  truthy (providerId (auth w)) = None /\
  truthy (storage w !! ACCESS_TOKEN_KEY) = Some "T4" /\
  truthy (storage w !! USER_KEY) = Some (JSON.stringify dave) /\
  truthy (storage w !! PROVIDER_ID_KEY) = Some "credentials" /\
  JSON.parse (JSON.stringify dave) = Some dave /\
  user_expired (now w) dave = true /\
  truthy (storage w !! REFRESH_TOKEN_KEY) = Some "R4" /\
  faults w = [] /\
  fst (run CheckAuth w) = inr (rejected T_checkAuth (Some "Authentication check failed")) /\
  In (Dispatched (rejected T_refreshSession (Some "No active session found"))) (log w') /\
  cleared (storage w') /\
  unauthenticated (auth w').
Proof.
  cbn zeta.
  assert (truthy (storage dave_restarted !! ACCESS_TOKEN_KEY) = Some "T4")
    as Ht by (vm_compute; reflexivity).
  assert (truthy (storage dave_restarted !! USER_KEY) = Some (JSON.stringify dave))
    as Hi by (vm_compute; reflexivity).
  assert (truthy (storage dave_restarted !! PROVIDER_ID_KEY) = Some "credentials")
    as Hpid by (vm_compute; reflexivity).
  assert (JSON.parse (JSON.stringify dave) = Some dave) as Hu by (vm_compute; reflexivity).
  assert (truthy (storage dave_restarted !! REFRESH_TOKEN_KEY) = Some "R4")
    as Hrt by (vm_compute; reflexivity).
  do 8 (split; [first [assumption | reflexivity]|]).
  exact (checkAuth_cannot_refresh_at_startup registry JSON.stringify JSON.parse
           dave_restarted "T4" (JSON.stringify dave) "credentials" "R4" dave
           eq_refl Ht Hi Hpid Hu eq_refl Hrt eq_refl).
Defined.

Lemma checkAuth_delegates_to_refreshSession_witness :
  let w := dave_signed_in in
  let w' := snd (run CheckAuth w) in
  truthy (providerId (auth w)) = Some "credentials" /\
  truthy (storage w !! ACCESS_TOKEN_KEY) = Some "T4" /\
  truthy (storage w !! USER_KEY) = Some (JSON.stringify dave) /\
  truthy (storage w !! PROVIDER_ID_KEY) = Some "credentials" /\
  JSON.parse (JSON.stringify dave) = Some dave /\
  user_expired (now w) dave = true /\
  refreshed_session registry (auth w) (storage w !! REFRESH_TOKEN_KEY) = Some session_T2 /\
  faults w = [] /\
  fst (run CheckAuth w)
    = inr (fulfilled T_checkAuth (SessionPayload session_T2 "credentials")) /\
  session (auth w') = Some session_T2 /\
  storage w' !! ACCESS_TOKEN_KEY = Some "T2".
Proof.
  cbn zeta.
  assert (truthy (providerId (auth dave_signed_in)) = Some "credentials")
    as Hstate by (vm_compute; reflexivity).
  assert (truthy (storage dave_signed_in !! ACCESS_TOKEN_KEY) = Some "T4")
    as Ht by (vm_compute; reflexivity).
  assert (truthy (storage dave_signed_in !! USER_KEY) = Some (JSON.stringify dave))
    as Hi by (vm_compute; reflexivity).
  assert (truthy (storage dave_signed_in !! PROVIDER_ID_KEY) = Some "credentials")
    as Hpid by (vm_compute; reflexivity).
  assert (JSON.parse (JSON.stringify dave) = Some dave) as Hu by (vm_compute; reflexivity).
  assert (refreshed_session registry (auth dave_signed_in)
            (storage dave_signed_in !! REFRESH_TOKEN_KEY) = Some session_T2)
    as Hs by (vm_compute; reflexivity).
  do 8 (split; [first [assumption | reflexivity]|]).
  destruct (checkAuth_delegates_to_refreshSession registry JSON.stringify JSON.parse
              dave_signed_in "T4" (JSON.stringify dave) "credentials" "credentials"
              dave session_T2 Hstate Ht Hi Hpid Hu eq_refl Hs eq_refl)
    as (Hr & Hsess & _ & _ & Ha & _).
  auto.
Defined.


Lemma invalid_credentials_are_turned_down_witness :
  let providers := registered [credentials; strict] in
  let w' := snd (run (signIn providers JSON.stringify "strict" email_only) fresh) in
  getProvider providers "strict" = Some (CredentialsProvider api_post strict_config) /\
  validateCredentials strict_config = Some has_password /\
  has_password email_only = false /\
  fst (run (signIn providers JSON.stringify "strict" email_only) fresh)
    = inr (rejected T_signIn (Some "Invalid credentials format")) /\
  error (auth w') = Some "Invalid credentials format" /\
  stores w' = stores fresh.
Proof.
  cbn zeta. do 3 (split; [reflexivity|]).
  apply (invalid_credentials_are_turned_down api_post (registered [credentials; strict])
           JSON.stringify fresh "strict" strict_config has_password email_only
           eq_refl eq_refl eq_refl).
Defined.

Lemma signIn_reports_the_backend_message_witness :
  let creds := password_of "x@y.com" in
  let w' := snd (run (SignIn "credentials" creds) fresh) in
  getProvider registry "credentials" = Some credentials /\
  api_post "/auth/sign-in" (credentials_body creds)
    = api_failure (Some "Invalid email or password") /\
  fst (run (SignIn "credentials" creds) fresh)
    = inr (rejected T_signIn (Some "Invalid email or password")) /\
  error (auth w') = Some "Invalid email or password" /\
  stores w' = stores fresh.
Proof.
  cbn zeta. split; [reflexivity|]. split; [reflexivity|].
  apply (signIn_reports_the_backend_message api_post registry JSON.stringify fresh
           "credentials"
           {| credentials_base :=
                {| config_id := "credentials"; config_name := "Credentials";
                   config_enabled := true |};
              signInUrl := "/auth/sign-in";
              signUpUrl := "/auth/sign-up";
              validateCredentials := None |}
           (password_of "x@y.com") (Some "Invalid email or password")
           eq_refl eq_refl eq_refl).
Defined.

Lemma google_client_session_cannot_be_refreshed_witness :
  let w1 := snd (run (SignIn "google" id_token) fresh) in
  let w2 := snd (run RefreshSession w1) in
  getProvider registry "google" = Some google /\
  truthy (cred_token id_token) = Some "G1" /\
  truthy (storage fresh !! REFRESH_TOKEN_KEY) = None /\
  faults fresh = [] /\
  isAuthenticated (auth w1) = true /\
  fst (run RefreshSession w1)
    = inr (rejected T_refreshSession (Some "No active session found")) /\
  unauthenticated (auth w2) /\
  storage w2 !! ACCESS_TOKEN_KEY = Some "G1".
Proof.
  cbn zeta. do 4 (split; [reflexivity|]).
  apply (google_client_session_cannot_be_refreshed api_post registry JSON.stringify
           fresh "google" "G1"
           {| google_base := {| config_id := "google"; config_name := "Google";
                                config_enabled := true |};
              clientId := "client-id";
              serverAuthUrl := None |}
           id_token eq_refl eq_refl eq_refl eq_refl eq_refl).
Defined.


Lemma signIn_failed_write_leaves_the_token_witness :
  let w := web_quota_exceeded in
  let creds := password_of "a@b.com" in
  let w' := snd (run (SignIn "credentials" creds) w) in
  getProvider registry "credentials" = Some credentials /\
  provider_signIn credentials creds = resolves (session_response session_T1) /\
  successful_session (session_response session_T1) = Some session_T1 /\
  Platform_OS w = "web" /\
  faults w = [None; Some "QuotaExceededError"] /\
  fst (run (SignIn "credentials" creds) w)
    = inr (rejected T_signIn (Some "QuotaExceededError")) /\
  session (auth w') = session (auth w) /\
  storage w' !! ACCESS_TOKEN_KEY = Some "T1".
Proof.
  cbn zeta. do 5 (split; [reflexivity|]).
  destruct (signIn_failed_write_leaves_the_token registry JSON.stringify
              web_quota_exceeded "credentials" "QuotaExceededError"
              (password_of "a@b.com") credentials (session_response session_T1)
              session_T1 eq_refl eq_refl eq_refl eq_refl eq_refl)
    as (Hr & _ & Hs & _ & Ha & _).
  auto.
Defined.

Lemma concurrent_signIns_can_mix_sessions_witness :
  let credsA := password_of "a@b.com" in
  let credsB := password_of "c@d.com" in
  getProvider registry "credentials" = Some credentials /\
  provider_signIn credentials credsA = resolves (session_response session_T1) /\
  provider_signIn credentials credsB = resolves (session_response session_T3) /\
  faults fresh = [] /\
  exists schedule,
    let pl := interleave schedule
                {| first := SignIn "credentials" credsA;
                   second := SignIn "credentials" credsB;
                   world := fresh |} in
    first pl = Ret (fulfilled T_signIn (SessionPayload session_T1 "credentials")) /\
    second pl = Ret (fulfilled T_signIn (SessionPayload session_T3 "credentials")) /\
    session (auth (world pl)) = Some session_T1 /\
    storage (world pl) !! ACCESS_TOKEN_KEY = Some "T3" /\
    storage (world pl) !! USER_KEY = Some (JSON.stringify alice).
Proof.
  cbn zeta. do 4 (split; [reflexivity|]).
  exact (concurrent_signIns_can_mix_sessions registry JSON.stringify fresh
           "credentials" "credentials" (password_of "a@b.com") (password_of "c@d.com")
           credentials credentials (session_response session_T1)
           (session_response session_T3) session_T1 session_T3
           eq_refl eq_refl eq_refl eq_refl eq_refl eq_refl eq_refl).
Defined.

Lemma refreshToken_needs_a_stored_token_witness :
  truthy (SecureStore_items (stores fresh) !! "refreshToken") = None /\
  faults fresh = [] /\
  fst (authService.refreshToken token_api fresh)
    = inl (Error "No refresh token available") /\
  stores (snd (authService.refreshToken token_api fresh)) = stores fresh.
Proof.
  split; [reflexivity|]. split; [reflexivity|].
  exact (refreshToken_needs_a_stored_token token_api fresh eq_refl eq_refl).
Defined.

Lemma signInWithCredentials_stores_both_tokens_witness :
  let data := {| authService.data_accessToken := "T1";
                 authService.data_refreshToken := "R1" |} in
  let w' := snd (authService.signInWithCredentials token_api "a@b.com" "secret" fresh) in
  faults fresh = [] /\
  token_api "/auth/login" (authService.login_body "a@b.com" "secret") = inr data /\
  fst (authService.signInWithCredentials token_api "a@b.com" "secret" fresh) = inr data /\
  fst (authService.getAccessToken w') = inr (Some "T1") /\
  SecureStore_items (stores w') !! "refreshToken" = Some "R1".
Proof.
  cbn zeta. split; [reflexivity|]. split; [reflexivity|].
  apply (proj1 (signInWithCredentials_stores_both_tokens token_api fresh
                  "a@b.com" "secret" eq_refl)).
  reflexivity.
Defined.

Lemma logout_outcomes_witness :
  let app := {| authService.accessToken := Some "T1"; authService.device := flaky_keychain |} in
  let app' := snd (authService.logout app) in
  faults flaky_keychain = [None; Some "Keychain is locked"] /\
  fst (authService.logout app) = inl (Error "Keychain is locked") /\
  authService.accessToken app' = Some "T1" /\
  SecureStore_items (stores (authService.device app')) !! "accessToken" = None /\
  SecureStore_items (stores (authService.device app')) !! "refreshToken"
    = SecureStore_items (stores flaky_keychain) !! "refreshToken".
Proof.
  cbn zeta. split; [reflexivity|].
  apply (proj2 (proj2 (logout_outcomes
                         {| authService.accessToken := Some "T1";
                            authService.device := flaky_keychain |}))
           "Keychain is locked" []).
  reflexivity.
Defined.

End DeploymentMore.
